(** * Preference coordinator of the portfolio site

    A shallow embedding of the two scripts of the repository:

    - [ThemeManager] (the class that resolves, applies and persists the
      theme and language preferences), and
    - [HeroToggle] (theme.js, the hero-image toggler).

    The browser objects the scripts talk to ([localStorage], the root
    element's [classList], attributes and inline style, the other elements,
    timers, listeners, dispatched events, the console) are fields of one
    explicit page state; every method of the class is a computation in a
    small state-and-exception monad over that state, and every call that
    changes something outside the script is also appended to a log, in the
    order the script makes it.

    Modelling choices:
    - a value that may be [null] or [undefined] is an [option]; truthiness
      is [truthy];
    - an object literal used as a dictionary is a [gmap] over its own
      properties, and it inherits from [Object.prototype]: a read of a
      property the literal does not give is answered by the page's realm,
      which also says what a read on a built-in object gives and how such
      a value is written as a string;
    - the elements other than the root are a flat list in document order,
      those inside the head first, looked up by id, tag or attribute as
      the script does;
    - the documents are those in which an element the scripts write text
      into (a tagged element, the title, the toggle button) has no element
      children, so that the write replaces its text and nothing else, and
      in which the root carries no text key;
    - the language selector offers the supported codes as its options;
    - a timer or listener holds the closure it was given as a constructor
      of [Callback] or [Listener]; timers may fire in any order;
    - a reload builds a fresh page from the document as authored, keeping
      the storage and the environment's signals;
    - storage and [matchMedia] are available: [getItem], [setItem],
      [removeItem] and the media query do not throw. *)

From Stdlib Require Import Ascii String.
From stdpp Require Import gmap strings list fin_maps.

Open Scope string_scope.
Open Scope list_scope.

(** ** JavaScript values used by the scripts *)

Module JSValue.

(** A value that is a string, [null] or [undefined]: what
    [localStorage.getItem], [getAttribute] or [navigator.language] gives. *)
Definition truthy (v : option string) : bool :=
  match v with
  | Some s => bool_decide (s ≠ "")
  | None => false
  end.

(** [String.prototype.toLowerCase] on the ASCII letters; the bytes of
    other characters are left as they are. *)
Definition lowerAscii (c : ascii) : ascii :=
  let n := nat_of_ascii c in
  if ((65 <=? n) && (n <=? 90))%nat then ascii_of_nat (n + 32) else c.

Fixpoint toLowerCase (s : string) : string :=
  match s with
  | EmptyString => EmptyString
  | String c s' => String (lowerAscii c) (toLowerCase s')
  end.

(** [s.split('-')[0]]: the part of [s] before its first hyphen, the whole
    of [s] when it has none. *)
Fixpoint splitDashFirst (s : string) : string :=
  match s with
  | EmptyString => EmptyString
  | String c s' =>
      if Ascii.eqb c "-"%char then EmptyString else String c (splitDashFirst s')
  end.

End JSValue.

Import JSValue.

(** Errors a script can throw. *)
Inductive JSError := TypeError.

(** The result of evaluating an expression that touches no page state. *)
Inductive Result (A : Type) :=
| Ok (a : A)
| Threw (e : JSError).
Arguments Ok {A} a.
Arguments Threw {A} e.

(** ** Property reads that leave the script's own objects

    An object literal inherits from [Object.prototype], so a read of a
    property the literal does not give is answered by the realm. *)

Module Builtins.

(** What a property read can give. [VOther] is any value that is neither
    a string nor [null] nor [undefined] (a function, an object, a number,
    a boolean), with its truthiness; [id] tells such values apart. *)
Inductive Value :=
| VUndefined
| VNull
| VString (s : string)
| VOther (truthy : bool) (id : nat).

(** Truthiness, as [||] tests it. *)
Definition truthyValue (v : Value) : bool :=
  match v with
  | VUndefined | VNull => false
  | VString s => bool_decide (s ≠ "")
  | VOther t _ => t
  end.

(** [v == null], as [?.] tests it. *)
Definition nullish (v : Value) : bool :=
  match v with
  | VUndefined | VNull => true
  | _ => false
  end.

(** The built-in objects of the realm the script runs in. *)
Record Realm := mkRealm {
  (** [Object.prototype[name]]: the property an object literal inherits
      under [name], [None] when [Object.prototype] has none. *)
  inherited : string → option Value;
  (** [v[key]] for a value [v] that is not [null] or [undefined] and not
      one of the script's own objects; an accessor may throw. *)
  member : Value → string → Result Value;
  (** [String(v)] for a [VOther] value; on the built-in objects and
      functions it does not throw. *)
  text : Value → string;
}.

(** [String(v)], which a DOM string property stores when assigned [v]. *)
Definition toText (r : Realm) (v : Value) : string :=
  match v with
  | VUndefined => "undefined"
  | VNull => "null"
  | VString s => s
  | VOther _ _ => text r v
  end.

End Builtins.

Import Builtins.

(** ** The translation table (lines 205-254)

    The object literal and its eight dictionaries: maps over the
    properties the literal gives them, read through [tableGet] and
    [dictGet], which fall back on what the literal inherits. *)

Module Translations.

Definition en : gmap string string := list_to_map
  [ ("page-title", "Portfolio");
    ("page-description", "Welcome to my portfolio");
    ("theme-toggle", "Toggle Theme");
    ("language-select", "Select Language") ].

Definition es : gmap string string := list_to_map
  [ ("page-title", "Portafolio");
    ("page-description", "Bienvenido a mi portafolio");
    ("theme-toggle", "Cambiar Tema");
    ("language-select", "Seleccionar Idioma") ].

Definition fr : gmap string string := list_to_map
  [ ("page-title", "Portefeuille");
    ("page-description", "Bienvenue dans mon portefeuille");
    ("theme-toggle", "Basculer le thème");
    ("language-select", "Sélectionner la langue") ].

Definition de : gmap string string := list_to_map
  [ ("page-title", "Portfolio");
    ("page-description", "Willkommen in meinem Portfolio");
    ("theme-toggle", "Design wechseln");
    ("language-select", "Sprache wählen") ].

Definition it : gmap string string := list_to_map
  [ ("page-title", "Portafoglio");
    ("page-description", "Benvenuto nel mio portfolio");
    ("theme-toggle", "Cambia tema");
    ("language-select", "Seleziona lingua") ].

Definition pt : gmap string string := list_to_map
  [ ("page-title", "Portfólio");
    ("page-description", "Bem-vindo ao meu portfólio");
    ("theme-toggle", "Alternar tema");
    ("language-select", "Selecionar idioma") ].

Definition ja : gmap string string := list_to_map
  [ ("page-title", "ポートフォリオ");
    ("page-description", "ポートフォリオへようこそ");
    ("theme-toggle", "テーマを切り替える");
    ("language-select", "言語を選択") ].

Definition zh : gmap string string := list_to_map
  [ ("page-title", "作品集");
    ("page-description", "欢迎来到我的作品集");
    ("theme-toggle", "切换主题");
    ("language-select", "选择语言") ].

Definition translations : gmap string (gmap string string) := list_to_map
  [ ("en", en); ("es", es); ("fr", fr); ("de", de);
    ("it", it); ("pt", pt); ("ja", ja); ("zh", zh) ].

(** The own entry of the table for a (language, key) pair. *)
Definition entry (langCode key : string) : option string :=
  translations !! langCode ≫= (λ dict : gmap string string, dict !! key).

(** What [translations[langCode]] gives: one of the eight dictionaries,
    or whatever the literal inherits under that name. *)
Inductive Base :=
| Dictionary (dict : gmap string string)
| Foreign (v : Value).

Definition tableGet (r : Realm) (langCode : string) : Base :=
  match translations !! langCode with
  | Some dict => Dictionary dict
  | None => Foreign (default VUndefined (inherited r langCode))
  end.

(** [dict[key]] on a dictionary of the literal: its own property, else
    the inherited one. *)
Definition dictGet (r : Realm) (dict : gmap string string) (key : string)
    : Value :=
  match dict !! key with
  | Some s => VString s
  | None => default VUndefined (inherited r key)
  end.

(** [base?.[key]] *)
Definition optionalGet (r : Realm) (base : Base) (key : string)
    : Result Value :=
  match base with
  | Dictionary dict => Ok (dictGet r dict key)
  | Foreign v => if nullish v then Ok VUndefined else member r v key
  end.

(** [base[key]], which throws on [null] and [undefined]. *)
Definition strictGet (r : Realm) (base : Base) (key : string)
    : Result Value :=
  match base with
  | Dictionary dict => Ok (dictGet r dict key)
  | Foreign v => if nullish v then Threw TypeError else member r v key
  end.

(** [getTranslation] (lines 204-257):
    [translations[langCode]?.[key] || translations['en'][key] || key]. *)
Definition getTranslation (r : Realm) (langCode key : string) : Result Value :=
  match optionalGet r (tableGet r langCode) key with
  | Threw e => Threw e
  | Ok exact =>
      if truthyValue exact then Ok exact
      else
        match strictGet r (tableGet r "en") key with
        | Threw e => Threw e
        | Ok fallback =>
            if truthyValue fallback then Ok fallback else Ok (VString key)
        end
  end.

End Translations.

Import Translations.

(** ** The page: storage, document, environment signals, scheduler *)

Module Browser.

(** The [CustomEvent]s the class dispatches on [document], with their
    [detail] payload. *)
Inductive CustomEvent :=
| ThemeChange (isDark : bool) (theme : string)
| LanguageChange (langCode language : string).

(** The closures the class hands to [setTimeout]. *)
Inductive Callback :=
| RemoveTransitionClass                                (* lines 101-103 *)
| SwapTranslations (langCode : string) (animate : bool) (* lines 131-143 *)
| ClearTransitionStyle.                                (* lines 136-138 *)

(** The listeners the class registers. *)
Inductive Listener :=
| SystemThemeListener      (* matchMedia(...) 'change', lines 38-42 *)
| ToggleClickListener      (* #theme-toggle 'click', line 266 *)
| LanguageSelectListener.  (* #language-select 'change', lines 274-276 *)

#[export] Instance Listener_eq_dec : EqDecision Listener.
Proof. solve_decision. Defined.

(** Every call that changes something outside the script, in the order
    the script makes them. *)
Inductive Effect :=
| ClassAdd (c : string)
| ClassRemove (c : string)
| SetItem (key value : string)
| RemoveItem (key : string)
| SetAttribute (name value : string)
| SetProperty (name value : string)
| SetStyle (name value : string)
| SetElementAttribute (id name value : string)
| SetInnerHTML (id html : string)
| SetSelectValue (id value : string)
| SetTranslations (langCode : string)
| AppendStyle (id : string)
| DispatchEvent (e : CustomEvent)
| SetTimeout (cb : Callback) (ms : nat)
| AddEventListener (l : Listener)
| ConsoleWarn (msg : string)
| LocationReload.

(** An element other than the root. [content] is what [innerHTML] and
    [textContent] read and write on an element without element children;
    [value] is the [value] of a form control. The [id], [data-i18n],
    [placeholder], [aria-label], [name] and [content] attributes live in
    [attrs]. *)
Record Element := mkElement {
  tagName : string;
  attrs : gmap string string;
  content : string;
  value : string;
}.

(** [document]: the root element ([document.documentElement]) and the
    other elements in document order; the first [headLength] of them are
    those inside [document.head], the rest those inside the body. *)
Record Document := mkDocument {
  classList : list string;          (* documentElement.classList *)
  attributes : gmap string string;  (* documentElement attributes *)
  style : gmap string string;       (* documentElement.style *)
  elements : list Element;
  headLength : nat;
}.

Record Page := mkPage {
  localStorage : gmap string string;
  document : Document;
  prefersDark : bool;          (* matchMedia('(prefers-color-scheme: dark)').matches *)
  language : option string;     (* navigator.language *)
  userLanguage : option string; (* navigator.userLanguage *)
  timers : list (Callback * nat);
  listeners : list Listener;
  log : list Effect;
  reloading : bool;             (* location.reload() was called *)
  realm : Realm;                (* the built-in objects *)
}.

(** *** Field updates *)

Definition updLocalStorage (f : gmap string string → gmap string string) (p : Page) : Page :=
  mkPage (f (localStorage p)) (document p) (prefersDark p) (language p)
    (userLanguage p) (timers p) (listeners p) (log p) (reloading p) (realm p).

Definition updDocument (f : Document → Document) (p : Page) : Page :=
  mkPage (localStorage p) (f (document p)) (prefersDark p) (language p)
    (userLanguage p) (timers p) (listeners p) (log p) (reloading p) (realm p).

Definition updPrefersDark (b : bool) (p : Page) : Page :=
  mkPage (localStorage p) (document p) b (language p)
    (userLanguage p) (timers p) (listeners p) (log p) (reloading p) (realm p).

Definition updTimers (f : list (Callback * nat) → list (Callback * nat)) (p : Page) : Page :=
  mkPage (localStorage p) (document p) (prefersDark p) (language p)
    (userLanguage p) (f (timers p)) (listeners p) (log p) (reloading p)
    (realm p).

Definition updListeners (f : list Listener → list Listener) (p : Page) : Page :=
  mkPage (localStorage p) (document p) (prefersDark p) (language p)
    (userLanguage p) (timers p) (f (listeners p)) (log p) (reloading p)
    (realm p).

Definition updLog (f : list Effect → list Effect) (p : Page) : Page :=
  mkPage (localStorage p) (document p) (prefersDark p) (language p)
    (userLanguage p) (timers p) (listeners p) (f (log p)) (reloading p)
    (realm p).

Definition updReloading (b : bool) (p : Page) : Page :=
  mkPage (localStorage p) (document p) (prefersDark p) (language p)
    (userLanguage p) (timers p) (listeners p) (log p) b (realm p).

Definition updClassList (f : list string → list string) (d : Document) : Document :=
  mkDocument (f (classList d)) (attributes d) (style d) (elements d)
    (headLength d).

Definition updAttributes (f : gmap string string → gmap string string) (d : Document) : Document :=
  mkDocument (classList d) (f (attributes d)) (style d) (elements d)
    (headLength d).

Definition updStyle (f : gmap string string → gmap string string) (d : Document) : Document :=
  mkDocument (classList d) (attributes d) (f (style d)) (elements d)
    (headLength d).

Definition updElements (f : list Element → list Element) (d : Document) : Document :=
  mkDocument (classList d) (attributes d) (style d) (f (elements d))
    (headLength d).

Definition updAttrs (f : gmap string string → gmap string string) (e : Element) : Element :=
  mkElement (tagName e) (f (attrs e)) (content e) (value e).

Definition updContent (s : string) (e : Element) : Element :=
  mkElement (tagName e) (attrs e) s (value e).

Definition updValue (s : string) (e : Element) : Element :=
  mkElement (tagName e) (attrs e) (content e) s.

(** *** Computations over the page *)

(** How a call ends: normally with a value, or abruptly with a thrown
    error; either way with the page as the call left it. *)
Inductive Completion (A : Type) :=
| Normal (a : A) (p : Page)
| Abrupt (e : JSError) (p : Page).
Arguments Normal {A} a p.
Arguments Abrupt {A} e p.

Definition JS (A : Type) : Type := Page → Completion A.

#[export] Instance JS_ret : MRet JS := λ A a p, Normal a p.

#[export] Instance JS_bind : MBind JS := λ A B f m p,
  match m p with
  | Normal a p' => f a p'
  | Abrupt e p' => Abrupt e p'
  end.

Definition read {A} (f : Page → A) : JS A := λ p, Normal (f p) p.
Definition modify (f : Page → Page) : JS unit := λ p, Normal tt (f p).
Definition throw {A} (e : JSError) : JS A := λ p, Abrupt e p.
Definition emit (e : Effect) : JS unit := modify (updLog (λ l, l ++ [e])).
Definition when (b : bool) (m : JS unit) : JS unit := if b then m else mret tt.

Definition liftResult {A} (r : Result A) : JS A :=
  match r with
  | Ok a => mret a
  | Threw e => throw e
  end.

(** The page a call leaves behind, however it ends. *)
Definition pageOf {A} (c : Completion A) : Page :=
  match c with
  | Normal _ p => p
  | Abrupt _ p => p
  end.

Definition isNormal {A} (c : Completion A) : bool :=
  match c with
  | Normal _ _ => true
  | Abrupt _ _ => false
  end.

(** *** [localStorage] *)

Definition getItem (key : string) : JS (option string) :=
  read (λ p, localStorage p !! key).

Definition setItem (key value : string) : JS unit :=
  modify (updLocalStorage (insert key value));; emit (SetItem key value).

Definition removeItem (key : string) : JS unit :=
  modify (updLocalStorage (delete key));; emit (RemoveItem key).

(** *** [document.documentElement] *)

(** [classList.add]: a token list holds a class at most once. *)
Definition tokensAdd (c : string) (l : list string) : list string :=
  if bool_decide (c ∈ l) then l else l ++ [c].

Definition tokensRemove (c : string) (l : list string) : list string :=
  filter (λ x, x ≠ c) l.

Definition classListAdd (c : string) : JS unit :=
  modify (updDocument (updClassList (tokensAdd c)));; emit (ClassAdd c).

Definition classListRemove (c : string) : JS unit :=
  modify (updDocument (updClassList (tokensRemove c)));; emit (ClassRemove c).

Definition classListContains (c : string) : JS bool :=
  read (λ p, bool_decide (c ∈ classList (document p))).

Definition setAttribute (name value : string) : JS unit :=
  modify (updDocument (updAttributes (insert name value)));;
  emit (SetAttribute name value).

Definition getAttribute (name : string) : JS (option string) :=
  read (λ p, attributes (document p) !! name).

(** [style.setProperty(name, value)] for a custom property. *)
Definition setProperty (name value : string) : JS unit :=
  modify (updDocument (updStyle (insert name value)));;
  emit (SetProperty name value).

(** [style.<name> = value]; assigning the empty string removes the
    declaration. *)
Definition setStyle (name value : string) : JS unit :=
  modify (updDocument (updStyle
    (if bool_decide (value = "") then delete name else insert name value)));;
  emit (SetStyle name value).

(** *** Other elements *)

Definition hasId (id : string) (e : Element) : bool :=
  bool_decide (attrs e !! "id" = Some id).

(** [document.getElementById]: the first element with that id. *)
Definition getElementById (id : string) : JS (option Element) :=
  read (λ p, find (hasId id) (elements (document p))).

(** Apply [f] to the first element that satisfies [sel]. *)
Fixpoint updateFirst (sel : Element → bool) (f : Element → Element)
    (l : list Element) : list Element :=
  match l with
  | [] => []
  | e :: l' => if sel e then f e :: l' else e :: updateFirst sel f l'
  end.

Definition updateById (id : string) (f : Element → Element) : JS unit :=
  modify (updDocument (updElements (updateFirst (hasId id) f))).

(** *** Scheduler, listeners, events, console *)

Definition setTimeout (cb : Callback) (ms : nat) : JS unit :=
  modify (updTimers (λ l, l ++ [(cb, ms)]));; emit (SetTimeout cb ms).

Definition addEventListener (l : Listener) : JS unit :=
  modify (updListeners (λ ls, ls ++ [l]));; emit (AddEventListener l).

Definition dispatchEvent (e : CustomEvent) : JS unit := emit (DispatchEvent e).

Definition consoleWarn (msg : string) : JS unit := emit (ConsoleWarn msg).

Definition locationReload : JS unit :=
  modify (updReloading true);; emit LocationReload.

End Browser.

Import Browser.

(** ** The [ThemeManager] class *)

Module ThemeManager.

(** *** Constructor constants (lines 13-17) *)

Definition THEME_STORAGE_KEY : string := "portfolio-theme".
Definition LANGUAGE_STORAGE_KEY : string := "portfolio-language".
Definition THEME_CLASS : string := "dark-theme".
Definition TRANSITION_CLASS : string := "theme-transition".
Definition SUPPORTED_LANGUAGES : list string :=
  ["en"; "es"; "fr"; "de"; "it"; "pt"; "ja"; "zh"].

(** [SUPPORTED_LANGUAGES.includes(x)] *)
Definition supported (x : string) : bool :=
  bool_decide (x ∈ SUPPORTED_LANGUAGES).

(** [isDark ? 'dark' : 'light'] *)
Definition themeName (isDark : bool) : string :=
  if isDark then "dark" else "light".

(** *** [updateThemeVariables] (lines 149-169) *)
Definition updateThemeVariables (isDark : bool) : JS unit :=
  if isDark then
    setProperty "--bg-primary" "#1a1a1a";;
    setProperty "--bg-secondary" "#2d2d2d";;
    setProperty "--text-primary" "#ffffff";;
    setProperty "--text-secondary" "#b0b0b0";;
    setProperty "--border-color" "#404040";;
    setProperty "--shadow-color" "rgba(0, 0, 0, 0.3)";;
    setProperty "--accent-color" "#6366f1"
  else
    setProperty "--bg-primary" "#ffffff";;
    setProperty "--bg-secondary" "#f5f5f5";;
    setProperty "--text-primary" "#1a1a1a";;
    setProperty "--text-secondary" "#666666";;
    setProperty "--border-color" "#e0e0e0";;
    setProperty "--shadow-color" "rgba(0, 0, 0, 0.1)";;
    setProperty "--accent-color" "#6366f1".

(** *** [dispatchThemeChangeEvent] (lines 450-455) *)
Definition dispatchThemeChangeEvent (isDark : bool) : JS unit :=
  dispatchEvent (ThemeChange isDark (themeName isDark)).

(** *** [dispatchLanguageChangeEvent] (lines 460-465) *)
Definition dispatchLanguageChangeEvent (langCode : string) : JS unit :=
  dispatchEvent (LanguageChange langCode langCode).

(** *** [setTheme] (lines 75-105) *)
Definition setTheme (isDark animate : bool) : JS unit :=
  when animate (classListAdd TRANSITION_CLASS);;
  (if isDark then classListAdd THEME_CLASS else classListRemove THEME_CLASS);;
  setItem THEME_STORAGE_KEY (themeName isDark);;
  updateThemeVariables isDark;;
  dispatchThemeChangeEvent isDark;;
  when animate (setTimeout RemoveTransitionClass 300).

(** *** [detectBrowserLanguage] (lines 63-70)

    [navigator.language || navigator.userLanguage]; calling [split] on
    [undefined] throws. *)
Definition detectBrowserLanguage : JS string :=
  lang ← read language;
  userLang ← read userLanguage;
  let browserLang := if truthy lang then lang else userLang in
  match browserLang with
  | None => throw TypeError
  | Some browserLang =>
      let langCode := toLowerCase (splitDashFirst browserLang) in
      mret (if supported langCode then langCode else "en")
  end.

Definition quote : string := String (ascii_of_nat 34) EmptyString.

(** *** [setLanguage] (lines 110-144) *)
Definition setLanguage (langCode : string) (animate : bool) : JS unit :=
  langCode ←
    (if supported langCode then mret langCode
     else
       consoleWarn ("Language " +:+ quote +:+ langCode +:+ quote
                    +:+ " not supported. Defaulting to English.");;
       mret "en");
  when animate
    (setStyle "opacity" "0.7";;
     setStyle "transition" "opacity 0.3s ease-in-out");;
  setAttribute "lang" langCode;;
  setItem LANGUAGE_STORAGE_KEY langCode;;
  setTimeout (SwapTranslations langCode animate) 150.

(** *** [updatePageTranslations] (lines 174-199) *)

(** The body of the [forEach] callback for one matched element;
    [translation] is the string the DOM stores for what [getTranslation]
    returned. *)
Definition applyTranslation (translation : string) (e : Element) : Element :=
  if bool_decide (tagName e = "INPUT") || bool_decide (tagName e = "TEXTAREA")
  then updAttrs (insert "placeholder" translation) e
  else updContent translation e.

(** The [forEach] over [querySelectorAll('[data-i18n]')], in document
    order; a throw leaves the elements after it untouched. *)
Fixpoint translateElements (r : Realm) (langCode : string) (l : list Element)
    : list Element * option JSError :=
  match l with
  | [] => ([], None)
  | e :: l' =>
      match attrs e !! "data-i18n" with
      | None =>
          let rest := translateElements r langCode l' in
          (e :: rest.1, rest.2)
      | Some key =>
          match getTranslation r langCode key with
          | Threw err => (e :: l', Some err)
          | Ok translation =>
              let rest := translateElements r langCode l' in
              (applyTranslation (toText r translation) e :: rest.1, rest.2)
          end
      end
  end.

Definition isTitle (e : Element) : bool :=
  bool_decide (toLowerCase (tagName e) = "title").

Definition isMetaDescription (e : Element) : bool :=
  bool_decide (toLowerCase (tagName e) = "meta")
  && bool_decide (attrs e !! "name" = Some "description").

Definition updatePageTranslations (langCode : string) : JS unit :=
  r ← read realm;
  els ← read (λ p, elements (document p));
  let swept := translateElements r langCode els in
  modify (updDocument (updElements (λ _, swept.1)));;
  emit (SetTranslations langCode);;
  match swept.2 with
  | Some err => throw err
  | None =>
      titleElement ← read (λ p, find isTitle (elements (document p)));
      match titleElement with
      | Some _ =>
          t ← liftResult (getTranslation r langCode "page-title");
          modify (updDocument (updElements
            (updateFirst isTitle (updContent (toText r t)))))
      | None => mret tt
      end;;
      metaDescription ← read (λ p, find isMetaDescription (elements (document p)));
      match metaDescription with
      | Some _ =>
          t ← liftResult (getTranslation r langCode "page-description");
          modify (updDocument (updElements
            (updateFirst isMetaDescription
               (updAttrs (insert "content" (toText r t))))))
      | None => mret tt
      end
  end.

(** *** The timer callbacks *)
Definition runCallback (cb : Callback) : JS unit :=
  match cb with
  | RemoveTransitionClass => classListRemove TRANSITION_CLASS
  | SwapTranslations langCode animate =>
      updatePageTranslations langCode;;
      when animate
        (setStyle "opacity" "1";;
         setTimeout ClearTransitionStyle 300);;
      dispatchLanguageChangeEvent langCode
  | ClearTransitionStyle => setStyle "transition" ""
  end.

(** *** [updateThemeToggleButton] (lines 295-302) *)
Definition sunIcon : string := "☀️".
Definition moonIcon : string := "🌙".

Definition updateThemeToggleButton : JS unit :=
  themeToggleBtn ← getElementById "theme-toggle";
  match themeToggleBtn with
  | Some _ =>
      isDark ← classListContains THEME_CLASS;
      let label : string :=
        if isDark : bool then "Switch to light theme"
        else "Switch to dark theme" in
      let icon : string := if isDark then sunIcon else moonIcon in
      updateById "theme-toggle" (updAttrs (insert "aria-label" label));;
      emit (SetElementAttribute "theme-toggle" "aria-label" label);;
      updateById "theme-toggle" (updContent icon);;
      emit (SetInnerHTML "theme-toggle" icon)
  | None => mret tt
  end.

(** *** [toggleTheme] (lines 286-290) *)
Definition toggleTheme : JS unit :=
  isDark ← classListContains THEME_CLASS;
  setTheme (negb isDark) true;;
  updateThemeToggleButton.

(** *** [setupEventListeners] (lines 262-281) *)

(** The [value] of the selector after [languageSelect.value = v]: the
    selector offers the supported codes as its options, and an assignment
    that matches no option leaves none selected. *)
Definition selected (v : string) : string := if supported v then v else "".

Definition setupEventListeners : JS unit :=
  themeToggleBtn ← getElementById "theme-toggle";
  match themeToggleBtn with
  | Some _ =>
      addEventListener ToggleClickListener;;
      updateThemeToggleButton
  | None => mret tt
  end;;
  languageSelect ← getElementById "language-select";
  match languageSelect with
  | Some _ =>
      addEventListener LanguageSelectListener;;
      saved ← getItem LANGUAGE_STORAGE_KEY;
      currentLang ←
        (if truthy saved then mret (default "" saved)
         else detectBrowserLanguage);
      updateById "language-select" (updValue (selected currentLang));;
      emit (SetSelectValue "language-select" currentLang)
  | None => mret tt
  end.

(** *** [applyAnimationStyles] (lines 307-445) *)
Definition animationStyles : string := "
      /* CSS Custom Properties - Default Light Theme */
      :root {
        --bg-primary: #ffffff;
        --bg-secondary: #f5f5f5;
        --text-primary: #1a1a1a;
        --text-secondary: #666666;
        --border-color: #e0e0e0;
        --shadow-color: rgba(0, 0, 0, 0.1);
        --accent-color: #6366f1;
        --transition-duration: 0.3s;
        --transition-timing: cubic-bezier(0.4, 0, 0.2, 1);
      }
      
      /* Dark Theme */
      html.dark-theme {
        --bg-primary: #1a1a1a;
        --bg-secondary: #2d2d2d;
        --text-primary: #ffffff;
        --text-secondary: #b0b0b0;
        --border-color: #404040;
        --shadow-color: rgba(0, 0, 0, 0.3);
      }
      
      /* Smooth transitions */
      html.theme-transition,
      html.theme-transition *,
      html.theme-transition *::before,
      html.theme-transition *::after {
        transition: background-color var(--transition-duration) var(--transition-timing),
                    color var(--transition-duration) var(--transition-timing),
                    border-color var(--transition-duration) var(--transition-timing),
                    box-shadow var(--transition-duration) var(--transition-timing) !important;
      }
      
      /* Apply theme variables to common elements */
      body {
        background-color: var(--bg-primary);
        color: var(--text-primary);
        transition: background-color var(--transition-duration) var(--transition-timing),
                    color var(--transition-duration) var(--transition-timing);
      }
      
      a {
        color: var(--accent-color);
      }
      
      button, input, textarea, select {
        background-color: var(--bg-secondary);
        color: var(--text-primary);
        border-color: var(--border-color);
      }
      
      /* Animation for language switching */
      @keyframes fadeInOut {
        0% {
          opacity: 1;
        }
        50% {
          opacity: 0.7;
        }
        100% {
          opacity: 1;
        }
      }
      
      /* Smooth rotation for theme toggle button */
      @keyframes rotate {
        from {
          transform: rotate(0deg);
        }
        to {
          transform: rotate(360deg);
        }
      }
      
      #theme-toggle {
        cursor: pointer;
        background: none;
        border: none;
        font-size: 1.5rem;
        transition: transform var(--transition-duration) var(--transition-timing);
      }
      
      #theme-toggle:hover {
        animation: rotate 0.6s var(--transition-timing);
      }
      
      #theme-toggle:focus-visible {
        outline: 2px solid var(--accent-color);
        outline-offset: 2px;
        border-radius: 4px;
      }
      
      #language-select {
        padding: 0.5rem;
        border-radius: 4px;
        cursor: pointer;
        font-size: 1rem;
      }
      
      #language-select:focus-visible {
        outline: 2px solid var(--accent-color);
        outline-offset: 2px;
      }
      
      /* Smooth text selection */
      ::selection {
        background-color: var(--accent-color);
        color: var(--bg-primary);
      }
      
      /* Scrollbar styling */
      ::-webkit-scrollbar {
        width: 10px;
        height: 10px;
      }
      
      ::-webkit-scrollbar-track {
        background: var(--bg-secondary);
      }
      
      ::-webkit-scrollbar-thumb {
        background: var(--text-secondary);
        border-radius: 5px;
      }
      
      ::-webkit-scrollbar-thumb:hover {
        background: var(--accent-color);
      }
    ".

(** [document.head.appendChild(e)]: [e] becomes the last element inside
    the head, before the elements of the body. *)
Definition appendToHead (e : Element) (d : Document) : Document :=
  mkDocument (classList d) (attributes d) (style d)
    (take (headLength d) (elements d) ++ e :: drop (headLength d) (elements d))
    (S (headLength d)).

Definition applyAnimationStyles : JS unit :=
  existing ← getElementById "theme-animations";
  match existing with
  | Some _ => mret tt
  | None =>
      let style := mkElement "STYLE" {[ "id" := "theme-animations" ]}
                     animationStyles "" in
      modify (updDocument (appendToHead style));;
      emit (AppendStyle "theme-animations")
  end.

(** *** [initializeTheme] (lines 28-43) *)

(** The handler of the system preference's [change] event, lines 38-42;
    [matches] is [e.matches]. *)
Definition onSystemThemeChange (matches : bool) : JS unit :=
  saved ← getItem THEME_STORAGE_KEY;
  when (negb (truthy saved)) (setTheme matches true).

Definition initializeTheme : JS unit :=
  savedTheme ← getItem THEME_STORAGE_KEY;
  prefersDark ← read prefersDark;
  let isDark :=
    if truthy savedTheme then bool_decide (savedTheme = Some "dark")
    else prefersDark in
  setTheme isDark false;;
  addEventListener SystemThemeListener.

(** *** [initializeLanguage] (lines 48-58) *)
Definition initializeLanguage : JS unit :=
  savedLanguage ← getItem LANGUAGE_STORAGE_KEY;
  if truthy savedLanguage && supported (default "" savedLanguage) then
    setLanguage (default "" savedLanguage) false
  else
    browserLanguage ← detectBrowserLanguage;
    setLanguage browserLanguage false.

(** *** [constructor] (lines 12-23) *)
Definition constructor : JS unit :=
  initializeTheme;;
  initializeLanguage;;
  setupEventListeners;;
  applyAnimationStyles.

(** *** [getCurrentTheme] (lines 470-472), [getCurrentLanguage] (477-479) *)
Definition getCurrentTheme : JS string :=
  isDark ← classListContains THEME_CLASS;
  mret (themeName isDark).

Definition getCurrentLanguage : JS string :=
  lang ← getAttribute "lang";
  mret (if truthy lang then default "" lang else "en").

(** *** [resetToSystemPreferences] (lines 484-488) *)
Definition resetToSystemPreferences : JS unit :=
  removeItem THEME_STORAGE_KEY;;
  removeItem LANGUAGE_STORAGE_KEY;;
  locationReload.

(** *** The page's life: load, events, timers, reload *)

(** Lines 491-498: the manager is constructed once per page load, on a
    fresh document [html]; storage and the environment's signals are what
    the previous page left. *)
Definition freshPage (html : Document) (p : Page) : Page :=
  mkPage (localStorage p) html (prefersDark p) (language p) (userLanguage p)
    [] [] [] false (realm p).

Definition boot (html : Document) (p : Page) : Completion unit :=
  constructor (freshPage html p).

(** What can happen to a loaded page. *)
Inductive Input :=
| ClickThemeToggle
| ChangeLanguageSelect (value : string)
| SystemThemeChange (matches : bool)
| TimerFires (n : nat)
| CallSetTheme (isDark animate : bool)
| CallSetLanguage (langCode : string) (animate : bool)
| CallToggleTheme
| CallResetToSystemPreferences
| Navigate.

(** An exception thrown by a handler is reported and the page goes on. *)
Definition attempt (m : JS unit) : JS unit := λ p, Normal tt (pageOf (m p)).

(** Run [handler] once for every registration of [l]. *)
Definition notify (l : Listener) (handler : JS unit) : JS unit :=
  ls ← read listeners;
  foldr (λ _ rest, attempt handler;; rest) (mret tt)
        (filter (λ x, x = l) ls).

Definition fireTimer (n : nat) : JS unit :=
  ts ← read timers;
  match ts !! n with
  | Some (cb, _) =>
      modify (updTimers (delete n));;
      attempt (runCallback cb)
  | None => mret tt
  end.

Definition dispatch (i : Input) : JS unit :=
  match i with
  | ClickThemeToggle => notify ToggleClickListener toggleTheme
  | ChangeLanguageSelect v =>
      updateById "language-select" (updValue v);;
      notify LanguageSelectListener (setLanguage v true)
  | SystemThemeChange m =>
      modify (updPrefersDark m);;
      notify SystemThemeListener (onSystemThemeChange m)
  | TimerFires n => fireTimer n
  | CallSetTheme isDark animate => attempt (setTheme isDark animate)
  | CallSetLanguage langCode animate => attempt (setLanguage langCode animate)
  | CallToggleTheme => attempt toggleTheme
  | CallResetToSystemPreferences => attempt resetToSystemPreferences
  | Navigate => mret tt
  end.

(** One step of the page. [Navigate] is the reload taking place: it
    happens only after [location.reload()] was called. *)
Definition handle (html : Document) (i : Input) (p : Page) : Page :=
  match i with
  | Navigate => if reloading p then pageOf (boot html p) else p
  | _ => pageOf (dispatch i p)
  end.

(** The pages a visit can be in: the result of a load from any storage
    and environment, then any sequence of steps. *)
Inductive reachable (html : Document) : Page → Prop :=
| reachable_boot p0 : reachable html (pageOf (boot html p0))
| reachable_step p i : reachable html p → reachable html (handle html i p).

End ThemeManager.

(** ** theme.js: the hero-image toggler *)

Module HeroToggle.

(** Line 4 *)
Definition themes : list string := ["light"; "dark"].

(** The script's variables and the page. [toggleBtn] and [heroImage] are
    whether [getElementById] found the element at load. *)
Record Script := mkScript {
  toggleBtn : bool;
  heroImage : bool;
  currentThemeIndex : nat;
  listening : bool;
  page : Page;
}.

(** Lines 1-7 up to the registration of the handler: [addEventListener]
    on a missing button throws. *)
Definition load (p : Page) : Script * option JSError :=
  let btn := bool_decide (is_Some (find (hasId "themeToggle") (elements (document p)))) in
  let img := bool_decide (is_Some (find (hasId "heroImage") (elements (document p)))) in
  if btn then (mkScript btn img 0 true p, None)
  else (mkScript btn img 0 false p, Some TypeError).

(** A value interpolated in a template literal or passed where a string
    is expected. *)
Definition toString (v : option string) : string := default "undefined" v.

(** The click handler, lines 7-17. Assigning [src] on a missing image
    throws, after the index and the attribute were updated. *)
Definition onClick (s : Script) : Script * option JSError :=
  let index := (currentThemeIndex s + 1) mod length themes in
  let newTheme := themes !! index in
  let p1 := updDocument (updAttributes (insert "data-theme" (toString newTheme)))
              (page s) in
  if heroImage s then
    let src := "assets/hero-" +:+ toString newTheme +:+ ".svg" in
    let p2 := updDocument (updElements
                (updateFirst (hasId "heroImage") (updAttrs (insert "src" src)))) p1 in
    (mkScript (toggleBtn s) (heroImage s) index (listening s) p2, None)
  else
    (mkScript (toggleBtn s) (heroImage s) index (listening s) p1, Some TypeError).

(** A click on the button runs the handler if it was registered. *)
Definition click (s : Script) : Script :=
  if listening s then (onClick s).1 else s.

Fixpoint clicks (k : nat) (s : Script) : Script :=
  match k with
  | 0 => s
  | S k' => click (clicks k' s)
  end.

Definition dataTheme (s : Script) : option string :=
  attributes (document (page s)) !! "data-theme".

Definition heroSrc (s : Script) : option string :=
  find (hasId "heroImage") (elements (document (page s))) ≫= λ e, attrs e !! "src".

End HeroToggle.

(** * Vocabulary of the properties *)

Import ThemeManager.

(** ** Computations *)

(** [respects R m]: whatever the page and however [m] ends, the page it
    leaves is related by [R] to the page it started from. *)
Definition respects {A} (R : relation Page) (m : JS A) : Prop :=
  ∀ p, R p (pageOf (m p)).

(** A call that always completes normally. *)
Definition completes (m : JS unit) : Prop :=
  ∀ p, m p = Normal tt (pageOf (m p)).

(** [unchanged proj]: the part [proj] of the page is left as it was. *)
Definition unchanged {B} (proj : Page → B) : relation Page :=
  λ p p', proj p' = proj p.

(** [appending Q]: the log only grew, and by effects that satisfy [Q]. *)
Definition appending (Q : Effect → Prop) : relation Page :=
  λ p p', ∃ es, log p' = log p ++ es ∧ Forall Q es.

(** ** Views of the page *)

(** The stored theme, the root's classes and the reload flag. *)
Definition themeView (p : Page) : option string * list string * bool :=
  (localStorage p !! THEME_STORAGE_KEY, classList (document p), reloading p).

(** The stored preferences and the root's attributes. *)
Definition storedView (p : Page) : gmap string string * gmap string string :=
  (localStorage p, attributes (document p)).

(** The stored theme and the reload flag. *)
Definition lifeView (p : Page) : option string * bool :=
  (localStorage p !! THEME_STORAGE_KEY, reloading p).

Definition appliedDark (p : Page) : bool :=
  bool_decide (THEME_CLASS ∈ classList (document p)).

(** Any effect but adding the transition class to the root. *)
Definition quiet (e : Effect) : Prop := e ≠ ClassAdd TRANSITION_CLASS.

(** ** What the methods resolve and write *)

(** The theme [initializeTheme] resolves (line 33). *)
Definition resolvedDark (p : Page) : bool :=
  let savedTheme := localStorage p !! THEME_STORAGE_KEY in
  if truthy savedTheme then bool_decide (savedTheme = Some "dark")
  else prefersDark p.

(** [navigator.language || navigator.userLanguage] *)
Definition browserLocale (p : Page) : option string :=
  if truthy (language p) then language p else userLanguage p.

(** The primary subtag of a locale, in lower case (line 66). *)
Definition primarySubtag (locale : string) : string :=
  toLowerCase (splitDashFirst locale).

(** The code [detectBrowserLanguage] returns for a locale (line 69). *)
Definition detectedCode (locale : string) : string :=
  if supported (primarySubtag locale) then primarySubtag locale else "en".

(** The code that [setLanguage] applies. *)
Definition resolvedCode (langCode : string) : string :=
  if supported langCode then langCode else "en".

(** The seven custom properties as [updateThemeVariables] leaves them. *)
Definition themeVariables (isDark : bool) (style : gmap string string)
    : gmap string string :=
  if isDark then
    <["--accent-color" := "#6366f1"]>
    (<["--shadow-color" := "rgba(0, 0, 0, 0.3)"]>
    (<["--border-color" := "#404040"]>
    (<["--text-secondary" := "#b0b0b0"]>
    (<["--text-primary" := "#ffffff"]>
    (<["--bg-secondary" := "#2d2d2d"]>
    (<["--bg-primary" := "#1a1a1a"]> style))))))
  else
    <["--accent-color" := "#6366f1"]>
    (<["--shadow-color" := "rgba(0, 0, 0, 0.1)"]>
    (<["--border-color" := "#e0e0e0"]>
    (<["--text-secondary" := "#666666"]>
    (<["--text-primary" := "#1a1a1a"]>
    (<["--bg-secondary" := "#f5f5f5"]>
    (<["--bg-primary" := "#ffffff"]> style)))))).

(** The effects of a load that resolves to [isDark], in order. *)
Definition themeEffects (isDark : bool) : list Effect :=
  (if isDark then ClassAdd THEME_CLASS else ClassRemove THEME_CLASS)
  :: SetItem THEME_STORAGE_KEY (themeName isDark)
  :: (if isDark then
        [SetProperty "--bg-primary" "#1a1a1a";
         SetProperty "--bg-secondary" "#2d2d2d";
         SetProperty "--text-primary" "#ffffff";
         SetProperty "--text-secondary" "#b0b0b0";
         SetProperty "--border-color" "#404040";
         SetProperty "--shadow-color" "rgba(0, 0, 0, 0.3)";
         SetProperty "--accent-color" "#6366f1"]
      else
        [SetProperty "--bg-primary" "#ffffff";
         SetProperty "--bg-secondary" "#f5f5f5";
         SetProperty "--text-primary" "#1a1a1a";
         SetProperty "--text-secondary" "#666666";
         SetProperty "--border-color" "#e0e0e0";
         SetProperty "--shadow-color" "rgba(0, 0, 0, 0.1)";
         SetProperty "--accent-color" "#6366f1"])
  ++ [DispatchEvent (ThemeChange isDark (themeName isDark));
      AddEventListener SystemThemeListener].

(** What the button shows for a theme (lines 299-300). *)
Definition toggleLabel (isDark : bool) : string :=
  if isDark then "Switch to light theme" else "Switch to dark theme".

Definition toggleIcon (isDark : bool) : string :=
  if isDark then sunIcon else moonIcon.

(** What the constructor runs after [initializeTheme]. *)
Definition afterTheme : JS unit :=
  initializeLanguage;; setupEventListeners;; applyAnimationStyles.

(** What the constructor runs after [initializeLanguage]. *)
Definition afterLanguage : JS unit :=
  setupEventListeners;; applyAnimationStyles.

(** ** The page's life *)

(** The storage holds one of the two values [setTheme] writes. *)
Definition themePersisted (p : Page) : Prop :=
  localStorage p !! THEME_STORAGE_KEY = Some "dark"
  ∨ localStorage p !! THEME_STORAGE_KEY = Some "light".

(** Unless a reload is pending, the theme is persisted. *)
Definition settled (p : Page) : Prop :=
  reloading p = false → themePersisted p.

Definition keepsSettled : relation Page := λ p p', settled p → settled p'.

(** No listener is ever removed. *)
Definition keepsListeners : relation Page :=
  λ p p', ∀ l, l ∈ listeners p → l ∈ listeners p'.

(** ** The hero-image toggler *)

(** The theme after [k] clicks. *)
Definition themeAfter (k : nat) : string :=
  if Nat.odd k then "dark" else "light".

(** What holds of the script's variables [k] clicks after the load. *)
Definition ticking (k : nat) (s : HeroToggle.Script) : Prop :=
  HeroToggle.listening s = true
  ∧ HeroToggle.currentThemeIndex s = (if Nat.odd k then 1 else 0).

(** The hero image was found at load and is still on the page. *)
Definition pictured (s : HeroToggle.Script) : Prop :=
  HeroToggle.heroImage s = true
  ∧ is_Some (find (hasId "heroImage")
               (elements (document (HeroToggle.page s)))).

(** ** Concrete pages *)

(** The properties of [Object.prototype] in ECMAScript, Annex B
    included. *)
Definition prototypeNames : list string :=
  [ "constructor"; "hasOwnProperty"; "isPrototypeOf"; "propertyIsEnumerable";
    "toLocaleString"; "toString"; "valueOf"; "__proto__";
    "__defineGetter__"; "__defineSetter__"; "__lookupGetter__";
    "__lookupSetter__" ].

(** A realm for the examples: [Object.prototype] has these twelve
    properties, each a function or an object; of what the built-ins
    themselves give only the constructor's [name] is told, ['Object']. *)
Definition sampleRealm : Realm :=
  mkRealm
    (λ name,
       if bool_decide (name ∈ prototypeNames)
       then Some (VOther true (if bool_decide (name = "constructor") then 0 else 1))
       else None)
    (λ v key,
       match v with
       | VOther true 0 =>
           if bool_decide (key = "name") then Ok (VString "Object")
           else Ok VUndefined
       | _ => Ok VUndefined
       end)
    (λ _, "function () { [native code] }").

(** A page whose storage holds the empty string under the theme key. *)
Definition emptyThemeStored (prefersDark : bool) : Page :=
  mkPage {[ THEME_STORAGE_KEY := "" ]} (mkDocument [] ∅ ∅ [] 0)
    prefersDark (Some "en-US") None [] [] [] false sampleRealm.

(** A page with both controls, two tagged elements, and a title and a
    meta description in its head. *)
Definition sampleDocument : Document :=
  mkDocument ["no-js"] ∅ ∅
    [ mkElement "TITLE" ∅ "Portfolio" "";
      mkElement "META"
        (<["name" := "description"]> {[ "content" := "Welcome" ]}) "" "";
      mkElement "BUTTON" {[ "id" := "theme-toggle" ]} "" "";
      mkElement "SELECT" {[ "id" := "language-select" ]} "" "en";
      mkElement "H1" {[ "data-i18n" := "page-title" ]} "Portfolio" "";
      mkElement "INPUT" {[ "data-i18n" := "language-select" ]} "" "" ]
    2.

(** A first visit: nothing stored, the system prefers dark, the browser's
    locale is Canadian French. *)
Definition firstVisit : Page :=
  mkPage ∅ sampleDocument true (Some "fr-CA") None [] [] [] false sampleRealm.

(** A returning visit: light and German stored, against the same
    signals. *)
Definition returningVisit : Page :=
  mkPage (<[THEME_STORAGE_KEY := "light"]>
            {[ LANGUAGE_STORAGE_KEY := "de" ]})
    sampleDocument true (Some "fr-CA") None [] [] [] false sampleRealm.

(** The page of the hero-image toggler. *)
Definition heroDocument : Document :=
  mkDocument [] ∅ ∅
    [ mkElement "BUTTON" {[ "id" := "themeToggle" ]} "" "";
      mkElement "IMG"
        (<["id" := "heroImage"]> {[ "src" := "assets/hero-light.svg" ]})
        "" "" ]
    0.

Definition heroPage : Page :=
  mkPage ∅ heroDocument false (Some "en-US") None [] [] [] false sampleRealm.

(** ** Further concrete pages *)

(** A visit in a browser that reports no locale, with nothing stored. *)
Definition noLocaleVisit : Page :=
  mkPage ∅ sampleDocument false None None [] [] [] false sampleRealm.

(** The first visit after its load and one click on the toggle button. *)
Definition toggledVisit : Page :=
  handle sampleDocument ClickThemeToggle
    (pageOf (boot sampleDocument firstVisit)).

(** The returning visit after its load and a call of
    [resetToSystemPreferences], before the reload. *)
Definition resetVisit : Page :=
  handle sampleDocument CallResetToSystemPreferences
    (pageOf (boot sampleDocument returningVisit)).

(** A page without any element. *)
Definition barePage : Page :=
  mkPage ∅ (mkDocument [] ∅ ∅ [] 0) false (Some "en-US") None [] [] [] false
    sampleRealm.

(** The hero page without its image. *)
Definition buttonOnlyPage : Page :=
  mkPage ∅
    (mkDocument [] ∅ ∅
       [ mkElement "BUTTON" {[ "id" := "themeToggle" ]} "" "" ] 0)
    false (Some "en-US") None [] [] [] false sampleRealm.

(** ** Further vocabulary: the rest of the class *)

(** [keeps I]: a step from a page where [I] holds ends on one where it
    holds. *)
Definition keeps (I : Page → Prop) : relation Page := λ p p', I p → I p'.

(** What the calls that touch neither preference leave alone: the storage,
    the root's attributes, whether the dark class is on the root, the reload
    flag and the browser's locale. *)
Definition coreView (p : Page)
    : gmap string string * gmap string string * bool * bool
      * option string * option string :=
  (localStorage p, attributes (document p), appliedDark p, reloading p,
   language p, userLanguage p).

(** The stored theme names the theme the root element shows. *)
Definition themeSynced (p : Page) : Prop :=
  reloading p = false →
  localStorage p !! THEME_STORAGE_KEY = Some (themeName (appliedDark p)).

(** The stored language and the root's [lang] attribute are one supported
    code. *)
Definition languageApplied (p : Page) (code : string) : Prop :=
  code ∈ SUPPORTED_LANGUAGES
  ∧ localStorage p !! LANGUAGE_STORAGE_KEY = Some code
  ∧ attributes (document p) !! "lang" = Some code.

(** Unless the browser reports no locale or a reload is pending, a language
    is applied. *)
Definition languageSynced (p : Page) : Prop :=
  browserLocale p = None ∨ reloading p = true ∨ ∃ code, languageApplied p code.

(** The browser's locale properties. *)
Definition envView (p : Page) : option string * option string :=
  (language p, userLanguage p).

(** ** Further vocabulary: translations *)

(** The string the DOM stores when it is assigned what [getTranslation]
    returns; the key stands in where the lookup throws, which it does for
    no language of the table. *)
Definition translationOf (r : Realm) (langCode key : string) : string :=
  match getTranslation r langCode key with
  | Ok v => toText r v
  | Threw _ => key
  end.

(** [element.tagName === 'INPUT' || element.tagName === 'TEXTAREA'] *)
Definition takesPlaceholder (e : Element) : bool :=
  bool_decide (tagName e = "INPUT") || bool_decide (tagName e = "TEXTAREA").

(** What the [forEach] of [updatePageTranslations] does to one element. *)
Definition translated (r : Realm) (langCode : string) (e : Element) : Element :=
  match attrs e !! "data-i18n" with
  | Some key => applyTranslation (translationOf r langCode key) e
  | None => e
  end.

(** What [updatePageTranslations] does to one element: the [forEach],
    then the title's text when [asTitle], then the description's [content]
    when [asMeta]. *)
Definition paint (r : Realm) (langCode : string) (asTitle asMeta : bool)
    (e : Element) : Element :=
  let e1 := translated r langCode e in
  let e2 :=
    if asTitle then updContent (translationOf r langCode "page-title") e1
    else e1 in
  if asMeta
  then updAttrs
         (insert "content" (translationOf r langCode "page-description")) e2
  else e2.

(** The elements after [updatePageTranslations]; [title] and [meta] say
    whether the first title and the first description are still to come. *)
Fixpoint sweep (r : Realm) (langCode : string) (title meta : bool)
    (l : list Element) : list Element :=
  match l with
  | [] => []
  | e :: l' =>
      paint r langCode (title && isTitle e) (meta && isMetaDescription e) e
      :: sweep r langCode (title && negb (isTitle e))
               (meta && negb (isMetaDescription e)) l'
  end.

(** The attributes and the text [paint] leaves on an element. *)
Definition paintedAttrs (r : Realm) (langCode : string) (asMeta : bool)
    (e : Element) : gmap string string :=
  let placed :=
    match attrs e !! "data-i18n" with
    | Some key =>
        if takesPlaceholder e
        then <["placeholder" := translationOf r langCode key]> (attrs e)
        else attrs e
    | None => attrs e
    end in
  if asMeta
  then <["content" := translationOf r langCode "page-description"]> placed
  else placed.

Definition paintedContent (r : Realm) (langCode : string) (asTitle : bool)
    (e : Element) : string :=
  if asTitle then translationOf r langCode "page-title"
  else
    match attrs e !! "data-i18n" with
    | Some key =>
        if takesPlaceholder e then content e else translationOf r langCode key
    | None => content e
    end.

(** ** Further vocabulary: what a translation leaves alone *)

(** Everything of the page but the elements and the log. *)
Definition shellView (p : Page)
    : gmap string string * list string * gmap string string
      * gmap string string * list (Callback * nat) * list Listener * bool :=
  (localStorage p, classList (document p), attributes (document p),
   style (document p), timers p, listeners p, reloading p).

(** ** Further vocabulary: the two bindings of [setupEventListeners] *)

(** Lines 264-268. *)
Definition bindToggle : JS unit :=
  themeToggleBtn ← getElementById "theme-toggle";
  match themeToggleBtn with
  | Some _ =>
      addEventListener ToggleClickListener;;
      updateThemeToggleButton
  | None => mret tt
  end.

(** Lines 271-280. *)
Definition bindSelect : JS unit :=
  languageSelect ← getElementById "language-select";
  match languageSelect with
  | Some _ =>
      addEventListener LanguageSelectListener;;
      saved ← getItem LANGUAGE_STORAGE_KEY;
      currentLang ←
        (if truthy saved then mret (default "" saved)
         else detectBrowserLanguage);
      updateById "language-select" (updValue (selected currentLang));;
      emit (SetSelectValue "language-select" currentLang)
  | None => mret tt
  end.

(** Whether the page has an element with this id. *)
Definition present (id : string) (l : list Element) : bool :=
  bool_decide (is_Some (find (hasId id) l)).

(** A stored language that [initializeLanguage] takes. *)
Definition usableLanguage (p : Page) : Prop :=
  ∃ s, localStorage p !! LANGUAGE_STORAGE_KEY = Some s
       ∧ s ∈ SUPPORTED_LANGUAGES.

(** ** Further vocabulary: timers and events *)

(** The timers the class sets: the translation after 150 ms, for a
    supported code, the two clean-ups after 300 ms. *)
Definition timerOk (t : Callback * nat) : Prop :=
  match t.1 with
  | SwapTranslations code _ => code ∈ SUPPORTED_LANGUAGES ∧ t.2 = 150%nat
  | _ => t.2 = 300%nat
  end.

(** A translation is into a supported code, and an event's detail is
    consistent: [theme] names [isDark], [language] is [langCode]. *)
Definition effectOk (e : Effect) : Prop :=
  match e with
  | SetTranslations code => code ∈ SUPPORTED_LANGUAGES
  | DispatchEvent (LanguageChange code language) =>
      code ∈ SUPPORTED_LANGUAGES ∧ language = code
  | DispatchEvent (ThemeChange isDark theme) => theme = themeName isDark
  | _ => True
  end.

(** The timers and the log only grew, by timers and effects of these
    kinds. *)
Definition growing : relation Page :=
  λ p p', (∃ ts, timers p' = timers p ++ ts ∧ Forall timerOk ts)
          ∧ (∃ es, log p' = log p ++ es ∧ Forall effectOk es).

Definition orderly (p : Page) : Prop :=
  Forall timerOk (timers p) ∧ Forall effectOk (log p).

(** * Properties *)

(** ** Truthiness *)

Section Truthiness.

Lemma truthy_Some s : truthy (Some s) = true ↔ s ≠ "".
Proof. unfold truthy. by rewrite bool_decide_eq_true. Qed.

Lemma truthy_Some_false s : truthy (Some s) = false ↔ s = "".
Proof.
  unfold truthy. rewrite bool_decide_eq_false.
  split; [apply dec_stable | by intros -> ?].
Qed.

Lemma falsy_cases v : truthy v = false ↔ v = None ∨ v = Some "".
Proof.
  destruct v as [s|]; [rewrite truthy_Some_false | simpl].
  - split; [intros ->; by right | intros [?|?]; congruence].
  - split; [by left | done].
Qed.

End Truthiness.

(** ** The translation lookup *)

Section TranslationLookup.

Lemma translations_nonempty :
  map_Forall (λ _ (d : gmap string string),
                map_Forall (λ _ (v : string), v ≠ "") d) translations.
Proof. apply (bool_decide_unpack _). vm_compute. reflexivity. Qed.

(** No entry of the table is the empty string. *)
Lemma entry_nonempty langCode key s : entry langCode key = Some s → s ≠ "".
Proof.
  unfold entry. intros H.
  destruct (translations !! langCode) as [d|] eqn:Hd; simpl in H; [|done].
  exact (translations_nonempty _ _ Hd _ _ H).
Qed.

(** A language of the table is answered by its dictionary, whatever the
    literal inherits. *)
Lemma tableGet_en r : tableGet r "en" = Dictionary en.
Proof. reflexivity. Qed.

Lemma dictGet_own r dict key s :
  dict !! key = Some s → dictGet r dict key = VString s.
Proof. intros H. unfold dictGet. by rewrite H. Qed.

Lemma dictGet_missing r dict key :
  dict !! key = None → inherited r key = None →
  dictGet r dict key = VUndefined.
Proof. intros H Hk. unfold dictGet. by rewrite H, Hk. Qed.

Lemma entry_truthy langCode key s :
  entry langCode key = Some s → truthyValue (VString s) = true.
Proof. intros H. apply bool_decide_eq_true_2. by eapply entry_nonempty. Qed.

(** An exact entry is returned whatever the realm. *)
Lemma getTranslation_exact r langCode key s :
  entry langCode key = Some s → getTranslation r langCode key = Ok (VString s).
Proof.
  intros He. pose proof (entry_truthy _ _ _ He) as Ht.
  unfold entry in He. unfold getTranslation, tableGet.
  destruct (translations !! langCode) as [dict|]; [|done].
  simpl in He. cbn [optionalGet]. by rewrite (dictGet_own _ _ _ _ He), Ht.
Qed.

(** Without an exact entry, and with neither name inherited, the first
    operand is [undefined]. *)
Lemma optionalGet_missing r langCode key :
  entry langCode key = None →
  is_Some (translations !! langCode) ∨ inherited r langCode = None →
  inherited r key = None →
  optionalGet r (tableGet r langCode) key = Ok VUndefined.
Proof.
  intros He Hlang Hkey. unfold entry in He. unfold tableGet.
  destruct (translations !! langCode) as [dict|] eqn:Hd.
  - simpl in He. cbn [optionalGet]. by rewrite dictGet_missing.
  - destruct Hlang as [[? [=]]|Hlang]. by rewrite Hlang.
Qed.

(** The three tiers, as one equation, for names that are not inherited. *)
Lemma getTranslation_tiers r langCode key :
  is_Some (translations !! langCode) ∨ inherited r langCode = None →
  inherited r key = None →
  getTranslation r langCode key =
    Ok (VString (match entry langCode key with
                 | Some s => s
                 | None => match entry "en" key with
                           | Some s => s
                           | None => key
                           end
                 end)).
Proof.
  intros Hlang Hkey.
  destruct (entry langCode key) as [s|] eqn:He;
    [by apply getTranslation_exact|].
  unfold getTranslation. rewrite optionalGet_missing by done.
  cbn [truthyValue]. rewrite tableGet_en. cbn [strictGet].
  change (entry "en" key) with (en !! key).
  destruct (en !! key) as [d|] eqn:Hd.
  - by rewrite (dictGet_own _ _ _ _ Hd), (entry_truthy "en" key d Hd).
  - by rewrite dictGet_missing.
Qed.

(** C2, as stated, fails. For the empty key, which no dictionary has, the
    third tier returns the key itself, the empty string. And the object
    literals inherit from [Object.prototype]: for the key ['toString'],
    which no dictionary has either, the first operand is the inherited
    function, which is truthy and is what comes back, not the key; for the
    language ['constructor'] the first operand reads a property of the
    [Object] function, and its ['name'] comes back. *)
Lemma getTranslation_outside_the_tiers :
  getTranslation sampleRealm "fr" "" = Ok (VString "")
  ∧ entry "en" "toString" = None
  ∧ getTranslation sampleRealm "en" "toString" = Ok (VOther true 1)
  ∧ getTranslation sampleRealm "en" "toString" ≠ Ok (VString "toString")
  ∧ entry "constructor" "name" = None
  ∧ entry "en" "name" = None
  ∧ getTranslation sampleRealm "constructor" "name" = Ok (VString "Object").
Proof. repeat split; try (vm_compute; reflexivity). vm_compute. discriminate. Qed.

(** C2 (amended): [getTranslation] returns the exact (language, key)
    entry when it exists; otherwise, when neither the key nor a language
    code outside the table is the name of a property the literals inherit,
    it returns the ['en'] entry for the key when that exists and the
    literal key when not, it does not throw, and the string it returns is
    non-empty whenever the key is. *)
Theorem getTranslation_three_tier_fallback r langCode key :
  (∀ s, entry langCode key = Some s →
        getTranslation r langCode key = Ok (VString s) ∧ s ≠ "")
  ∧ (is_Some (translations !! langCode) ∨ inherited r langCode = None →
     inherited r key = None →
     (∀ s, entry langCode key = None → entry "en" key = Some s →
           getTranslation r langCode key = Ok (VString s))
     ∧ (entry langCode key = None → entry "en" key = None →
        getTranslation r langCode key = Ok (VString key))
     ∧ (∃ s, getTranslation r langCode key = Ok (VString s)
             ∧ (key ≠ "" → s ≠ ""))).
Proof.
  split.
  - intros s He. split; [by apply getTranslation_exact | by eapply entry_nonempty].
  - intros Hlang Hkey.
    pose proof (getTranslation_tiers r langCode key Hlang Hkey) as Ht.
    split; [|split].
    + intros s He Hen. by rewrite Ht, He, Hen.
    + intros He Hen. by rewrite Ht, He, Hen.
    + eexists. split; [exact Ht|]. intros Hne.
      destruct (entry langCode key) as [s|] eqn:He;
        [by eapply entry_nonempty|].
      destruct (entry "en" key) as [s|] eqn:Hen;
        [by eapply entry_nonempty | done].
Qed.

Lemma getTranslation_three_tier_fallback_witness :
  getTranslation sampleRealm "de" "theme-toggle" = Ok (VString "Design wechseln")
  ∧ inherited sampleRealm "xx" = None
  ∧ inherited sampleRealm "theme-toggle" = None
  ∧ inherited sampleRealm "contact" = None
  ∧ getTranslation sampleRealm "xx" "theme-toggle" = Ok (VString "Toggle Theme")
  ∧ getTranslation sampleRealm "de" "contact" = Ok (VString "contact").
Proof.
  assert (inherited sampleRealm "xx" = None) as Hxx by (vm_compute; reflexivity).
  assert (inherited sampleRealm "theme-toggle" = None) as Htt
    by (vm_compute; reflexivity).
  assert (inherited sampleRealm "contact" = None) as Hc
    by (vm_compute; reflexivity).
  destruct (getTranslation_three_tier_fallback sampleRealm "de" "theme-toggle")
    as (H1 & _).
  destruct (getTranslation_three_tier_fallback sampleRealm "xx" "theme-toggle")
    as (_ & H2).
  destruct (getTranslation_three_tier_fallback sampleRealm "de" "contact")
    as (_ & H3).
  split; [apply H1; vm_compute; reflexivity|].
  split; [exact Hxx|]. split; [exact Htt|]. split; [exact Hc|].
  split.
  - destruct (H2 (or_intror Hxx) Htt) as (H & _).
    apply H; vm_compute; reflexivity.
  - destruct (H3 (or_introl (ex_intro _ de eq_refl)) Hc) as (_ & H & _).
    apply H; vm_compute; reflexivity.
Defined.

End TranslationLookup.

(** ** Reasoning about computations *)

Section Respects.

Context (R : relation Page) `{!PreOrder R}.

Lemma respects_ret {A} (a : A) : respects R (mret a).
Proof. intros p. simpl. reflexivity. Qed.

Lemma respects_throw {A} e : respects R (throw (A:=A) e).
Proof. intros p. simpl. reflexivity. Qed.

Lemma respects_read {A} (f : Page → A) : respects R (read f).
Proof. intros p. simpl. reflexivity. Qed.

Lemma respects_bind {A B} (m : JS A) (f : A → JS B) :
  respects R m → (∀ a, respects R (f a)) → respects R (m ≫= f).
Proof.
  intros Hm Hf p. specialize (Hm p).
  unfold mbind, JS_bind. destruct (m p) as [a p'|e p']; simpl in *.
  - etrans; [exact Hm | apply Hf].
  - exact Hm.
Qed.

Lemma respects_when b (m : JS unit) : respects R m → respects R (when b m).
Proof. destruct b; [done | intros _; apply respects_ret]. Qed.

Lemma respects_liftResult {A} (r : Result A) : respects R (liftResult r).
Proof. destruct r; [apply respects_ret | apply respects_throw]. Qed.

Lemma respects_attempt (m : JS unit) : respects R m → respects R (attempt m).
Proof. intros Hm p. apply Hm. Qed.

Lemma respects_notify l (h : JS unit) : respects R h → respects R (notify l h).
Proof.
  intros Hh. unfold notify. apply respects_bind; [apply respects_read|].
  intros ls. induction (filter (λ x, x = l) ls) as [|x xs IH]; simpl.
  - apply respects_ret.
  - apply respects_bind; [by apply respects_attempt | intros _; exact IH].
Qed.

End Respects.

Lemma bind_completes {B} (m : JS unit) (f : unit → JS B) p :
  completes m → (m ≫= f) p = f tt (pageOf (m p)).
Proof. intros H. unfold mbind, JS_bind. by rewrite (H p). Qed.

Lemma bind_normal {A B} (m : JS A) (f : A → JS B) p a p' :
  m p = Normal a p' → (m ≫= f) p = f a p'.
Proof. intros H. unfold mbind, JS_bind. by rewrite H. Qed.

#[local] Instance unchanged_preorder {B} (proj : Page → B) :
  PreOrder (unchanged proj).
Proof.
  split; [by intros p | intros p1 p2 p3 H12 H23].
  unfold unchanged in *. congruence.
Qed.

#[local] Instance appending_preorder Q : PreOrder (appending Q).
Proof.
  split.
  - intros p. exists []. by rewrite app_nil_r.
  - intros p1 p2 p3 (es1 & H1 & Q1) (es2 & H2 & Q2).
    exists (es1 ++ es2). rewrite H2, H1, app_assoc.
    split; [done | by apply Forall_app].
Qed.

(** Walk down a method body: binds, branches on what a lookup returned,
    and at the leaves the calls of the browser's interface. *)
Ltac respects_walk leaf :=
  repeat first
    [ progress cbv zeta
    | lazymatch goal with
      | |- respects _ (mret _) => apply respects_ret; apply _
      | |- respects _ (throw _) => apply respects_throw; apply _
      | |- respects _ (read _) => apply respects_read; apply _
      | |- respects _ (liftResult _) => apply respects_liftResult; apply _
      | |- respects _ (mbind _ _) =>
          apply respects_bind; [apply _ | | intros ?]
      | |- respects _ (when true _) => cbv [when]
      | |- respects _ (when false _) => cbv [when]
      | |- respects _ (when _ _) => apply respects_when; [apply _ |]
      | |- respects _ (attempt _) => apply respects_attempt
      | |- respects _ (notify _ _) => apply respects_notify; [apply _ |]
      | |- respects _ (match ?x with _ => _ end) => destruct x
      | |- _ => leaf
      end ].

(** ** Frames: what each method leaves alone *)

Create HintDb frames.

Section Frames.

Lemma themeView_classList p p' :
  unchanged themeView p p' →
  classList (document p') = classList (document p).
Proof. intros H. exact (f_equal (λ v, v.1.2) H). Qed.

Lemma themeView_stored p p' :
  unchanged themeView p p' →
  localStorage p' !! THEME_STORAGE_KEY = localStorage p !! THEME_STORAGE_KEY.
Proof. intros H. exact (f_equal (λ v, v.1.1) H). Qed.

Lemma themeView_reloading p p' :
  unchanged themeView p p' → reloading p' = reloading p.
Proof. intros H. exact (f_equal (λ v, v.2) H). Qed.

Lemma storedView_localStorage p p' :
  unchanged storedView p p' → localStorage p' = localStorage p.
Proof. intros H. exact (f_equal (λ v, v.1) H). Qed.

Lemma storedView_attributes p p' :
  unchanged storedView p p' →
  attributes (document p') = attributes (document p).
Proof. intros H. exact (f_equal (λ v, v.2) H). Qed.

Lemma respects_unchanged_proj {A B C} (f : Page → B) (g : B → C) (m : JS A) :
  respects (unchanged f) m → respects (unchanged (λ p, g (f p))) m.
Proof. intros H p. unfold unchanged. by rewrite (H p). Qed.

Ltac unchanged_leaf :=
  first
    [ solve [auto with frames]
    | cbv [respects unchanged themeView storedView lifeView]; intros ?; simpl;
      first [ reflexivity | by rewrite lookup_insert_ne ] ].

Ltac appending_leaf :=
  first
    [ solve [auto with frames]
    | cbv [respects appending]; intros ?; simpl;
      first
        [ exists []; split; [by rewrite app_nil_r | constructor]
        | eexists [_]; split; [reflexivity | repeat constructor; done] ] ].

(** *** The stored theme and the root's classes *)

Lemma setLanguage_themeView langCode animate :
  respects (unchanged themeView) (setLanguage langCode animate).
Proof. unfold setLanguage. respects_walk ltac:(unchanged_leaf). Qed.

Lemma detectBrowserLanguage_themeView :
  respects (unchanged themeView) detectBrowserLanguage.
Proof. unfold detectBrowserLanguage. respects_walk ltac:(unchanged_leaf). Qed.

Hint Resolve setLanguage_themeView detectBrowserLanguage_themeView : frames.

Lemma initializeLanguage_themeView :
  respects (unchanged themeView) initializeLanguage.
Proof. unfold initializeLanguage. respects_walk ltac:(unchanged_leaf). Qed.

Lemma updateThemeToggleButton_themeView :
  respects (unchanged themeView) updateThemeToggleButton.
Proof.
  unfold updateThemeToggleButton, updateById.
  respects_walk ltac:(unchanged_leaf).
Qed.

Hint Resolve updateThemeToggleButton_themeView : frames.

Lemma setupEventListeners_themeView :
  respects (unchanged themeView) setupEventListeners.
Proof.
  unfold setupEventListeners, updateById.
  respects_walk ltac:(unchanged_leaf).
Qed.

Lemma applyAnimationStyles_themeView :
  respects (unchanged themeView) applyAnimationStyles.
Proof. unfold applyAnimationStyles. respects_walk ltac:(unchanged_leaf). Qed.

Lemma updatePageTranslations_themeView langCode :
  respects (unchanged themeView) (updatePageTranslations langCode).
Proof. unfold updatePageTranslations. respects_walk ltac:(unchanged_leaf). Qed.

(** *** The stored preferences and the root's attributes *)

Lemma detectBrowserLanguage_storedView :
  respects (unchanged storedView) detectBrowserLanguage.
Proof. unfold detectBrowserLanguage. respects_walk ltac:(unchanged_leaf). Qed.

Lemma updateThemeToggleButton_storedView :
  respects (unchanged storedView) updateThemeToggleButton.
Proof.
  unfold updateThemeToggleButton, updateById.
  respects_walk ltac:(unchanged_leaf).
Qed.

Hint Resolve detectBrowserLanguage_storedView
  updateThemeToggleButton_storedView : frames.

Lemma setupEventListeners_storedView :
  respects (unchanged storedView) setupEventListeners.
Proof.
  unfold setupEventListeners, updateById.
  respects_walk ltac:(unchanged_leaf).
Qed.

Lemma applyAnimationStyles_storedView :
  respects (unchanged storedView) applyAnimationStyles.
Proof. unfold applyAnimationStyles. respects_walk ltac:(unchanged_leaf). Qed.

(** *** The log of a load *)

Lemma setTheme_quiet isDark : respects (appending quiet) (setTheme isDark false).
Proof.
  unfold setTheme, updateThemeVariables, dispatchThemeChangeEvent,
    dispatchEvent.
  destruct isDark; respects_walk ltac:(appending_leaf).
Qed.

Lemma setLanguage_quiet langCode animate :
  respects (appending quiet) (setLanguage langCode animate).
Proof. unfold setLanguage. respects_walk ltac:(appending_leaf). Qed.

Lemma detectBrowserLanguage_quiet :
  respects (appending quiet) detectBrowserLanguage.
Proof. unfold detectBrowserLanguage. respects_walk ltac:(appending_leaf). Qed.

Lemma updateThemeToggleButton_quiet :
  respects (appending quiet) updateThemeToggleButton.
Proof.
  unfold updateThemeToggleButton, updateById.
  respects_walk ltac:(appending_leaf).
Qed.

Hint Resolve setTheme_quiet setLanguage_quiet detectBrowserLanguage_quiet
  updateThemeToggleButton_quiet : frames.

Lemma initializeTheme_quiet : respects (appending quiet) initializeTheme.
Proof. unfold initializeTheme. respects_walk ltac:(appending_leaf). Qed.

Lemma initializeLanguage_quiet : respects (appending quiet) initializeLanguage.
Proof. unfold initializeLanguage. respects_walk ltac:(appending_leaf). Qed.

Lemma setupEventListeners_quiet : respects (appending quiet) setupEventListeners.
Proof.
  unfold setupEventListeners, updateById.
  respects_walk ltac:(appending_leaf).
Qed.

Lemma applyAnimationStyles_quiet : respects (appending quiet) applyAnimationStyles.
Proof. unfold applyAnimationStyles. respects_walk ltac:(appending_leaf). Qed.

Hint Resolve initializeTheme_quiet initializeLanguage_quiet
  setupEventListeners_quiet applyAnimationStyles_quiet : frames.

Lemma constructor_quiet : respects (appending quiet) constructor.
Proof. unfold constructor. respects_walk ltac:(appending_leaf). Qed.

(** *** The constructor after [initializeTheme] *)

Hint Resolve initializeLanguage_themeView setupEventListeners_themeView
  applyAnimationStyles_themeView setupEventListeners_storedView
  applyAnimationStyles_storedView : frames.

Lemma afterTheme_themeView : respects (unchanged themeView) afterTheme.
Proof. unfold afterTheme. respects_walk ltac:(unchanged_leaf). Qed.

Lemma afterTheme_quiet : respects (appending quiet) afterTheme.
Proof. unfold afterTheme. respects_walk ltac:(appending_leaf). Qed.

Lemma afterLanguage_themeView : respects (unchanged themeView) afterLanguage.
Proof. unfold afterLanguage. respects_walk ltac:(unchanged_leaf). Qed.

Lemma afterLanguage_storedView : respects (unchanged storedView) afterLanguage.
Proof. unfold afterLanguage. respects_walk ltac:(unchanged_leaf). Qed.

Lemma afterLanguage_quiet : respects (appending quiet) afterLanguage.
Proof. unfold afterLanguage. respects_walk ltac:(appending_leaf). Qed.

(** *** The stored theme over the page's life *)

Lemma setLanguage_lifeView langCode animate :
  respects (unchanged lifeView) (setLanguage langCode animate).
Proof.
  apply (respects_unchanged_proj themeView (λ v, (v.1.1, v.2))).
  apply setLanguage_themeView.
Qed.

Lemma updateThemeToggleButton_lifeView :
  respects (unchanged lifeView) updateThemeToggleButton.
Proof.
  apply (respects_unchanged_proj themeView (λ v, (v.1.1, v.2))).
  apply updateThemeToggleButton_themeView.
Qed.

Lemma updatePageTranslations_lifeView langCode :
  respects (unchanged lifeView) (updatePageTranslations langCode).
Proof.
  apply (respects_unchanged_proj themeView (λ v, (v.1.1, v.2))).
  apply updatePageTranslations_themeView.
Qed.

Hint Resolve updatePageTranslations_lifeView : frames.

Lemma runCallback_lifeView cb : respects (unchanged lifeView) (runCallback cb).
Proof.
  destruct cb; unfold runCallback, dispatchLanguageChangeEvent, dispatchEvent;
    respects_walk ltac:(unchanged_leaf).
Qed.

Lemma updateById_lifeView id f : respects (unchanged lifeView) (updateById id f).
Proof. unfold updateById. respects_walk ltac:(unchanged_leaf). Qed.

Lemma modify_updPrefersDark_lifeView b :
  respects (unchanged lifeView) (modify (updPrefersDark b)).
Proof. respects_walk ltac:(unchanged_leaf). Qed.

Lemma modify_updTimers_lifeView f :
  respects (unchanged lifeView) (modify (updTimers f)).
Proof. respects_walk ltac:(unchanged_leaf). Qed.

End Frames.

(** ** Class token lists *)

Section Tokens.

Lemma elem_of_tokensAdd x c l : x ∈ tokensAdd c l ↔ x = c ∨ x ∈ l.
Proof.
  unfold tokensAdd. case_bool_decide as Hc.
  - split; [by right | intros [->|?]; done].
  - rewrite elem_of_app, list_elem_of_singleton. tauto.
Qed.

Lemma elem_of_tokensRemove x c l : x ∈ tokensRemove c l ↔ x ≠ c ∧ x ∈ l.
Proof. unfold tokensRemove. by rewrite list_elem_of_filter. Qed.

Lemma tokensAdd_idemp c l : tokensAdd c (tokensAdd c l) = tokensAdd c l.
Proof.
  unfold tokensAdd at 1. rewrite bool_decide_eq_true_2; [done|].
  apply elem_of_tokensAdd. by left.
Qed.

Lemma tokensRemove_idemp c l : tokensRemove c (tokensRemove c l) = tokensRemove c l.
Proof. unfold tokensRemove. apply list_filter_filter_l. tauto. Qed.

Lemma NoDup_tokensAdd c l : NoDup l → NoDup (tokensAdd c l).
Proof.
  intros Hl. unfold tokensAdd. case_bool_decide as Hc; [done|].
  apply NoDup_app. split; [done|]. split; [|apply NoDup_singleton].
  intros x Hx ->%list_elem_of_singleton. done.
Qed.

Lemma NoDup_tokensRemove c l : NoDup l → NoDup (tokensRemove c l).
Proof. apply NoDup_filter. Qed.

End Tokens.

(** ** [setTheme] *)

Section SetTheme.

Lemma setTheme_completes isDark animate : completes (setTheme isDark animate).
Proof. intros p. by destruct isDark, animate. Qed.

Lemma setTheme_classList isDark animate p :
  classList (document (pageOf (setTheme isDark animate p))) =
    (if isDark then tokensAdd THEME_CLASS else tokensRemove THEME_CLASS)
      ((if animate then tokensAdd TRANSITION_CLASS else id)
         (classList (document p))).
Proof. by destruct isDark, animate. Qed.

Lemma setTheme_localStorage isDark animate p :
  localStorage (pageOf (setTheme isDark animate p)) =
    <[THEME_STORAGE_KEY := themeName isDark]> (localStorage p).
Proof. by destruct isDark, animate. Qed.

Lemma setTheme_style isDark animate p :
  style (document (pageOf (setTheme isDark animate p))) =
    themeVariables isDark (style (document p)).
Proof. by destruct isDark, animate. Qed.

Lemma setTheme_timers isDark animate p :
  timers (pageOf (setTheme isDark animate p)) =
    timers p ++ (if animate then [(RemoveTransitionClass, 300)] else []).
Proof. destruct isDark, animate; simpl; by rewrite ?app_nil_r. Qed.

Lemma setTheme_reloading isDark animate p :
  reloading (pageOf (setTheme isDark animate p)) = reloading p.
Proof. by destruct isDark, animate. Qed.

Lemma setTheme_elements isDark animate p :
  elements (document (pageOf (setTheme isDark animate p))) =
    elements (document p).
Proof. by destruct isDark, animate. Qed.

Lemma setTheme_dark_class isDark animate p :
  THEME_CLASS ∈ classList (document (pageOf (setTheme isDark animate p)))
  ↔ isDark = true.
Proof.
  rewrite setTheme_classList. destruct isDark.
  - rewrite elem_of_tokensAdd. split; [done | by left].
  - rewrite elem_of_tokensRemove. split; [by intros [? _] | done].
Qed.

Lemma themeVariables_idemp isDark style :
  themeVariables isDark (themeVariables isDark style) =
    themeVariables isDark style.
Proof.
  unfold themeVariables at 1.
  destruct isDark; repeat (rewrite insert_id; [|by simplify_map_eq]); done.
Qed.

(** C4: [setTheme] without animation is idempotent. Calling it a second
    time with the same preference leaves the root's class list, the inline
    custom properties and the storage as the first call left them: the
    seven custom properties keep their values, the storage holds the one
    value for the theme key, and a class list without duplicates stays
    without duplicates. The claim is the case [isDark = true]. *)
Theorem setTheme_idempotent isDark p :
  let p1 := pageOf (setTheme isDark false p) in
  let p2 := pageOf (setTheme isDark false p1) in
  setTheme isDark false p = Normal tt p1
  ∧ setTheme isDark false p1 = Normal tt p2
  ∧ classList (document p2) = classList (document p1)
  ∧ style (document p2) = style (document p1)
  ∧ style (document p1) = themeVariables isDark (style (document p))
  ∧ localStorage p2 = localStorage p1
  ∧ localStorage p2 !! THEME_STORAGE_KEY = Some (themeName isDark)
  ∧ (NoDup (classList (document p)) → NoDup (classList (document p2))).
Proof.
  intros p1 p2. subst p2 p1.
  split; [apply setTheme_completes|].
  split; [apply setTheme_completes|].
  rewrite !setTheme_classList, !setTheme_style, !setTheme_localStorage.
  split; [destruct isDark; simpl;
          [apply tokensAdd_idemp | apply tokensRemove_idemp]|].
  split; [apply themeVariables_idemp|].
  split; [done|].
  split; [by rewrite insert_insert_eq|].
  split; [by rewrite lookup_insert_eq|].
  intros Hnd. destruct isDark; simpl;
    repeat first [apply NoDup_tokensAdd | apply NoDup_tokensRemove]; done.
Qed.

End SetTheme.

(** ** [setLanguage] *)

Section SetLanguage.

Lemma setLanguage_completes langCode animate :
  completes (setLanguage langCode animate).
Proof.
  intros p. unfold setLanguage. by destruct (supported langCode), animate.
Qed.

Lemma setLanguage_attributes langCode animate p :
  attributes (document (pageOf (setLanguage langCode animate p))) =
    <["lang" := resolvedCode langCode]> (attributes (document p)).
Proof.
  unfold setLanguage, resolvedCode. by destruct (supported langCode), animate.
Qed.

Lemma setLanguage_localStorage langCode animate p :
  localStorage (pageOf (setLanguage langCode animate p)) =
    <[LANGUAGE_STORAGE_KEY := resolvedCode langCode]> (localStorage p).
Proof.
  unfold setLanguage, resolvedCode. by destruct (supported langCode), animate.
Qed.

Lemma setLanguage_log_unsupported langCode animate p :
  supported langCode = false →
  log (pageOf (setLanguage langCode animate p)) =
    log p
    ++ [ConsoleWarn ("Language " +:+ quote +:+ langCode +:+ quote
                     +:+ " not supported. Defaulting to English.")]
    ++ (if animate
        then [SetStyle "opacity" "0.7";
              SetStyle "transition" "opacity 0.3s ease-in-out"]
        else [])
    ++ [SetAttribute "lang" "en";
        SetItem LANGUAGE_STORAGE_KEY "en";
        SetTimeout (SwapTranslations "en" animate) 150].
Proof.
  intros Hs. unfold setLanguage. rewrite Hs.
  destruct animate; simpl; by rewrite <- ?app_assoc.
Qed.

(** C3: for every language code [L] outside the supported set and either
    [animate] flag, [setLanguage L animate] completes without an error,
    and what it applies and persists is the default code ['en'], not [L]:
    the root's [lang] attribute and the value under the language storage
    key are ['en']; the only trace of the correction is the console
    warning. *)
Theorem setLanguage_unsupported_defaults L animate p :
  L ∉ SUPPORTED_LANGUAGES →
  let p' := pageOf (setLanguage L animate p) in
  setLanguage L animate p = Normal tt p'
  ∧ attributes (document p') !! "lang" = Some "en"
  ∧ localStorage p' !! LANGUAGE_STORAGE_KEY = Some "en"
  ∧ L ≠ "en"
  ∧ log p' =
      log p
      ++ [ConsoleWarn ("Language " +:+ quote +:+ L +:+ quote
                       +:+ " not supported. Defaulting to English.")]
      ++ (if animate
          then [SetStyle "opacity" "0.7";
                SetStyle "transition" "opacity 0.3s ease-in-out"]
          else [])
      ++ [SetAttribute "lang" "en";
          SetItem LANGUAGE_STORAGE_KEY "en";
          SetTimeout (SwapTranslations "en" animate) 150].
Proof.
  intros HL p'. subst p'.
  assert (supported L = false) as Hs by by apply bool_decide_eq_false_2.
  split; [apply setLanguage_completes|].
  rewrite setLanguage_attributes, setLanguage_localStorage.
  unfold resolvedCode. rewrite Hs.
  split; [apply lookup_insert_eq|].
  split; [apply lookup_insert_eq|].
  split; [intros ->; apply HL; set_solver|].
  by apply setLanguage_log_unsupported.
Qed.

End SetLanguage.

(** ** Initialization *)

Section Initialization.

Lemma initializeTheme_eq p :
  initializeTheme p =
    (setTheme (resolvedDark p) false;;
     addEventListener SystemThemeListener) p.
Proof. reflexivity. Qed.

Lemma initializeTheme_completes : completes initializeTheme.
Proof. intros p. rewrite !initializeTheme_eq. destruct (resolvedDark p); simpl; reflexivity. Qed.

Lemma initializeTheme_classList p :
  classList (document (pageOf (initializeTheme p))) =
    classList (document (pageOf (setTheme (resolvedDark p) false p))).
Proof. rewrite initializeTheme_eq. destruct (resolvedDark p); simpl; reflexivity. Qed.

Lemma initializeTheme_localStorage p :
  localStorage (pageOf (initializeTheme p)) =
    <[THEME_STORAGE_KEY := themeName (resolvedDark p)]> (localStorage p).
Proof. rewrite initializeTheme_eq. destruct (resolvedDark p); simpl; reflexivity. Qed.

Lemma initializeTheme_reloading p :
  reloading (pageOf (initializeTheme p)) = reloading p.
Proof. rewrite initializeTheme_eq. destruct (resolvedDark p); simpl; reflexivity. Qed.

Lemma initializeTheme_timers p :
  timers (pageOf (initializeTheme p)) = timers p.
Proof. rewrite initializeTheme_eq. destruct (resolvedDark p); simpl; reflexivity. Qed.

Lemma initializeTheme_attributes p :
  attributes (document (pageOf (initializeTheme p))) = attributes (document p).
Proof. rewrite initializeTheme_eq. destruct (resolvedDark p); simpl; reflexivity. Qed.

Lemma initializeTheme_environment p :
  language (pageOf (initializeTheme p)) = language p
  ∧ userLanguage (pageOf (initializeTheme p)) = userLanguage p.
Proof. rewrite initializeTheme_eq. destruct (resolvedDark p); simpl; done. Qed.

Lemma initializeTheme_listeners p :
  listeners (pageOf (initializeTheme p)) = listeners p ++ [SystemThemeListener].
Proof. rewrite initializeTheme_eq. destruct (resolvedDark p); simpl; reflexivity. Qed.

Lemma initializeTheme_log p :
  log (pageOf (initializeTheme p)) = log p ++ themeEffects (resolvedDark p).
Proof.
  rewrite initializeTheme_eq.
  destruct (resolvedDark p); simpl; rewrite <- ?app_assoc; reflexivity.
Qed.

Lemma initializeTheme_dark_class p :
  THEME_CLASS ∈ classList (document (pageOf (initializeTheme p)))
  ↔ resolvedDark p = true.
Proof. rewrite initializeTheme_classList. apply setTheme_dark_class. Qed.

Lemma resolvedDark_stored p s :
  localStorage p !! THEME_STORAGE_KEY = Some s → s ≠ "" →
  resolvedDark p = bool_decide (s = "dark").
Proof.
  intros Hs Hne. unfold resolvedDark. rewrite Hs.
  apply truthy_Some in Hne. rewrite Hne.
  apply bool_decide_ext. naive_solver.
Qed.

Lemma resolvedDark_system p :
  truthy (localStorage p !! THEME_STORAGE_KEY) = false →
  resolvedDark p = prefersDark p.
Proof. intros Hf. unfold resolvedDark. by rewrite Hf. Qed.

(** The constructor is [initializeTheme], which always completes, and
    then the rest. *)
Lemma constructor_afterTheme p :
  constructor p = afterTheme (pageOf (initializeTheme p)).
Proof.
  unfold constructor.
  rewrite (bind_completes _ _ _ initializeTheme_completes). reflexivity.
Qed.

Lemma boot_themeView html p0 :
  themeView (pageOf (boot html p0)) =
    themeView (pageOf (initializeTheme (freshPage html p0))).
Proof. unfold boot. rewrite constructor_afterTheme. apply afterTheme_themeView. Qed.

Lemma boot_log html p0 :
  ∃ es, log (pageOf (boot html p0)) =
          themeEffects (resolvedDark (freshPage html p0)) ++ es
        ∧ Forall quiet es.
Proof.
  unfold boot. rewrite constructor_afterTheme.
  destruct (afterTheme_quiet (pageOf (initializeTheme (freshPage html p0))))
    as (es & Hes & Hq).
  exists es. split; [|done]. by rewrite Hes, initializeTheme_log.
Qed.

End Initialization.

(** ** Precedence on initialization *)

Section Precedence.

Lemma initializeLanguage_eq p :
  initializeLanguage p =
    (let savedLanguage := localStorage p !! LANGUAGE_STORAGE_KEY in
     if truthy savedLanguage && supported (default "" savedLanguage) then
       setLanguage (default "" savedLanguage) false
     else
       browserLanguage ← detectBrowserLanguage;
       setLanguage browserLanguage false) p.
Proof. reflexivity. Qed.

Lemma detectBrowserLanguage_eq p :
  detectBrowserLanguage p =
    match browserLocale p with
    | Some locale => Normal (detectedCode locale) p
    | None => Abrupt TypeError p
    end.
Proof.
  unfold detectBrowserLanguage, browserLocale, read, mbind, JS_bind.
  by destruct (if truthy (language p) then language p else userLanguage p).
Qed.

Lemma supported_iff x : supported x = true ↔ x ∈ SUPPORTED_LANGUAGES.
Proof. unfold supported. by rewrite bool_decide_eq_true. Qed.

Lemma supported_nonempty x : supported x = true → x ≠ "".
Proof. intros H ->. vm_compute in H. discriminate H. Qed.

Lemma detectedCode_supported locale : supported (detectedCode locale) = true.
Proof.
  unfold detectedCode.
  destruct (supported (primarySubtag locale)) eqn:Hs; [done|].
  by vm_compute.
Qed.

Lemma resolvedCode_supported x : supported x = true → resolvedCode x = x.
Proof. intros H. unfold resolvedCode. by rewrite H. Qed.

(** A supported stored code is applied as it is. *)
Lemma initializeLanguage_stored p s :
  localStorage p !! LANGUAGE_STORAGE_KEY = Some s → s ∈ SUPPORTED_LANGUAGES →
  initializeLanguage p = setLanguage s false p.
Proof.
  intros Hs Hsup. rewrite initializeLanguage_eq, Hs. cbv zeta.
  change (default "" (Some s)) with s.
  apply supported_iff in Hsup. rewrite Hsup.
  by rewrite (proj2 (truthy_Some s) (supported_nonempty _ Hsup)).
Qed.

(** Without one, the browser's locale decides. *)
Lemma initializeLanguage_detected p locale :
  (∀ s, localStorage p !! LANGUAGE_STORAGE_KEY = Some s →
        s ∉ SUPPORTED_LANGUAGES) →
  browserLocale p = Some locale →
  initializeLanguage p = setLanguage (detectedCode locale) false p.
Proof.
  intros Hs Hloc. rewrite initializeLanguage_eq. cbv zeta.
  assert (truthy (localStorage p !! LANGUAGE_STORAGE_KEY)
          && supported (default "" (localStorage p !! LANGUAGE_STORAGE_KEY))
          = false) as ->.
  { destruct (localStorage p !! LANGUAGE_STORAGE_KEY) as [s|] eqn:E; [|done].
    apply andb_false_intro2. apply bool_decide_eq_false_2. by apply Hs. }
  unfold mbind, JS_bind.
  by rewrite detectBrowserLanguage_eq, Hloc.
Qed.

(** With no usable stored code and no locale reported by the browser,
    [detectBrowserLanguage] throws and nothing is applied. *)
Lemma initializeLanguage_no_locale p :
  (∀ s, localStorage p !! LANGUAGE_STORAGE_KEY = Some s →
        s ∉ SUPPORTED_LANGUAGES) →
  browserLocale p = None →
  initializeLanguage p = Abrupt TypeError p.
Proof.
  intros Hs Hloc. rewrite initializeLanguage_eq. cbv zeta.
  assert (truthy (localStorage p !! LANGUAGE_STORAGE_KEY)
          && supported (default "" (localStorage p !! LANGUAGE_STORAGE_KEY))
          = false) as ->.
  { destruct (localStorage p !! LANGUAGE_STORAGE_KEY) as [s|] eqn:E; [|done].
    apply andb_false_intro2. apply bool_decide_eq_false_2. by apply Hs. }
  unfold mbind, JS_bind.
  by rewrite detectBrowserLanguage_eq, Hloc.
Qed.

(** C1, as stated, fails, on either leg. With the empty string stored
    under the theme key a stored value exists, and yet the theme follows
    the system signal: dark when it says dark, light when not. And with no
    language stored and no locale reported by the browser the default code
    is not chosen: [initializeLanguage] throws, and the page is left
    without a [lang] attribute and without a stored language. *)
Lemma precedence_not_as_stated :
  localStorage (emptyThemeStored true) !! THEME_STORAGE_KEY = Some ""
  ∧ localStorage (emptyThemeStored false) !! THEME_STORAGE_KEY = Some ""
  ∧ classList (document (pageOf (initializeTheme (emptyThemeStored true))))
    = [THEME_CLASS]
  ∧ classList (document (pageOf (initializeTheme (emptyThemeStored false))))
    = []
  ∧ localStorage noLocaleVisit !! LANGUAGE_STORAGE_KEY = None
  ∧ browserLocale noLocaleVisit = None
  ∧ initializeLanguage noLocaleVisit = Abrupt TypeError noLocaleVisit
  ∧ attributes (document noLocaleVisit) !! "lang" = None.
Proof. repeat split; vm_compute; reflexivity. Qed.

(** C1 (amended): on initialization, a non-empty stored theme value
    determines the theme whatever the system signal says (dark exactly
    when it is ['dark']); with no stored value, or with the empty string
    stored, the system signal determines it, so the theme is light when
    there is neither; the stored language is used only if it is in the
    supported set; otherwise, when the browser reports a locale, the
    lower-cased primary subtag of that locale if it is supported, else
    ['en']. In these cases the initializers complete normally and persist
    what they resolved. *)
Theorem initialization_precedence p :
  let pT := pageOf (initializeTheme p) in
  let pL := pageOf (initializeLanguage p) in
  (∀ s, localStorage p !! THEME_STORAGE_KEY = Some s → s ≠ "" →
     initializeTheme p = Normal tt pT
     ∧ (THEME_CLASS ∈ classList (document pT) ↔ s = "dark")
     ∧ localStorage pT !! THEME_STORAGE_KEY =
         Some (themeName (bool_decide (s = "dark"))))
  ∧ (localStorage p !! THEME_STORAGE_KEY = None
     ∨ localStorage p !! THEME_STORAGE_KEY = Some "" →
     initializeTheme p = Normal tt pT
     ∧ (THEME_CLASS ∈ classList (document pT) ↔ prefersDark p = true)
     ∧ localStorage pT !! THEME_STORAGE_KEY =
         Some (themeName (prefersDark p)))
  ∧ (∀ s, localStorage p !! LANGUAGE_STORAGE_KEY = Some s →
          s ∈ SUPPORTED_LANGUAGES →
     initializeLanguage p = Normal tt pL
     ∧ attributes (document pL) !! "lang" = Some s
     ∧ localStorage pL !! LANGUAGE_STORAGE_KEY = Some s)
  ∧ (∀ locale,
       (∀ s, localStorage p !! LANGUAGE_STORAGE_KEY = Some s →
             s ∉ SUPPORTED_LANGUAGES) →
       browserLocale p = Some locale →
     initializeLanguage p = Normal tt pL
     ∧ attributes (document pL) !! "lang" = Some (detectedCode locale)
     ∧ localStorage pL !! LANGUAGE_STORAGE_KEY = Some (detectedCode locale)
     ∧ (primarySubtag locale ∈ SUPPORTED_LANGUAGES →
        detectedCode locale = primarySubtag locale)
     ∧ (primarySubtag locale ∉ SUPPORTED_LANGUAGES →
        detectedCode locale = "en")).
Proof.
  intros pT pL. subst pT pL. repeat apply conj.
  - intros s Hs Hne.
    split; [apply initializeTheme_completes|].
    rewrite initializeTheme_dark_class, initializeTheme_localStorage,
      (resolvedDark_stored _ _ Hs Hne), bool_decide_eq_true.
    split; [done | apply lookup_insert_eq].
  - intros Hs. apply falsy_cases in Hs.
    split; [apply initializeTheme_completes|].
    rewrite initializeTheme_dark_class, initializeTheme_localStorage,
      (resolvedDark_system _ Hs).
    split; [done | apply lookup_insert_eq].
  - intros s Hs Hsup. rewrite (initializeLanguage_stored _ _ Hs Hsup).
    split; [apply setLanguage_completes|].
    rewrite setLanguage_attributes, setLanguage_localStorage,
      resolvedCode_supported by by apply supported_iff.
    split; apply lookup_insert_eq.
  - intros locale Hs Hloc. rewrite (initializeLanguage_detected _ _ Hs Hloc).
    split; [apply setLanguage_completes|].
    rewrite setLanguage_attributes, setLanguage_localStorage,
      resolvedCode_supported by apply detectedCode_supported.
    split; [apply lookup_insert_eq|]. split; [apply lookup_insert_eq|].
    unfold detectedCode. split.
    + intros H%supported_iff. by rewrite H.
    + intros H. unfold supported. by rewrite (bool_decide_eq_false_2 _ H).
Qed.

End Precedence.

(** ** The first load with no stored theme *)

Section InitialLoad.

Lemma boot_resolves_system html p0 :
  localStorage p0 !! THEME_STORAGE_KEY = None →
  resolvedDark (freshPage html p0) = prefersDark p0.
Proof.
  intros Hs. rewrite resolvedDark_system; [done|].
  simpl. by rewrite Hs.
Qed.

Lemma themeEffects_quiet isDark : Forall quiet (themeEffects isDark).
Proof. destruct isDark; repeat constructor; done. Qed.

Lemma themeEffects_dispatch isDark :
  DispatchEvent (ThemeChange isDark (themeName isDark)) ∈ themeEffects isDark.
Proof.
  unfold themeEffects. do 2 apply list_elem_of_further.
  apply elem_of_app. right. apply list_elem_of_here.
Qed.

(** C5: with no theme preference stored and the system reporting dark,
    the initial load applies the dark theme (the dark-mode class is on the
    root), persists ['dark'] under the theme storage key, dispatches the
    theme-change event with payload [{isDark: true, theme: "dark"}], and
    at no point of the load adds the transition class to the root. *)
Theorem initial_load_dark html p0 :
  localStorage p0 !! THEME_STORAGE_KEY = None →
  prefersDark p0 = true →
  let p := pageOf (boot html p0) in
  THEME_CLASS ∈ classList (document p)
  ∧ classList (document p) = tokensAdd THEME_CLASS (classList html)
  ∧ localStorage p !! THEME_STORAGE_KEY = Some "dark"
  ∧ (DispatchEvent (ThemeChange true "dark") ∈ log p)
  ∧ (ClassAdd TRANSITION_CLASS ∉ log p)
  ∧ (∃ es, log p = themeEffects true ++ es ∧ Forall quiet es).
Proof.
  intros Hs Hdark p. subst p.
  pose proof (boot_themeView html p0) as Hview.
  pose proof (boot_log html p0) as (es & Hlog & Hquiet).
  pose proof (boot_resolves_system html _ Hs) as Hres.
  rewrite Hdark in Hres. rewrite Hres in Hlog.
  unfold themeView in Hview. injection Hview as Hst Hcl _.
  rewrite initializeTheme_localStorage, Hres, lookup_insert_eq in Hst.
  rewrite initializeTheme_classList, Hres, setTheme_classList in Hcl.
  simpl in Hcl.
  split; [rewrite Hcl; apply elem_of_tokensAdd; by left|].
  split; [done|]. split; [done|].
  split.
  { rewrite Hlog. apply elem_of_app. left. apply (themeEffects_dispatch true). }
  split; [|by exists es].
  rewrite Hlog. intros Hin.
  assert (Forall quiet (themeEffects true ++ es)) as Hall
    by (apply Forall_app; split; [apply themeEffects_quiet | done]).
  by apply (proj1 (Forall_forall _ _) Hall _ Hin).
Qed.

End InitialLoad.

(** ** The system preference's change signal *)

Section SystemSignal.

Lemma onSystemThemeChange_eq matches p :
  onSystemThemeChange matches p =
    when (negb (truthy (localStorage p !! THEME_STORAGE_KEY)))
         (setTheme matches true) p.
Proof. reflexivity. Qed.

Lemma setTheme_log_grows isDark animate p :
  length (log p) < length (log (pageOf (setTheme isDark animate p))).
Proof. destruct isDark, animate; simpl; rewrite !length_app; simpl; lia. Qed.

Lemma setTheme_acts isDark animate p : setTheme isDark animate p ≠ Normal tt p.
Proof.
  intros H. pose proof (setTheme_log_grows isDark animate p) as Hlt.
  rewrite H in Hlt. simpl in Hlt. lia.
Qed.

Lemma onSystemThemeChange_completes matches :
  completes (onSystemThemeChange matches).
Proof.
  intros p. rewrite !onSystemThemeChange_eq.
  destruct (truthy (localStorage p !! THEME_STORAGE_KEY)); simpl;
    [reflexivity | apply setTheme_completes].
Qed.

(** Once the handler has run, its guard does not hold: a second run does
    nothing. *)
Lemma onSystemThemeChange_settles matches p :
  onSystemThemeChange matches (pageOf (onSystemThemeChange matches p)) =
    Normal tt (pageOf (onSystemThemeChange matches p)).
Proof.
  rewrite (onSystemThemeChange_eq matches p).
  destruct (truthy (localStorage p !! THEME_STORAGE_KEY)) eqn:Ht; simpl.
  - by rewrite onSystemThemeChange_eq, Ht.
  - rewrite onSystemThemeChange_eq, setTheme_localStorage, lookup_insert_eq.
    by destruct matches.
Qed.

Lemma foldr_attempt_noop {A} (h : JS unit) (xs : list A) p :
  h p = Normal tt p →
  foldr (λ _ rest, attempt h;; rest) (mret tt) xs p = Normal tt p.
Proof.
  intros Hh. induction xs as [|x xs IH]; [reflexivity|].
  cbn [foldr]. unfold mbind at 1, JS_bind at 1, attempt at 1.
  rewrite Hh. exact IH.
Qed.

(** A handler whose second run does nothing has, however often it is
    registered, the effect of one run. *)
Lemma notify_once l (h : JS unit) p :
  l ∈ listeners p →
  h (pageOf (h p)) = Normal tt (pageOf (h p)) →
  notify l h p = Normal tt (pageOf (h p)).
Proof.
  intros Hl Hh. unfold notify, read. unfold mbind at 1, JS_bind at 1.
  destruct (filter (λ x, x = l) (listeners p)) as [|x xs] eqn:Hf.
  - assert (l ∈ filter (λ x, x = l) (listeners p)) as Hin
      by by apply list_elem_of_filter.
    rewrite Hf in Hin. by apply elem_of_nil in Hin.
  - cbn [foldr]. unfold mbind at 1, JS_bind at 1, attempt at 1.
    by apply foldr_attempt_noop.
Qed.

(** The signal firing on a page where the listener is registered is one run
    of the handler, on the page with the new system preference. *)
Lemma handle_SystemThemeChange html matches p :
  SystemThemeListener ∈ listeners p →
  handle html (SystemThemeChange matches) p =
    pageOf (onSystemThemeChange matches (updPrefersDark matches p)).
Proof.
  intros Hl. unfold handle, dispatch.
  rewrite (bind_normal _ _ _ tt (updPrefersDark matches p)) by reflexivity.
  rewrite notify_once; [done | done | apply onSystemThemeChange_settles].
Qed.

(** C7, as stated, fails: with the empty string stored under the theme key
    a value is stored at that moment, and the signal still changes the
    theme. *)
Lemma stored_empty_theme_signal_applies :
  localStorage (emptyThemeStored false) !! THEME_STORAGE_KEY = Some ""
  ∧ classList (document (emptyThemeStored false)) = []
  ∧ classList (document
      (pageOf (onSystemThemeChange true (emptyThemeStored false))))
    = [TRANSITION_CLASS; THEME_CLASS]
  ∧ localStorage (pageOf (onSystemThemeChange true (emptyThemeStored false)))
      !! THEME_STORAGE_KEY = Some "dark".
Proof. repeat split; vm_compute; reflexivity. Qed.

(** C7 (amended): when the system preference's change signal fires, the
    handler re-applies the theme, with animation, if and only if the value
    read under the theme storage key at that moment is absent or the empty
    string; if a non-empty value is stored, the signal changes nothing. On
    a page where the listener is registered, the signal firing is one run of
    that handler. *)
Theorem onSystemThemeChange_guard matches p :
  let stored := localStorage p !! THEME_STORAGE_KEY in
  (∀ html, SystemThemeListener ∈ listeners p →
     handle html (SystemThemeChange matches) p =
       pageOf (onSystemThemeChange matches (updPrefersDark matches p)))
  ∧ (onSystemThemeChange matches p = setTheme matches true p
   ↔ stored = None ∨ stored = Some "")
  ∧ (∀ s, stored = Some s → s ≠ "" →
       onSystemThemeChange matches p = Normal tt p)
  ∧ (stored = None ∨ stored = Some "" →
     let p' := pageOf (onSystemThemeChange matches p) in
     (THEME_CLASS ∈ classList (document p') ↔ matches = true)
     ∧ TRANSITION_CLASS ∈ classList (document p')
     ∧ timers p' = timers p ++ [(RemoveTransitionClass, 300)]).
Proof.
  intros stored. subst stored.
  split; [intros html; apply handle_SystemThemeChange|].
  rewrite onSystemThemeChange_eq.
  destruct (truthy (localStorage p !! THEME_STORAGE_KEY)) eqn:Ht; simpl.
  - assert (¬ (localStorage p !! THEME_STORAGE_KEY = None
               ∨ localStorage p !! THEME_STORAGE_KEY = Some "")) as Hno.
    { intros H%falsy_cases. congruence. }
    split; [split; [intros H; symmetry in H; by apply setTheme_acts in H
                   | done]|].
    split; [done | intros H; by destruct Hno].
  - split; [split; [intros _; by apply falsy_cases | done]|].
    split.
    + intros s Hs Hne. rewrite Hs in Ht. apply truthy_Some_false in Ht. done.
    + intros _. rewrite setTheme_dark_class, setTheme_classList, setTheme_timers.
      split; [done|]. split; [|done].
      destruct matches; simpl.
      * apply elem_of_tokensAdd. right. apply elem_of_tokensAdd. by left.
      * apply elem_of_tokensRemove. split; [done|].
        apply elem_of_tokensAdd. by left.
Qed.

End SystemSignal.

(** ** Elements looked up by id *)

Section Elements.

Lemma find_updateFirst sel f l :
  (∀ e, sel (f e) = sel e) →
  find sel (updateFirst sel f l) = f <$> find sel l.
Proof.
  intros Hsel. induction l as [|e l IH]; simpl; [done|].
  destruct (sel e) eqn:He; simpl.
  - by rewrite Hsel, He.
  - by rewrite He.
Qed.

Lemma hasId_updAttrs id name v e :
  name ≠ "id" → hasId id (updAttrs (insert name v) e) = hasId id e.
Proof. intros Hne. unfold hasId. simpl. by rewrite lookup_insert_ne. Qed.

Lemma hasId_updContent id c e : hasId id (updContent c e) = hasId id e.
Proof. reflexivity. Qed.

End Elements.

(** ** [toggleTheme] *)

Section Toggle.

Lemma updateThemeToggleButton_completes : completes updateThemeToggleButton.
Proof.
  intros p. unfold updateThemeToggleButton, getElementById, read, mbind, JS_bind.
  destruct (find _ _); simpl; [|done].
  reflexivity.
Qed.

Lemma updateThemeToggleButton_timers p :
  timers (pageOf (updateThemeToggleButton p)) = timers p.
Proof.
  unfold updateThemeToggleButton, getElementById, read, mbind, JS_bind.
  destruct (find _ _); simpl; [|done].
  reflexivity.
Qed.

Lemma updateThemeToggleButton_style p :
  style (document (pageOf (updateThemeToggleButton p))) = style (document p).
Proof.
  unfold updateThemeToggleButton, getElementById, read, mbind, JS_bind.
  destruct (find _ _); simpl; [|done].
  reflexivity.
Qed.

(** [setTheme] dispatches the [themeChange] event of the theme it
    applies. *)
Lemma setTheme_dispatches isDark animate p :
  ∃ es, log (pageOf (setTheme isDark animate p)) = log p ++ es
        ∧ DispatchEvent (ThemeChange isDark (themeName isDark)) ∈ es.
Proof.
  destruct isDark, animate; simpl; rewrite <- ?app_assoc;
    (eexists; split; [reflexivity|]); simpl;
    repeat first [apply list_elem_of_here | apply list_elem_of_further].
Qed.

Lemma updateThemeToggleButton_elements p btn :
  find (hasId "theme-toggle") (elements (document p)) = Some btn →
  elements (document (pageOf (updateThemeToggleButton p))) =
    updateFirst (hasId "theme-toggle") (updContent (toggleIcon (appliedDark p)))
      (updateFirst (hasId "theme-toggle")
         (updAttrs (insert "aria-label" (toggleLabel (appliedDark p))))
         (elements (document p))).
Proof.
  intros Hbtn.
  unfold updateThemeToggleButton, getElementById, read, mbind, JS_bind.
  rewrite Hbtn. unfold appliedDark. simpl.
  reflexivity.
Qed.

(** With the button on the page, [updateThemeToggleButton] makes it show
    the theme the root element currently has. *)
Lemma updateThemeToggleButton_shows p btn :
  find (hasId "theme-toggle") (elements (document p)) = Some btn →
  ∃ btn',
    find (hasId "theme-toggle")
         (elements (document (pageOf (updateThemeToggleButton p)))) = Some btn'
    ∧ attrs btn' !! "aria-label" = Some (toggleLabel (appliedDark p))
    ∧ content btn' = toggleIcon (appliedDark p).
Proof.
  intros Hbtn. rewrite (updateThemeToggleButton_elements _ _ Hbtn).
  rewrite find_updateFirst by apply hasId_updContent.
  rewrite find_updateFirst by (intros e; by apply hasId_updAttrs).
  rewrite Hbtn. simpl. eexists. split; [done|].
  split; [apply lookup_insert_eq | done].
Qed.

Lemma toggleTheme_eq p :
  toggleTheme p =
    updateThemeToggleButton (pageOf (setTheme (negb (appliedDark p)) true p)).
Proof.
  change (toggleTheme p) with
    ((setTheme (negb (appliedDark p)) true;; updateThemeToggleButton) p).
  by rewrite (bind_completes _ _ _ (setTheme_completes _ _)).
Qed.

Lemma appliedDark_setTheme isDark animate p :
  appliedDark (pageOf (setTheme isDark animate p)) = isDark.
Proof.
  unfold appliedDark. destruct isDark.
  - apply bool_decide_eq_true_2. by apply setTheme_dark_class.
  - apply bool_decide_eq_false_2. by rewrite setTheme_dark_class.
Qed.

(** C6: [toggleTheme] reads the applied theme from the root element's
    class list, whatever the storage holds, and applies its inverse with
    animation: the dark class is inverted, the new theme stored, the
    seven custom properties set to the new theme's values, the
    [themeChange] event of the new theme dispatched, the transition class
    set and its removal scheduled after 300 ms; then the toggle control,
    when the page has one, shows the new state: aria-label ['Switch to
    light theme'] and the sun when dark, ['Switch to dark theme'] and the
    moon when light. *)
Theorem toggleTheme_inverts_applied p :
  let wasDark := bool_decide (THEME_CLASS ∈ classList (document p)) in
  let p' := pageOf (toggleTheme p) in
  toggleTheme p = Normal tt p'
  ∧ (THEME_CLASS ∈ classList (document p')
     ↔ THEME_CLASS ∉ classList (document p))
  ∧ localStorage p' !! THEME_STORAGE_KEY = Some (themeName (negb wasDark))
  ∧ TRANSITION_CLASS ∈ classList (document p')
  ∧ timers p' = timers p ++ [(RemoveTransitionClass, 300)]
  ∧ style (document p') = themeVariables (negb wasDark) (style (document p))
  ∧ (∃ es, log p' = log p ++ es
           ∧ DispatchEvent
               (ThemeChange (negb wasDark)
                  (if wasDark then "light" else "dark")) ∈ es)
  ∧ (∀ btn,
       find (hasId "theme-toggle") (elements (document p)) = Some btn →
       ∃ btn',
         find (hasId "theme-toggle") (elements (document p')) = Some btn'
         ∧ attrs btn' !! "aria-label" =
             Some (if wasDark then "Switch to dark theme"
                   else "Switch to light theme")
         ∧ content btn' = (if wasDark then moonIcon else sunIcon)).
Proof.
  intros wasDark p'. subst p'. fold (appliedDark p) in wasDark. subst wasDark.
  rewrite toggleTheme_eq.
  set (q := pageOf (setTheme (negb (appliedDark p)) true p)).
  pose proof (updateThemeToggleButton_themeView q) as Hview.
  unfold unchanged, themeView in Hview. injection Hview as Hst Hcl _.
  destruct (updateThemeToggleButton_quiet q) as (es2 & Hlog2 & _).
  split; [apply updateThemeToggleButton_completes|].
  rewrite Hst, Hcl, updateThemeToggleButton_timers,
    updateThemeToggleButton_style, Hlog2. subst q.
  destruct (setTheme_dispatches (negb (appliedDark p)) true p)
    as (es1 & Hlog1 & Hev).
  rewrite setTheme_dark_class, setTheme_localStorage, setTheme_timers,
    lookup_insert_eq, setTheme_classList, setTheme_style, Hlog1.
  split.
  { unfold appliedDark. case_bool_decide; simpl; naive_solver. }
  split; [done|].
  split.
  { destruct (negb (appliedDark p)).
    - apply elem_of_tokensAdd. right. apply elem_of_tokensAdd. by left.
    - apply elem_of_tokensRemove. split; [done|].
      apply elem_of_tokensAdd. by left. }
  split; [done|].
  split; [done|].
  split.
  { exists (es1 ++ es2). split; [by rewrite app_assoc|].
    apply elem_of_app. left.
    replace (if appliedDark p then "light" else "dark")
      with (themeName (negb (appliedDark p))) by (by destruct (appliedDark p)).
    exact Hev. }
  intros btn Hbtn.
  assert (find (hasId "theme-toggle")
            (elements (document
               (pageOf (setTheme (negb (appliedDark p)) true p)))) = Some btn)
    as Hbtn' by by rewrite setTheme_elements.
  destruct (updateThemeToggleButton_shows _ _ Hbtn') as (btn' & Hf & Ha & Hc).
  rewrite appliedDark_setTheme in Ha, Hc.
  exists btn'. split; [done|].
  unfold toggleLabel in Ha. unfold toggleIcon in Hc.
  by destruct (appliedDark p).
Qed.

End Toggle.

(** ** Reset and reload *)

Section Reset.

Lemma detectedCode_fr_CA : detectedCode "fr-CA" = "fr".
Proof. vm_compute. reflexivity. Qed.

(** C8: [resetToSystemPreferences] removes the two stored preference
    keys, and nothing else from the storage, and asks for a reload; the
    reload re-initializes, and with the system reporting dark and the
    browser locale ["fr-CA"] the page ends with the dark theme and language
    ["fr"] (the lower-cased primary subtag, which is in the supported set),
    ['dark'] and ['fr'] both written to the storage by that load. *)
Theorem reset_round_trip html p :
  prefersDark p = true →
  language p = Some "fr-CA" →
  let p1 := pageOf (resetToSystemPreferences p) in
  let p2 := handle html Navigate p1 in
  resetToSystemPreferences p = Normal tt p1
  ∧ localStorage p1 =
      delete LANGUAGE_STORAGE_KEY (delete THEME_STORAGE_KEY (localStorage p))
  ∧ log p1 =
      log p ++ [RemoveItem THEME_STORAGE_KEY; RemoveItem LANGUAGE_STORAGE_KEY;
                LocationReload]
  ∧ reloading p1 = true
  ∧ THEME_CLASS ∈ classList (document p2)
  ∧ attributes (document p2) !! "lang" = Some "fr"
  ∧ localStorage p2 =
      <[LANGUAGE_STORAGE_KEY := "fr"]>
        (<[THEME_STORAGE_KEY := "dark"]>
           (delete LANGUAGE_STORAGE_KEY
              (delete THEME_STORAGE_KEY (localStorage p))))
  ∧ localStorage p2 !! THEME_STORAGE_KEY = Some "dark"
  ∧ localStorage p2 !! LANGUAGE_STORAGE_KEY = Some "fr"
  ∧ (SetItem THEME_STORAGE_KEY "dark" ∈ log p2)
  ∧ (SetItem LANGUAGE_STORAGE_KEY "fr" ∈ log p2).
Proof.
  intros Hdark Hlang p1 p2.
  assert (resetToSystemPreferences p = Normal tt p1) as Hreset by reflexivity.
  assert (localStorage p1 =
            delete LANGUAGE_STORAGE_KEY
              (delete THEME_STORAGE_KEY (localStorage p))) as Hls1
    by reflexivity.
  assert (reloading p1 = true) as Hrl by reflexivity.
  split; [done|]. split; [done|].
  split; [simpl; by rewrite <- !app_assoc|]. split; [done|].
  (* the reload *)
  assert (p2 = pageOf (boot html p1)) as ->.
  { subst p2. unfold handle. by rewrite Hrl. }
  set (fp := freshPage html p1).
  set (pT := pageOf (initializeTheme fp)).
  set (pL := pageOf (setLanguage "fr" false pT)).
  assert (localStorage fp = localStorage p1) as Hfp by reflexivity.
  assert (resolvedDark fp = true) as Hres.
  { rewrite resolvedDark_system; [exact Hdark|].
    rewrite Hfp, Hls1, lookup_delete_ne, lookup_delete_eq; done. }
  assert (localStorage pT =
            <[THEME_STORAGE_KEY := "dark"]> (localStorage p1)) as HlsT.
  { subst pT. by rewrite initializeTheme_localStorage, Hres, Hfp. }
  assert (initializeLanguage pT = Normal tt pL) as HinitL.
  { rewrite (initializeLanguage_detected pT "fr-CA").
    - rewrite detectedCode_fr_CA. apply setLanguage_completes.
    - intros s. rewrite HlsT, Hls1, lookup_insert_ne, lookup_delete_eq; done.
    - unfold browserLocale, pT.
      destruct (initializeTheme_environment fp) as [-> ->].
      change (language fp) with (language p). by rewrite Hlang. }
  assert (boot html p1 = afterLanguage pL) as Hboot.
  { unfold boot. fold fp. rewrite constructor_afterTheme. fold pT.
    unfold afterTheme. by rewrite (bind_normal _ _ _ _ _ HinitL). }
  rewrite Hboot.
  pose proof (afterLanguage_quiet pL) as (es & Hlog & _).
  rewrite (themeView_classList _ _ (afterLanguage_themeView pL)),
    (storedView_attributes _ _ (afterLanguage_storedView pL)),
    (storedView_localStorage _ _ (afterLanguage_storedView pL)), Hlog.
  subst pL.
  rewrite (themeView_classList _ _ (setLanguage_themeView "fr" false pT)),
    setLanguage_attributes, setLanguage_localStorage, HlsT, Hls1.
  change (resolvedCode "fr") with "fr".
  split.
  { subst pT. apply initializeTheme_dark_class. exact Hres. }
  split; [apply lookup_insert_eq|].
  split; [done|].
  split; [by rewrite lookup_insert_ne, lookup_insert_eq|].
  split; [apply lookup_insert_eq|].
  assert (log (pageOf (setLanguage "fr" false pT)) =
            themeEffects true
            ++ [SetAttribute "lang" "fr"; SetItem LANGUAGE_STORAGE_KEY "fr";
                SetTimeout (SwapTranslations "fr" false) 150]) as ->.
  { transitivity (log pT ++
                   [SetAttribute "lang" "fr"; SetItem LANGUAGE_STORAGE_KEY "fr";
                    SetTimeout (SwapTranslations "fr" false) 150]).
    - simpl. by rewrite <- !app_assoc.
    - subst pT. by rewrite initializeTheme_log, Hres. }
  split; apply elem_of_app; left; apply elem_of_app.
  - left. apply list_elem_of_further, list_elem_of_here.
  - right. apply list_elem_of_further, list_elem_of_here.
Qed.

End Reset.

(** ** The stored theme over the page's life *)

Section Lifetime.

#[local] Instance keepsSettled_preorder : PreOrder keepsSettled.
Proof.
  split; [intros p Hp; exact Hp | intros p1 p2 p3 H12 H23 H1].
  apply H23, H12, H1.
Qed.

Lemma respects_mono {A} (R1 R2 : relation Page) (m : JS A) :
  (∀ p p', R1 p p' → R2 p p') → respects R1 m → respects R2 m.
Proof. intros Hsub Hm p. apply Hsub, Hm. Qed.

Lemma lifeView_keepsSettled p p' : unchanged lifeView p p' → keepsSettled p p'.
Proof.
  intros H Hp Hrl. unfold unchanged, lifeView in H.
  injection H as Hst Hrl'. unfold themePersisted. rewrite Hst.
  apply Hp. congruence.
Qed.

Lemma themePersisted_truthy p :
  themePersisted p → truthy (localStorage p !! THEME_STORAGE_KEY) = true.
Proof. by intros [-> | ->]. Qed.

Lemma setTheme_persists isDark animate p :
  themePersisted (pageOf (setTheme isDark animate p)).
Proof.
  unfold themePersisted.
  rewrite setTheme_localStorage, lookup_insert_eq.
  destruct isDark; [by left | by right].
Qed.

Lemma setTheme_keepsSettled isDark animate :
  respects keepsSettled (setTheme isDark animate).
Proof. intros p _ _. apply setTheme_persists. Qed.

Lemma resetToSystemPreferences_keepsSettled :
  respects keepsSettled resetToSystemPreferences.
Proof. intros p _ Hrl. simpl in Hrl. discriminate Hrl. Qed.

Ltac settled_leaf :=
  first
    [ apply setTheme_keepsSettled
    | apply resetToSystemPreferences_keepsSettled
    | apply (respects_mono (unchanged lifeView));
      [ exact lifeView_keepsSettled
      | first [ apply setLanguage_lifeView
              | apply updateThemeToggleButton_lifeView
              | apply runCallback_lifeView
              | apply updateById_lifeView
              | apply modify_updPrefersDark_lifeView
              | apply modify_updTimers_lifeView ] ] ].

Lemma dispatch_keepsSettled i : respects keepsSettled (dispatch i).
Proof.
  destruct i; unfold dispatch, fireTimer, toggleTheme, onSystemThemeChange,
    getItem, classListContains;
    respects_walk ltac:(settled_leaf).
Qed.

Lemma boot_persisted html p0 :
  localStorage (pageOf (boot html p0)) !! THEME_STORAGE_KEY =
    Some (themeName (resolvedDark (freshPage html p0))).
Proof.
  unfold boot. rewrite constructor_afterTheme.
  rewrite (themeView_stored _ _ (afterTheme_themeView _)).
  by rewrite initializeTheme_localStorage, lookup_insert_eq.
Qed.

Lemma boot_settled html p0 : settled (pageOf (boot html p0)).
Proof.
  intros _. unfold themePersisted. rewrite boot_persisted.
  destruct (resolvedDark _); [by left | by right].
Qed.

Lemma reachable_settled html p : reachable html p → settled p.
Proof.
  induction 1 as [p0 | p i Hp IH].
  - apply boot_settled.
  - destruct i; try exact (dispatch_keepsSettled _ p IH).
    unfold handle. destruct (reloading p) eqn:Hrl; [apply boot_settled | done].
Qed.

Lemma notify_noop l (h : JS unit) p :
  h p = Normal tt p → notify l h p = Normal tt p.
Proof.
  intros Hh. unfold notify, read. unfold mbind at 1, JS_bind at 1.
  by apply foldr_attempt_noop.
Qed.

Lemma onSystemThemeChange_persisted matches p :
  themePersisted p → onSystemThemeChange matches p = Normal tt p.
Proof.
  intros Hp. rewrite onSystemThemeChange_eq.
  by rewrite (themePersisted_truthy _ Hp).
Qed.

#[local] Instance keepsListeners_preorder : PreOrder keepsListeners.
Proof.
  split; [intros p l Hl; exact Hl | intros p1 p2 p3 H12 H23 l Hl].
  apply H23, H12, Hl.
Qed.

Ltac listening_leaf :=
  cbv [respects keepsListeners]; intros ?; simpl; intros ? ?;
  first [ assumption | apply elem_of_app; left; assumption ].

Lemma updatePageTranslations_keepsListeners langCode :
  respects keepsListeners (updatePageTranslations langCode).
Proof. unfold updatePageTranslations. respects_walk ltac:(listening_leaf). Qed.

Lemma dispatch_keepsListeners i : respects keepsListeners (dispatch i).
Proof.
  pose proof updatePageTranslations_keepsListeners as Hupd.
  destruct i;
    unfold dispatch, fireTimer, toggleTheme, onSystemThemeChange, runCallback,
      setTheme, setLanguage, resetToSystemPreferences, updateThemeToggleButton,
      updateThemeVariables, dispatchThemeChangeEvent,
      dispatchLanguageChangeEvent, dispatchEvent, updateById, getItem,
      classListContains, getElementById;
    respects_walk ltac:(first [apply Hupd | listening_leaf]).
Qed.

Lemma afterTheme_keepsListeners : respects keepsListeners afterTheme.
Proof.
  unfold afterTheme, initializeLanguage, setupEventListeners,
    applyAnimationStyles, detectBrowserLanguage, setLanguage,
    updateThemeToggleButton, updateById, getItem, classListContains,
    getElementById.
  respects_walk ltac:(listening_leaf).
Qed.

Lemma boot_listening html p0 :
  SystemThemeListener ∈ listeners (pageOf (boot html p0)).
Proof.
  unfold boot. rewrite constructor_afterTheme.
  apply afterTheme_keepsListeners.
  rewrite initializeTheme_listeners. apply elem_of_app. right.
  apply list_elem_of_here.
Qed.

(** The listener for the system preference stays registered for the life
    of the page. *)
Lemma reachable_listening html p :
  reachable html p → SystemThemeListener ∈ listeners p.
Proof.
  induction 1 as [p0 | p i Hp IH].
  - apply boot_listening.
  - destruct i; try exact (dispatch_keepsListeners _ p _ IH).
    unfold handle. destruct (reloading p); [apply boot_listening | done].
Qed.

(** C9, as stated, fails: the storage is also cleared by the class
    itself. After [resetToSystemPreferences], and until the reload it
    asked for takes place, no theme is stored on a page of the visit; the
    guard of the listener holds, and a change of the system preference to
    dark puts the dark class on the root, which did not have it, and
    stores ['dark']. *)
Lemma reset_pending_signal_applies :
  reachable sampleDocument resetVisit
  ∧ reloading resetVisit = true
  ∧ localStorage resetVisit !! THEME_STORAGE_KEY = None
  ∧ classList (document resetVisit) = ["no-js"]
  ∧ classList (document
      (handle sampleDocument (SystemThemeChange true) resetVisit))
    = ["no-js"; TRANSITION_CLASS; THEME_CLASS]
  ∧ localStorage (handle sampleDocument (SystemThemeChange true) resetVisit)
      !! THEME_STORAGE_KEY = Some "dark".
Proof.
  split; [apply reachable_step, reachable_boot|].
  repeat split; vm_compute; reflexivity.
Qed.

(** C9 (amended): initialization itself persists the theme it resolved,
    ['dark'] or ['light'], also on the non-animated first load; so on
    every page reachable from a load, as long as no reset is waiting for
    its reload, a theme value is stored, the guard of the
    system-preference listener is not satisfied, and a change of the
    system preference leaves the document, the storage and the log as
    they are. *)
Theorem theme_persisted_from_load html p :
  reachable html p →
  reloading p = false →
  (∀ p0, localStorage (pageOf (boot html p0)) !! THEME_STORAGE_KEY =
           Some (themeName (resolvedDark (freshPage html p0))))
  ∧ (localStorage p !! THEME_STORAGE_KEY = Some "dark"
     ∨ localStorage p !! THEME_STORAGE_KEY = Some "light")
  ∧ SystemThemeListener ∈ listeners p
  ∧ (∀ matches, onSystemThemeChange matches p = Normal tt p)
  ∧ (∀ matches,
       handle html (SystemThemeChange matches) p = updPrefersDark matches p)
  ∧ (∀ matches,
       let p' := handle html (SystemThemeChange matches) p in
       document p' = document p
       ∧ localStorage p' = localStorage p
       ∧ log p' = log p).
Proof.
  intros Hreach Hrl.
  pose proof (reachable_settled _ _ Hreach Hrl) as Hp.
  assert (∀ matches,
            handle html (SystemThemeChange matches) p = updPrefersDark matches p)
    as Hhandle.
  { intros matches. unfold handle, dispatch.
    rewrite (bind_normal _ _ _ tt (updPrefersDark matches p)) by reflexivity.
    rewrite notify_noop; [done|].
    by apply onSystemThemeChange_persisted. }
  split; [apply boot_persisted|]. split; [exact Hp|].
  split; [by eapply reachable_listening|].
  split; [intros matches; by apply onSystemThemeChange_persisted|].
  split; [exact Hhandle|].
  intros matches p'. subst p'. by rewrite Hhandle.
Qed.

End Lifetime.

(** ** The hero-image toggler *)

Section Hero.

Import HeroToggle.

Lemma load_ticking p :
  is_Some (find (hasId "themeToggle") (elements (document p))) →
  (load p).2 = None ∧ ticking 0 (load p).1.
Proof.
  intros Hbtn. unfold load.
  rewrite (bool_decide_eq_true_2 _ Hbtn). by repeat split.
Qed.

Lemma load_pictured p :
  is_Some (find (hasId "themeToggle") (elements (document p))) →
  is_Some (find (hasId "heroImage") (elements (document p))) →
  pictured (load p).1.
Proof.
  intros Hbtn Himg. unfold load.
  rewrite (bool_decide_eq_true_2 _ Hbtn), (bool_decide_eq_true_2 _ Himg).
  by split.
Qed.

(** The index and the attribute are updated before the image is touched,
    so they alternate whether or not the handler completes. *)
Lemma onClick_ticking k s :
  ticking k s →
  ticking (S k) (onClick s).1
  ∧ dataTheme (onClick s).1 = Some (themeAfter (S k)).
Proof.
  intros (Hl & Hidx).
  unfold onClick, ticking, dataTheme, themeAfter.
  rewrite Hidx, Nat.odd_succ, <- Nat.negb_odd.
  destruct (heroImage s), (Nat.odd k); simpl;
    rewrite ?lookup_insert_eq; by repeat split.
Qed.

Lemma onClick_pictured k s :
  ticking k s → pictured s →
  (onClick s).2 = None
  ∧ pictured (onClick s).1
  ∧ heroSrc (onClick s).1 =
      Some ("assets/hero-" +:+ themeAfter (S k) +:+ ".svg").
Proof.
  intros (Hl & Hidx) (Hi & [img Himg]).
  unfold onClick, pictured, heroSrc, themeAfter.
  rewrite Hi, Hidx, Nat.odd_succ, <- Nat.negb_odd. simpl.
  rewrite find_updateFirst by (intros e; by apply hasId_updAttrs).
  rewrite Himg. simpl.
  destruct (Nat.odd k); simpl; rewrite ?lookup_insert_eq; by repeat split.
Qed.

Lemma clicks_ticking k s : ticking 0 s → ticking k (clicks k s).
Proof.
  intros H0. induction k as [|k IH]; [done|].
  simpl. unfold click. rewrite (proj1 IH). by apply onClick_ticking.
Qed.

Lemma clicks_pictured k s : ticking 0 s → pictured s → pictured (clicks k s).
Proof.
  intros H0 Hp. induction k as [|k IH]; [done|].
  pose proof (clicks_ticking k s H0) as Hk.
  simpl. unfold click. rewrite (proj1 Hk).
  by apply (onClick_pictured k).
Qed.

(** C10: with the toggle button on the page, after the [k]-th click,
    [k ≥ 1], the root's [data-theme] attribute is ['dark'] when [k] is odd
    and ['light'] when it is even, so the first click gives ['dark']; and
    with the hero image on the page its source is ['assets/hero-'], the
    current [data-theme] value, ['.svg']. *)
Theorem hero_toggle_alternates (p : Page) (k : nat) :
  is_Some (find (hasId "themeToggle") (elements (document p))) →
  (1 ≤ k)%nat →
  let s := clicks k (load p).1 in
  dataTheme s = Some (if Nat.odd k then "dark" else "light")
  ∧ (k = 1 → dataTheme s = Some "dark")
  ∧ (is_Some (find (hasId "heroImage") (elements (document p))) →
     heroSrc s = Some ("assets/hero-" +:+ default "" (dataTheme s) +:+ ".svg")).
Proof.
  intros Hbtn Hk s. subst s.
  destruct k as [|k]; [lia|].
  destruct (load_ticking p Hbtn) as [_ H0].
  pose proof (clicks_ticking k _ H0) as Hk'.
  simpl. unfold click. rewrite (proj1 Hk').
  destruct (onClick_ticking k _ Hk') as (_ & Hdata).
  rewrite Hdata. split; [done|].
  split; [intros [= ->]; reflexivity|].
  intros Himg.
  pose proof (clicks_pictured k _ H0 (load_pictured p Hbtn Himg)) as Hpic.
  by destruct (onClick_pictured k _ Hk' Hpic) as (_ & _ & ->).
Qed.

End Hero.

(** ** The model at concrete pages *)

Section Samples.

Import HeroToggle.

Example getTranslation_fr_title :
  getTranslation sampleRealm "fr" "page-title" = Ok (VString "Portefeuille").
Proof. vm_compute. reflexivity. Qed.

Example getTranslation_unknown_language :
  getTranslation sampleRealm "nl" "theme-toggle" = Ok (VString "Toggle Theme").
Proof. vm_compute. reflexivity. Qed.

Example detectedCode_samples :
  (detectedCode "FR-ca", detectedCode "pt_BR", detectedCode "zh-Hans-CN",
   detectedCode "")
  = ("fr", "en", "zh", "en").
Proof. vm_compute. reflexivity. Qed.

(** The first visit's load, call by call. *)
Example first_visit_log :
  log (pageOf (boot sampleDocument firstVisit)) =
    [ ClassAdd "dark-theme"; SetItem "portfolio-theme" "dark";
      SetProperty "--bg-primary" "#1a1a1a";
      SetProperty "--bg-secondary" "#2d2d2d";
      SetProperty "--text-primary" "#ffffff";
      SetProperty "--text-secondary" "#b0b0b0";
      SetProperty "--border-color" "#404040";
      SetProperty "--shadow-color" "rgba(0, 0, 0, 0.3)";
      SetProperty "--accent-color" "#6366f1";
      DispatchEvent (ThemeChange true "dark");
      AddEventListener SystemThemeListener;
      SetAttribute "lang" "fr"; SetItem "portfolio-language" "fr";
      SetTimeout (SwapTranslations "fr" false) 150;
      AddEventListener ToggleClickListener;
      SetElementAttribute "theme-toggle" "aria-label" "Switch to light theme";
      SetInnerHTML "theme-toggle" sunIcon;
      AddEventListener LanguageSelectListener;
      SetSelectValue "language-select" "fr";
      AppendStyle "theme-animations" ].
Proof. vm_compute. reflexivity. Qed.

(** A visit: the translations are swapped in, the user toggles the theme
    and picks German, the timers fire, and then the system preference
    changes, to no effect. *)
Example visit_after_events :
  let p :=
    foldl (λ p i, handle sampleDocument i p)
      (pageOf (boot sampleDocument firstVisit))
      [ TimerFires 0; ClickThemeToggle; ChangeLanguageSelect "de";
        TimerFires 0; TimerFires 0; TimerFires 0; SystemThemeChange false ] in
  classList (document p) = ["no-js"]
  ∧ attributes (document p) !! "lang" = Some "de"
  ∧ localStorage p !! THEME_STORAGE_KEY = Some "light"
  ∧ localStorage p !! LANGUAGE_STORAGE_KEY = Some "de"
  ∧ timers p = [].
Proof. vm_compute. repeat split; reflexivity. Qed.

Example hero_two_clicks :
  let s := clicks 2 (load heroPage).1 in
  dataTheme s = Some "light" ∧ heroSrc s = Some "assets/hero-light.svg".
Proof. vm_compute. split; reflexivity. Qed.

Lemma initialization_precedence_witness :
  localStorage returningVisit !! THEME_STORAGE_KEY = Some "light"
  ∧ prefersDark returningVisit = true
  ∧ (THEME_CLASS ∉
       classList (document (pageOf (initializeTheme returningVisit))))
  ∧ attributes (document (pageOf (initializeLanguage returningVisit))) !! "lang"
    = Some "de"
  ∧ localStorage firstVisit !! THEME_STORAGE_KEY = None
  ∧ (THEME_CLASS ∈ classList (document (pageOf (initializeTheme firstVisit))))
  ∧ attributes (document (pageOf (initializeLanguage firstVisit))) !! "lang"
    = Some "fr".
Proof.
  destruct (initialization_precedence returningVisit) as (H1 & _ & H3 & _).
  destruct (initialization_precedence firstVisit) as (_ & H2 & _ & H4).
  split; [reflexivity|]. split; [reflexivity|].
  split.
  { destruct (H1 "light") as (_ & Hdark & _); [reflexivity | discriminate|].
    intros Hin. apply Hdark in Hin. discriminate Hin. }
  split.
  { apply (H3 "de"); [reflexivity|].
    apply (bool_decide_unpack _). vm_compute. exact I. }
  split; [reflexivity|].
  split.
  { destruct H2 as (_ & Hdark & _); [left; reflexivity|].
    apply Hdark. reflexivity. }
  destruct (H4 "fr-CA") as (_ & Hlang & _); [|reflexivity|exact Hlang].
  intros s Hs. vm_compute in Hs. discriminate Hs.
Defined.

Lemma setLanguage_unsupported_defaults_witness :
  ("xx" ∉ SUPPORTED_LANGUAGES)
  ∧ attributes (document (pageOf (setLanguage "xx" true firstVisit))) !! "lang"
    = Some "en"
  ∧ localStorage (pageOf (setLanguage "xx" true firstVisit))
      !! LANGUAGE_STORAGE_KEY = Some "en".
Proof.
  assert ("xx" ∉ SUPPORTED_LANGUAGES) as Hxx
    by (apply (bool_decide_unpack _); vm_compute; exact I).
  split; [exact Hxx|].
  destruct (setLanguage_unsupported_defaults "xx" true firstVisit Hxx)
    as (_ & Hlang & Hstored & _).
  split; [exact Hlang | exact Hstored].
Defined.

Lemma setTheme_idempotent_witness :
  NoDup (classList (document firstVisit))
  ∧ NoDup (classList (document
      (pageOf (setTheme true false (pageOf (setTheme true false firstVisit)))))).
Proof.
  assert (NoDup (classList (document firstVisit))) as Hnd
    by apply NoDup_singleton.
  split; [exact Hnd|].
  destruct (setTheme_idempotent true firstVisit) as (_ & _ & _ & _ & _ & _ & _ & H).
  exact (H Hnd).
Defined.

Lemma initial_load_dark_witness :
  localStorage firstVisit !! THEME_STORAGE_KEY = None
  ∧ prefersDark firstVisit = true
  ∧ localStorage (pageOf (boot sampleDocument firstVisit)) !! THEME_STORAGE_KEY
    = Some "dark"
  ∧ (ClassAdd TRANSITION_CLASS ∉ log (pageOf (boot sampleDocument firstVisit))).
Proof.
  split; [reflexivity|]. split; [reflexivity|].
  destruct (initial_load_dark sampleDocument firstVisit eq_refl eq_refl)
    as (_ & _ & Hst & _ & Hq & _).
  split; [exact Hst | exact Hq].
Defined.

Lemma toggleTheme_inverts_applied_witness :
  ∃ btn btn',
    find (hasId "theme-toggle") (elements (document firstVisit)) = Some btn
    ∧ find (hasId "theme-toggle")
           (elements (document (pageOf (toggleTheme firstVisit)))) = Some btn'
    ∧ attrs btn' !! "aria-label" = Some "Switch to light theme"
    ∧ content btn' = sunIcon.
Proof.
  destruct (toggleTheme_inverts_applied firstVisit)
    as (_ & _ & _ & _ & _ & _ & _ & H).
  destruct (H (mkElement "BUTTON" {[ "id" := "theme-toggle" ]} "" "") eq_refl)
    as (btn' & Hf & Ha & Hc).
  eexists _, btn'. split; [reflexivity|]. split; [exact Hf|].
  split; [exact Ha | exact Hc].
Defined.

Lemma onSystemThemeChange_guard_witness :
  localStorage returningVisit !! THEME_STORAGE_KEY = Some "light"
  ∧ onSystemThemeChange true returningVisit = Normal tt returningVisit
  ∧ localStorage firstVisit !! THEME_STORAGE_KEY = None
  ∧ onSystemThemeChange true firstVisit = setTheme true true firstVisit.
Proof.
  destruct (onSystemThemeChange_guard true returningVisit) as (_ & _ & H1 & _).
  destruct (onSystemThemeChange_guard true firstVisit) as (_ & H2 & _).
  split; [reflexivity|].
  split; [apply (H1 "light"); [reflexivity | discriminate]|].
  split; [reflexivity|].
  apply H2. left. reflexivity.
Defined.

Lemma reset_round_trip_witness :
  prefersDark returningVisit = true
  ∧ language returningVisit = Some "fr-CA"
  ∧ localStorage
      (handle sampleDocument Navigate
         (pageOf (resetToSystemPreferences returningVisit)))
      !! THEME_STORAGE_KEY = Some "dark"
  ∧ localStorage
      (handle sampleDocument Navigate
         (pageOf (resetToSystemPreferences returningVisit)))
      !! LANGUAGE_STORAGE_KEY = Some "fr".
Proof.
  split; [reflexivity|]. split; [reflexivity|].
  destruct (reset_round_trip sampleDocument returningVisit eq_refl eq_refl)
    as (_ & _ & _ & _ & _ & _ & _ & Ht & Hl & _).
  split; [exact Ht | exact Hl].
Defined.

Lemma theme_persisted_from_load_witness :
  reachable sampleDocument
    (handle sampleDocument ClickThemeToggle
       (pageOf (boot sampleDocument firstVisit)))
  ∧ reloading
      (handle sampleDocument ClickThemeToggle
         (pageOf (boot sampleDocument firstVisit))) = false
  ∧ ∀ matches,
      onSystemThemeChange matches
        (handle sampleDocument ClickThemeToggle
           (pageOf (boot sampleDocument firstVisit)))
      = Normal tt
          (handle sampleDocument ClickThemeToggle
             (pageOf (boot sampleDocument firstVisit))).
Proof.
  assert (reachable sampleDocument
            (handle sampleDocument ClickThemeToggle
               (pageOf (boot sampleDocument firstVisit)))) as Hreach
    by (apply reachable_step, reachable_boot).
  assert (reloading
            (handle sampleDocument ClickThemeToggle
               (pageOf (boot sampleDocument firstVisit))) = false) as Hrl
    by (vm_compute; reflexivity).
  split; [exact Hreach|]. split; [exact Hrl|].
  destruct (theme_persisted_from_load sampleDocument _ Hreach Hrl)
    as (_ & _ & _ & H & _).
  exact H.
Defined.

Lemma hero_toggle_alternates_witness :
  is_Some (find (hasId "themeToggle") (elements (document heroPage)))
  ∧ is_Some (find (hasId "heroImage") (elements (document heroPage)))
  ∧ (1 ≤ 3)%nat
  ∧ dataTheme (clicks 3 (load heroPage).1) = Some "dark"
  ∧ heroSrc (clicks 3 (load heroPage).1) = Some "assets/hero-dark.svg".
Proof.
  assert (is_Some (find (hasId "themeToggle") (elements (document heroPage))))
    as Hbtn by (eexists; reflexivity).
  assert (is_Some (find (hasId "heroImage") (elements (document heroPage))))
    as Himg by (eexists; reflexivity).
  assert (1 ≤ 3)%nat as Hk by lia.
  split; [exact Hbtn|]. split; [exact Himg|]. split; [exact Hk|].
  destruct (hero_toggle_alternates heroPage 3 Hbtn Hk) as (H & _ & Hsrc).
  split; [exact H|]. rewrite (Hsrc Himg), H. reflexivity.
Defined.

End Samples.


(** * Further properties of the code *)

(** ** [detectBrowserLanguage] *)

Section Detection.

(** X1: [detectBrowserLanguage] reads only: it leaves the page as it is;
    for every locale the browser reports it returns a code of the supported
    set, the locale's lower-cased primary subtag when that is supported and
    ['en'] otherwise; and it throws a [TypeError] exactly when the browser
    reports no locale. *)
Theorem detectBrowserLanguage_supported p :
  (∀ locale, browserLocale p = Some locale →
     detectBrowserLanguage p = Normal (detectedCode locale) p
     ∧ detectedCode locale ∈ SUPPORTED_LANGUAGES
     ∧ (primarySubtag locale ∈ SUPPORTED_LANGUAGES →
        detectedCode locale = primarySubtag locale)
     ∧ (primarySubtag locale ∉ SUPPORTED_LANGUAGES →
        detectedCode locale = "en"))
  ∧ (browserLocale p = None ↔ detectBrowserLanguage p = Abrupt TypeError p)
  ∧ pageOf (detectBrowserLanguage p) = p.
Proof.
  rewrite detectBrowserLanguage_eq. repeat apply conj.
  - intros locale Hloc. rewrite Hloc. split; [done|].
    split; [apply supported_iff, detectedCode_supported|].
    unfold detectedCode, supported. split.
    + intros H. by rewrite (bool_decide_eq_true_2 _ H).
    + intros H. by rewrite (bool_decide_eq_false_2 _ H).
  - intros Hloc. by rewrite Hloc.
  - destruct (browserLocale p); [discriminate | done].
  - by destruct (browserLocale p).
Qed.

End Detection.

(** ** Invariants of a visit *)

Section Invariants.

#[local] Instance keeps_preorder I : PreOrder (keeps I).
Proof.
  split; [intros p Hp; exact Hp | intros p1 p2 p3 H12 H23 H1].
  apply H23, H12, H1.
Qed.

(** An invariant established by every load and kept by every dispatch
    holds on every reachable page. *)
Lemma reachable_invariant (I : Page → Prop) html :
  (∀ p0, I (pageOf (boot html p0))) →
  (∀ i, respects (keeps I) (dispatch i)) →
  ∀ p, reachable html p → I p.
Proof.
  intros Hboot Hstep p. induction 1 as [p0 | p i Hp IH]; [apply Hboot|].
  destruct i; try exact (Hstep _ p IH).
  unfold handle. destruct (reloading p); [apply Hboot | done].
Qed.

Lemma appliedDark_tokensRemove_transition l :
  bool_decide (THEME_CLASS ∈ tokensRemove TRANSITION_CLASS l) =
    bool_decide (THEME_CLASS ∈ l).
Proof.
  apply bool_decide_ext. rewrite elem_of_tokensRemove.
  split; [by intros [_ ?] | by split].
Qed.

Ltac core_leaf :=
  cbv [respects unchanged coreView appliedDark]; intros ?; simpl;
  first [ reflexivity | by rewrite appliedDark_tokensRemove_transition ].

Lemma updatePageTranslations_coreView langCode :
  respects (unchanged coreView) (updatePageTranslations langCode).
Proof. unfold updatePageTranslations. respects_walk ltac:(core_leaf). Qed.

Lemma runCallback_coreView cb : respects (unchanged coreView) (runCallback cb).
Proof.
  pose proof updatePageTranslations_coreView as Hupd.
  destruct cb; unfold runCallback, dispatchLanguageChangeEvent, dispatchEvent,
    classListRemove, setStyle, setTimeout;
    respects_walk ltac:(first [apply Hupd | core_leaf]).
Qed.

Lemma updateThemeToggleButton_coreView :
  respects (unchanged coreView) updateThemeToggleButton.
Proof.
  unfold updateThemeToggleButton, updateById.
  respects_walk ltac:(core_leaf).
Qed.

Lemma updateById_coreView id f : respects (unchanged coreView) (updateById id f).
Proof. unfold updateById. respects_walk ltac:(core_leaf). Qed.

Lemma modify_updPrefersDark_coreView b :
  respects (unchanged coreView) (modify (updPrefersDark b)).
Proof. respects_walk ltac:(core_leaf). Qed.

Lemma modify_updTimers_coreView f :
  respects (unchanged coreView) (modify (updTimers f)).
Proof. respects_walk ltac:(core_leaf). Qed.

(** Walk [dispatch]: the calls that touch neither preference keep any
    invariant that depends on [coreView] only; [setTheme], [setLanguage]
    and the reset are given. *)
Lemma dispatch_keeps (I : Page → Prop) :
  (∀ p p', unchanged coreView p p' → keeps I p p') →
  (∀ isDark animate, respects (keeps I) (setTheme isDark animate)) →
  (∀ langCode animate, respects (keeps I) (setLanguage langCode animate)) →
  respects (keeps I) resetToSystemPreferences →
  ∀ i, respects (keeps I) (dispatch i).
Proof.
  intros Hcore Htheme Hlang Hreset i.
  destruct i; unfold dispatch, fireTimer, toggleTheme, onSystemThemeChange,
    getItem, classListContains;
    respects_walk ltac:(first
      [ apply Htheme | apply Hlang | apply Hreset
      | apply (respects_mono (unchanged coreView));
        [ exact Hcore
        | first [ apply updateThemeToggleButton_coreView
                | apply runCallback_coreView
                | apply updateById_coreView
                | apply modify_updPrefersDark_coreView
                | apply modify_updTimers_coreView ] ] ]).
Qed.

(** *** The theme shown and the theme stored *)

Lemma setTheme_themeSynced isDark animate p :
  themeSynced (pageOf (setTheme isDark animate p)).
Proof.
  intros _. by rewrite setTheme_localStorage, lookup_insert_eq,
    appliedDark_setTheme.
Qed.

Lemma coreView_themeSynced p p' :
  unchanged coreView p p' → keeps themeSynced p p'.
Proof.
  intros H Hp Hrl. unfold unchanged, coreView in H.
  injection H as Hls _ Hdark Hrl' _ _.
  rewrite Hls, Hdark. apply Hp. congruence.
Qed.

Lemma setLanguage_keeps_themeSynced langCode animate :
  respects (keeps themeSynced) (setLanguage langCode animate).
Proof.
  intros p Hp Hrl.
  pose proof (setLanguage_themeView langCode animate p) as Hview.
  unfold appliedDark.
  rewrite (themeView_stored _ _ Hview), (themeView_classList _ _ Hview).
  apply Hp. by rewrite <- (themeView_reloading _ _ Hview).
Qed.

Lemma boot_themeSynced html p0 : themeSynced (pageOf (boot html p0)).
Proof.
  intros _. pose proof (boot_themeView html p0) as Hview.
  unfold appliedDark.
  rewrite (themeView_stored _ _ Hview), (themeView_classList _ _ Hview).
  rewrite initializeTheme_localStorage, lookup_insert_eq,
    initializeTheme_classList.
  fold (appliedDark (pageOf (setTheme (resolvedDark (freshPage html p0))
                               false (freshPage html p0)))).
  by rewrite appliedDark_setTheme.
Qed.

(** X2: on every page of a visit, unless a reset is waiting for its reload,
    the theme stored under the theme key is the theme the root element
    shows: [getCurrentTheme] returns the stored value, and it is ['dark']
    exactly when the dark class is on the root. *)
Theorem stored_theme_is_shown html p :
  reachable html p →
  reloading p = false →
  ∃ theme,
    getCurrentTheme p = Normal theme p
    ∧ localStorage p !! THEME_STORAGE_KEY = Some theme
    ∧ (theme = "dark" ↔ THEME_CLASS ∈ classList (document p))
    ∧ (theme = "light" ↔ THEME_CLASS ∉ classList (document p)).
Proof.
  intros Hreach Hrl.
  assert (themeSynced p) as Hsync.
  { clear Hrl. revert p Hreach. apply reachable_invariant.
    - apply boot_themeSynced.
    - apply dispatch_keeps.
      + apply coreView_themeSynced.
      + intros d a q _. apply setTheme_themeSynced.
      + apply setLanguage_keeps_themeSynced.
      + intros q _ Hq. simpl in Hq. discriminate Hq. }
  exists (themeName (appliedDark p)).
  split; [reflexivity|]. split; [by apply Hsync|].
  unfold appliedDark. case_bool_decide; simpl; split; split; done.
Qed.

(** *** The language shown and the language stored *)

Lemma resolvedCode_in_supported langCode :
  resolvedCode langCode ∈ SUPPORTED_LANGUAGES.
Proof.
  unfold resolvedCode. destruct (supported langCode) eqn:Hs.
  - by apply supported_iff.
  - apply supported_iff. by vm_compute.
Qed.

Lemma setLanguage_applies langCode animate p :
  languageApplied (pageOf (setLanguage langCode animate p))
    (resolvedCode langCode).
Proof.
  split; [apply resolvedCode_in_supported|].
  rewrite setLanguage_localStorage, setLanguage_attributes.
  split; apply lookup_insert_eq.
Qed.

(** With a locale reported, [initializeLanguage] is [setLanguage] of some
    supported code. *)
Lemma initializeLanguage_applies p :
  is_Some (browserLocale p) →
  ∃ code, supported code = true
          ∧ initializeLanguage p = setLanguage code false p.
Proof.
  intros [locale Hloc].
  destruct (localStorage p !! LANGUAGE_STORAGE_KEY) as [s|] eqn:Hs.
  - destruct (decide (s ∈ SUPPORTED_LANGUAGES)) as [Hin|Hout].
    + exists s. split; [by apply supported_iff|].
      by apply initializeLanguage_stored.
    + exists (detectedCode locale). split; [apply detectedCode_supported|].
      apply initializeLanguage_detected; [|done].
      intros s' Hs'. congruence.
  - exists (detectedCode locale). split; [apply detectedCode_supported|].
    apply initializeLanguage_detected; [|done].
    intros s' Hs'. congruence.
Qed.

Ltac env_leaf :=
  cbv [respects unchanged envView]; intros ?; simpl; reflexivity.

Lemma updatePageTranslations_envView langCode :
  respects (unchanged envView) (updatePageTranslations langCode).
Proof. unfold updatePageTranslations. respects_walk ltac:(env_leaf). Qed.

Lemma constructor_envView : respects (unchanged envView) constructor.
Proof.
  unfold constructor, initializeTheme, initializeLanguage, setupEventListeners,
    applyAnimationStyles, detectBrowserLanguage, setTheme, setLanguage,
    updateThemeToggleButton, updateThemeVariables, dispatchThemeChangeEvent,
    dispatchEvent, updateById, getItem, classListContains, getElementById.
  respects_walk ltac:(env_leaf).
Qed.

Lemma boot_browserLocale html p0 :
  browserLocale (pageOf (boot html p0)) = browserLocale p0.
Proof.
  pose proof (constructor_envView (freshPage html p0)) as H.
  unfold unchanged, envView in H. injection H as Hl Hu.
  unfold boot, browserLocale. by rewrite Hl, Hu.
Qed.

Lemma boot_languageSynced html p0 : languageSynced (pageOf (boot html p0)).
Proof.
  destruct (browserLocale p0) as [locale|] eqn:Hloc;
    [|left; by rewrite boot_browserLocale].
  right. right.
  set (pT := pageOf (initializeTheme (freshPage html p0))).
  assert (is_Some (browserLocale pT)) as Hsome.
  { unfold browserLocale, pT.
    destruct (initializeTheme_environment (freshPage html p0)) as [-> ->].
    change (is_Some (browserLocale p0)). by rewrite Hloc. }
  destruct (initializeLanguage_applies pT Hsome) as (code & Hcode & Hinit).
  exists code.
  assert (boot html p0 = afterLanguage (pageOf (setLanguage code false pT)))
    as ->.
  { unfold boot. rewrite constructor_afterTheme. fold pT. unfold afterTheme.
    rewrite (bind_normal _ _ _ tt (pageOf (setLanguage code false pT)));
      [done|].
    rewrite Hinit. apply setLanguage_completes. }
  pose proof (setLanguage_applies code false pT) as (Hin & Hst & Hat).
  rewrite (resolvedCode_supported _ Hcode) in Hin, Hst, Hat.
  split; [done|].
  by rewrite (storedView_localStorage _ _ (afterLanguage_storedView _)),
    (storedView_attributes _ _ (afterLanguage_storedView _)).
Qed.

Lemma coreView_languageSynced p p' :
  unchanged coreView p p' → keeps languageSynced p p'.
Proof.
  intros H Hp. unfold unchanged, coreView in H.
  injection H as Hls Hat _ Hrl Hl Hu.
  unfold languageSynced, languageApplied, browserLocale in *.
  by rewrite Hls, Hat, Hrl, Hl, Hu.
Qed.

Lemma setTheme_keeps_languageSynced isDark animate :
  respects (keeps languageSynced) (setTheme isDark animate).
Proof.
  intros p Hp. unfold languageSynced, languageApplied, browserLocale in *.
  rewrite setTheme_localStorage, setTheme_reloading.
  rewrite lookup_insert_ne by done.
  replace (attributes (document (pageOf (setTheme isDark animate p))))
    with (attributes (document p)) by (by destruct isDark, animate).
  replace (language (pageOf (setTheme isDark animate p)))
    with (language p) by (by destruct isDark, animate).
  replace (userLanguage (pageOf (setTheme isDark animate p)))
    with (userLanguage p) by (by destruct isDark, animate).
  exact Hp.
Qed.

(** X3: on every page of a visit in a browser that reports a locale, unless
    a reset is waiting for its reload, the value stored under the language
    key and the root's [lang] attribute are one and the same code of the
    supported set, and [getCurrentLanguage] returns it. *)
Theorem stored_language_is_shown html p :
  reachable html p →
  is_Some (browserLocale p) →
  reloading p = false →
  ∃ code,
    code ∈ SUPPORTED_LANGUAGES
    ∧ localStorage p !! LANGUAGE_STORAGE_KEY = Some code
    ∧ attributes (document p) !! "lang" = Some code
    ∧ getCurrentLanguage p = Normal code p.
Proof.
  intros Hreach [locale Hloc] Hrl.
  assert (languageSynced p) as Hsync.
  { clear Hloc Hrl. revert p Hreach. apply reachable_invariant.
    - apply boot_languageSynced.
    - apply dispatch_keeps.
      + apply coreView_languageSynced.
      + apply setTheme_keeps_languageSynced.
      + intros l a q _. right. right. eexists. apply setLanguage_applies.
      + intros q _. right. left. reflexivity. }
  destruct Hsync as [Hnone | [Htrue | (code & Hin & Hst & Hat)]];
    [congruence | congruence |].
  exists code. split; [done|]. split; [done|]. split; [done|].
  unfold getCurrentLanguage, getAttribute, read, mbind, JS_bind, mret, JS_ret.
  rewrite Hat.
  assert (code ≠ "") as Hne by (apply supported_nonempty; by apply supported_iff).
  by rewrite (proj2 (truthy_Some code) Hne).
Qed.

End Invariants.

(** ** Animated changes and their timers *)

Section Animation.

Lemma tokensRemove_absent c l : c ∉ l → tokensRemove c l = l.
Proof.
  unfold tokensRemove. induction l as [|x l IH]; [done|].
  intros Hc. apply not_elem_of_cons in Hc as [Hne Hc].
  rewrite filter_cons_True by done. by rewrite IH.
Qed.

Lemma tokensRemove_tokensAdd c l : c ∉ l → tokensRemove c (tokensAdd c l) = l.
Proof.
  intros Hc. unfold tokensAdd. rewrite bool_decide_eq_false_2 by done.
  unfold tokensRemove.
  rewrite filter_app, filter_cons_False, filter_nil, app_nil_r
    by (intros H; by apply H).
  by apply tokensRemove_absent.
Qed.

Lemma tokensRemove_comm c d l :
  tokensRemove c (tokensRemove d l) = tokensRemove d (tokensRemove c l).
Proof.
  unfold tokensRemove. rewrite !list_filter_filter.
  apply list_filter_iff. intros x. tauto.
Qed.

Lemma tokensRemove_tokensAdd_ne c d l :
  c ≠ d → tokensRemove c (tokensAdd d l) = tokensAdd d (tokensRemove c l).
Proof.
  intros Hne. unfold tokensAdd.
  rewrite (bool_decide_ext (d ∈ tokensRemove c l) (d ∈ l))
    by (rewrite elem_of_tokensRemove; split; [tauto | by split]).
  case_bool_decide; [done|].
  unfold tokensRemove.
  by rewrite filter_app, filter_cons_True, filter_nil by done.
Qed.

Lemma fireTimer_at cb ms p ts rest :
  timers p = ts ++ (cb, ms) :: rest →
  fireTimer (length ts) p =
    attempt (runCallback cb) (updTimers (λ _, ts ++ rest) p).
Proof.
  intros Hts. unfold fireTimer, read. unfold mbind at 1, JS_bind at 1.
  cbv beta iota. rewrite Hts, list_lookup_middle by done.
  rewrite (bind_normal _ _ _ tt (updTimers (delete (length ts)) p))
    by reflexivity.
  f_equal. unfold updTimers. by rewrite Hts, delete_middle.
Qed.

Lemma fireTimer_last cb ms p ts :
  timers p = ts ++ [(cb, ms)] →
  fireTimer (length ts) p =
    attempt (runCallback cb) (updTimers (λ _, ts) p).
Proof.
  intros Hts. rewrite (fireTimer_at cb ms p ts []) by done.
  by rewrite app_nil_r.
Qed.

Lemma setTheme_document isDark animate p :
  document (pageOf (setTheme isDark animate p)) =
    mkDocument
      ((if isDark then tokensAdd THEME_CLASS else tokensRemove THEME_CLASS)
         ((if animate then tokensAdd TRANSITION_CLASS else id)
            (classList (document p))))
      (attributes (document p))
      (themeVariables isDark (style (document p)))
      (elements (document p))
      (headLength (document p)).
Proof. by destruct isDark, animate. Qed.

(** X4: the animation leaves nothing behind. On a root without the
    transition class, [setTheme(isDark, true)] followed by the firing of the
    timer it scheduled leaves the document, the storage and the pending
    timers exactly as [setTheme(isDark, false)] does. *)
Theorem animated_setTheme_settles isDark p :
  TRANSITION_CLASS ∉ classList (document p) →
  let animated :=
    pageOf (fireTimer (length (timers p)) (pageOf (setTheme isDark true p))) in
  let plain := pageOf (setTheme isDark false p) in
  timers (pageOf (setTheme isDark true p)) =
    timers p ++ [(RemoveTransitionClass, 300)]
  ∧ document animated = document plain
  ∧ localStorage animated = localStorage plain
  ∧ timers animated = timers plain.
Proof.
  intros Hno animated plain. subst animated plain.
  split; [apply setTheme_timers|].
  rewrite (fireTimer_last RemoveTransitionClass 300 _ (timers p))
    by apply setTheme_timers.
  set (q := pageOf (setTheme isDark true p)).
  change (document (pageOf (attempt (runCallback RemoveTransitionClass)
                              (updTimers (λ _, timers p) q))))
    with (updClassList (tokensRemove TRANSITION_CLASS) (document q)).
  change (localStorage (pageOf (attempt (runCallback RemoveTransitionClass)
                                  (updTimers (λ _, timers p) q))))
    with (localStorage q).
  change (timers (pageOf (attempt (runCallback RemoveTransitionClass)
                            (updTimers (λ _, timers p) q))))
    with (timers p).
  subst q.
  rewrite !setTheme_document, !setTheme_localStorage, setTheme_timers, app_nil_r.
  split; [|done]. unfold updClassList. cbn [classList attributes style elements headLength].
  f_equal. destruct isDark; cbn [id].
  - rewrite tokensRemove_tokensAdd_ne by done.
    by rewrite tokensRemove_tokensAdd.
  - rewrite tokensRemove_comm. by rewrite tokensRemove_tokensAdd.
Qed.

(** The custom properties of a theme overwrite those of any theme set
    before. *)
Lemma themeVariables_overwrite isDark wasDark style :
  themeVariables isDark (themeVariables wasDark style) =
    themeVariables isDark style.
Proof.
  apply map_eq. intros k. unfold themeVariables.
  destruct (decide (k = "--accent-color")) as [->|?];
    [destruct isDark, wasDark; by simplify_map_eq|].
  destruct (decide (k = "--shadow-color")) as [->|?];
    [destruct isDark, wasDark; by simplify_map_eq|].
  destruct (decide (k = "--border-color")) as [->|?];
    [destruct isDark, wasDark; by simplify_map_eq|].
  destruct (decide (k = "--text-secondary")) as [->|?];
    [destruct isDark, wasDark; by simplify_map_eq|].
  destruct (decide (k = "--text-primary")) as [->|?];
    [destruct isDark, wasDark; by simplify_map_eq|].
  destruct (decide (k = "--bg-secondary")) as [->|?];
    [destruct isDark, wasDark; by simplify_map_eq|].
  destruct (decide (k = "--bg-primary")) as [->|?];
    [destruct isDark, wasDark; by simplify_map_eq|].
  destruct isDark, wasDark; by simplify_map_eq.
Qed.

Lemma updateThemeToggleButton_root p :
  classList (document (pageOf (updateThemeToggleButton p)))
    = classList (document p)
  ∧ style (document (pageOf (updateThemeToggleButton p))) = style (document p)
  ∧ localStorage (pageOf (updateThemeToggleButton p)) = localStorage p.
Proof.
  unfold updateThemeToggleButton, getElementById, read, mbind, JS_bind.
  destruct (find _ _); simpl; done.
Qed.

Lemma toggleTheme_root p :
  let q := pageOf (setTheme (negb (appliedDark p)) true p) in
  classList (document (pageOf (toggleTheme p))) = classList (document q)
  ∧ style (document (pageOf (toggleTheme p))) = style (document q)
  ∧ localStorage (pageOf (toggleTheme p)) = localStorage q
  ∧ timers (pageOf (toggleTheme p)) = timers q.
Proof.
  intros q. rewrite toggleTheme_eq. fold q.
  destruct (updateThemeToggleButton_root q) as (-> & -> & ->).
  by rewrite updateThemeToggleButton_timers.
Qed.

Lemma appliedDark_toggleTheme p :
  appliedDark (pageOf (toggleTheme p)) = negb (appliedDark p).
Proof.
  unfold appliedDark at 1. rewrite (proj1 (toggleTheme_root p)).
  apply appliedDark_setTheme.
Qed.

Lemma toggleTheme_button p btn :
  find (hasId "theme-toggle") (elements (document p)) = Some btn →
  ∃ btn',
    find (hasId "theme-toggle") (elements (document (pageOf (toggleTheme p))))
      = Some btn'
    ∧ attrs btn' !! "aria-label" = Some (toggleLabel (negb (appliedDark p)))
    ∧ content btn' = toggleIcon (negb (appliedDark p)).
Proof.
  intros Hbtn. rewrite toggleTheme_eq.
  assert (find (hasId "theme-toggle")
            (elements (document
               (pageOf (setTheme (negb (appliedDark p)) true p)))) = Some btn)
    as Hbtn' by by rewrite setTheme_elements.
  destruct (updateThemeToggleButton_shows _ _ Hbtn') as (btn' & Hf & Ha & Hc).
  rewrite appliedDark_setTheme in Ha, Hc. by exists btn'.
Qed.

Lemma toggleTheme_timers p :
  timers (pageOf (toggleTheme p)) = timers p ++ [(RemoveTransitionClass, 300)].
Proof.
  rewrite (proj2 (proj2 (proj2 (toggleTheme_root p)))).
  apply setTheme_timers.
Qed.

Lemma toggleTheme_toggleTheme_timers p :
  timers (pageOf (toggleTheme (pageOf (toggleTheme p)))) =
    timers p ++ [(RemoveTransitionClass, 300); (RemoveTransitionClass, 300)].
Proof. by rewrite !toggleTheme_timers, <- app_assoc. Qed.

(** X5: toggling twice brings the theme back. After two calls of
    [toggleTheme] the root shows the theme it showed before, the storage
    names that theme, the seven custom properties have that theme's values,
    and the button, when the page has one, shows that theme's label and
    icon; two removals of the transition class are pending. *)
Theorem toggleTheme_twice p :
  let p1 := pageOf (toggleTheme p) in
  let p2 := pageOf (toggleTheme p1) in
  appliedDark p1 = negb (appliedDark p)
  ∧ appliedDark p2 = appliedDark p
  ∧ localStorage p2 !! THEME_STORAGE_KEY = Some (themeName (appliedDark p))
  ∧ style (document p2) = themeVariables (appliedDark p) (style (document p))
  ∧ timers p2 =
      timers p ++ [(RemoveTransitionClass, 300); (RemoveTransitionClass, 300)]
  ∧ (∀ btn,
       find (hasId "theme-toggle") (elements (document p)) = Some btn →
       ∃ btn',
         find (hasId "theme-toggle") (elements (document p2)) = Some btn'
         ∧ attrs btn' !! "aria-label" = Some (toggleLabel (appliedDark p))
         ∧ content btn' = toggleIcon (appliedDark p)).
Proof.
  intros p1 p2. subst p2 p1.
  split; [apply appliedDark_toggleTheme|].
  split; [by rewrite !appliedDark_toggleTheme, negb_involutive|].
  destruct (toggleTheme_root (pageOf (toggleTheme p))) as (_ & -> & -> & ->).
  destruct (toggleTheme_root p) as (_ & Hst & _ & Hts).
  rewrite appliedDark_toggleTheme, negb_involutive.
  rewrite setTheme_localStorage, setTheme_style, setTheme_timers, Hst, Hts.
  rewrite setTheme_style, setTheme_timers, themeVariables_overwrite.
  split; [apply lookup_insert_eq|]. split; [done|].
  split; [by rewrite <- app_assoc|].
  intros btn Hbtn.
  destruct (toggleTheme_button p btn Hbtn) as (btn1 & Hf1 & _).
  destruct (toggleTheme_button _ btn1 Hf1) as (btn2 & Hf2 & Ha & Hc).
  rewrite appliedDark_toggleTheme, negb_involutive in Ha, Hc.
  by exists btn2.
Qed.

(** X6: overlapping animations are not cancelled. When a second toggle
    follows before the first one's timer has fired, that timer, on firing,
    takes the transition class off the root although the second toggle's
    removal is still pending; the theme itself is not touched. *)
Theorem overlapping_toggles_first_timer p :
  let p2 := pageOf (toggleTheme (pageOf (toggleTheme p))) in
  let p3 := pageOf (fireTimer (length (timers p)) p2) in
  TRANSITION_CLASS ∈ classList (document p2)
  ∧ (TRANSITION_CLASS ∉ classList (document p3))
  ∧ timers p3 = timers p ++ [(RemoveTransitionClass, 300)]
  ∧ appliedDark p3 = appliedDark p2
  ∧ localStorage p3 = localStorage p2.
Proof.
  intros p2 p3.
  assert (timers p2 =
            timers p ++ (RemoveTransitionClass, 300)
                     :: [(RemoveTransitionClass, 300)]) as Hts
    by apply toggleTheme_toggleTheme_timers.
  assert (TRANSITION_CLASS ∈ classList (document p2)) as Hin.
  { subst p2.
    rewrite (proj1 (toggleTheme_root (pageOf (toggleTheme p)))),
      setTheme_classList.
    destruct (negb _).
    - apply elem_of_tokensAdd. right. apply elem_of_tokensAdd. by left.
    - apply elem_of_tokensRemove. split; [done|].
      apply elem_of_tokensAdd. by left. }
  split; [exact Hin|].
  subst p3. rewrite (fireTimer_at _ _ _ _ _ Hts).
  change (classList (document (pageOf (attempt (runCallback RemoveTransitionClass)
            (updTimers (λ _, timers p ++ [(RemoveTransitionClass, 300)]) p2)))))
    with (tokensRemove TRANSITION_CLASS (classList (document p2))).
  split; [rewrite elem_of_tokensRemove; by intros [? _]|].
  split; [reflexivity|].
  split; [|reflexivity].
  unfold appliedDark at 1.
  change (classList (document (pageOf (attempt (runCallback RemoveTransitionClass)
            (updTimers (λ _, timers p ++ [(RemoveTransitionClass, 300)]) p2)))))
    with (tokensRemove TRANSITION_CLASS (classList (document p2))).
  apply appliedDark_tokensRemove_transition.
Qed.

End Animation.

(** ** [updatePageTranslations] *)

Section PageTranslations.

Ltac shell_leaf :=
  cbv [respects unchanged shellView]; intros ?; simpl; reflexivity.

Lemma updatePageTranslations_shellView langCode :
  respects (unchanged shellView) (updatePageTranslations langCode).
Proof. unfold updatePageTranslations. respects_walk ltac:(shell_leaf). Qed.

(** A lookup for a language of the table reads the dictionaries and what
    they inherit, and never throws. *)
Lemma getTranslation_supported r langCode key :
  langCode ∈ SUPPORTED_LANGUAGES →
  getTranslation r langCode key =
    Ok (match getTranslation r langCode key with
        | Ok v => v
        | Threw _ => VUndefined
        end).
Proof.
  intros Hin.
  assert (∃ dict, translations !! langCode = Some dict) as [dict Hd].
  { apply supported_iff in Hin. unfold supported, SUPPORTED_LANGUAGES in Hin.
    apply bool_decide_eq_true in Hin.
    repeat (apply elem_of_cons in Hin as [->|Hin]; [by eexists|]).
    by apply elem_of_nil in Hin. }
  unfold getTranslation, tableGet. rewrite Hd.
  change (translations !! "en") with (Some en).
  cbn [optionalGet strictGet].
  destruct (truthyValue (dictGet r dict key)); [done|].
  by destruct (truthyValue (dictGet r en key)).
Qed.

Lemma getTranslation_translationOf r langCode key :
  langCode ∈ SUPPORTED_LANGUAGES →
  ∃ v, getTranslation r langCode key = Ok v
       ∧ translationOf r langCode key = toText r v.
Proof.
  intros Hin. pose proof (getTranslation_supported r langCode key Hin) as H.
  unfold translationOf. rewrite H. by eexists.
Qed.

Lemma translateElements_map r langCode l :
  langCode ∈ SUPPORTED_LANGUAGES →
  translateElements r langCode l = (map (translated r langCode) l, None).
Proof.
  intros Hin. induction l as [|e l IH]; [done|].
  cbn [translateElements map]. unfold translated at 1.
  destruct (attrs e !! "data-i18n") as [key|].
  - destruct (getTranslation_translationOf r langCode key Hin)
      as (v & -> & ->).
    by rewrite IH.
  - by rewrite IH.
Qed.

(** The selectors do not depend on what the translations write. *)
Lemma translated_tagName r langCode e :
  tagName (translated r langCode e) = tagName e.
Proof.
  unfold translated, applyTranslation.
  destruct (attrs e !! "data-i18n"); [|done].
  by destruct (_ || _).
Qed.

Lemma translated_attrs r langCode e name :
  name ≠ "placeholder" →
  attrs (translated r langCode e) !! name = attrs e !! name.
Proof.
  intros Hne. unfold translated, applyTranslation.
  destruct (attrs e !! "data-i18n"); [|done].
  destruct (_ || _); [|done]. simpl. by rewrite lookup_insert_ne.
Qed.

Lemma paint_tagName r langCode a b e :
  tagName (paint r langCode a b e) = tagName e.
Proof.
  unfold paint. destruct a, b; simpl; apply translated_tagName.
Qed.

Lemma paint_attrs r langCode a b e name :
  name ≠ "placeholder" → name ≠ "content" →
  attrs (paint r langCode a b e) !! name = attrs e !! name.
Proof.
  intros Hp Hc. unfold paint.
  destruct a, b; simpl; rewrite ?lookup_insert_ne by done;
    by apply translated_attrs.
Qed.

Lemma paint_value r langCode a b e :
  value (paint r langCode a b e) = value e.
Proof.
  unfold paint, translated, applyTranslation.
  destruct a, b, (attrs e !! "data-i18n"); simpl; try done;
    by destruct (_ || _).
Qed.

Lemma isTitle_paint r langCode a b e :
  isTitle (paint r langCode a b e) = isTitle e.
Proof. unfold isTitle. by rewrite paint_tagName. Qed.

Lemma isMetaDescription_paint r langCode a b e :
  isMetaDescription (paint r langCode a b e) = isMetaDescription e.
Proof.
  unfold isMetaDescription. by rewrite paint_tagName, paint_attrs.
Qed.

Lemma isTitle_translated r langCode e :
  isTitle (translated r langCode e) = isTitle e.
Proof. apply (isTitle_paint r langCode false false). Qed.

Lemma isMetaDescription_title r langCode a e :
  isMetaDescription (paint r langCode a false e) = isMetaDescription e.
Proof. apply isMetaDescription_paint. Qed.

(** The two [updateFirst] passes over the translated list are one sweep. *)
Lemma updateFirst_sweep r langCode (title meta : bool) l :
  (if meta
   then updateFirst isMetaDescription
          (updAttrs
             (insert "content" (translationOf r langCode "page-description")))
   else λ l' : list Element, l')
    ((if title
      then updateFirst isTitle
             (updContent (translationOf r langCode "page-title"))
      else λ l' : list Element, l')
       (map (translated r langCode) l))
  = sweep r langCode title meta l.
Proof.
  revert title meta. induction l as [|e l IH]; intros title meta.
  - by destruct title, meta.
  - cbn [map sweep].
    pose proof (isTitle_translated r langCode e) as Ht.
    pose proof (isMetaDescription_title r langCode (title && isTitle e) e) as Hm.
    rewrite <- IH. unfold paint in *.
    destruct title, meta; cbn [andb negb updateFirst] in *;
      rewrite ?Ht; destruct (isTitle e); cbn [andb negb updateFirst] in *;
      rewrite ?Hm; destruct (isMetaDescription e);
      cbn [andb negb updateFirst]; reflexivity.
Qed.

Lemma updateFirst_None sel f l : find sel l = None → updateFirst sel f l = l.
Proof.
  induction l as [|e l IH]; [done|]. simpl.
  destruct (sel e); [done|]. intros H. by rewrite IH.
Qed.

(** For a language of the table [updatePageTranslations] completes, and
    the elements it leaves are one sweep of those it found. *)
Lemma updatePageTranslations_sweeps langCode p :
  langCode ∈ SUPPORTED_LANGUAGES →
  updatePageTranslations langCode p =
    Normal tt (pageOf (updatePageTranslations langCode p))
  ∧ elements (document (pageOf (updatePageTranslations langCode p))) =
      sweep (realm p) langCode true true (elements (document p)).
Proof.
  intros Hin. rewrite <- updateFirst_sweep.
  destruct (getTranslation_translationOf (realm p) langCode "page-title" Hin)
    as (vt & Hvt & Ht).
  destruct (getTranslation_translationOf (realm p) langCode "page-description"
              Hin) as (vm & Hvm & Hm).
  unfold updatePageTranslations, read.
  unfold mbind, JS_bind. cbv zeta beta iota.
  rewrite translateElements_map by done. simpl.
  rewrite Hvt, Hvm, Ht, Hm. simpl.
  destruct (find isTitle _) eqn:Et; simpl.
  - destruct (find isMetaDescription _) eqn:Em; simpl; [done|].
    by rewrite (updateFirst_None _ _ _ Em).
  - rewrite (updateFirst_None _ _ _ Et).
    destruct (find isMetaDescription _) eqn:Em; simpl; [done|].
    by rewrite (updateFirst_None _ _ _ Em).
Qed.

Lemma updatePageTranslations_completes langCode p :
  langCode ∈ SUPPORTED_LANGUAGES →
  updatePageTranslations langCode p =
    Normal tt (pageOf (updatePageTranslations langCode p)).
Proof. intros Hin. by apply updatePageTranslations_sweeps. Qed.

Lemma updatePageTranslations_elements langCode p :
  langCode ∈ SUPPORTED_LANGUAGES →
  elements (document (pageOf (updatePageTranslations langCode p))) =
    sweep (realm p) langCode true true (elements (document p)).
Proof. intros Hin. by apply updatePageTranslations_sweeps. Qed.

Ltac realm_leaf := cbv [respects unchanged]; intros ?; simpl; reflexivity.

Lemma updatePageTranslations_realm langCode :
  respects (unchanged realm) (updatePageTranslations langCode).
Proof. unfold updatePageTranslations. respects_walk ltac:(realm_leaf). Qed.

Lemma paint_eq r langCode a b e :
  paint r langCode a b e =
    mkElement (tagName e) (paintedAttrs r langCode b e)
      (paintedContent r langCode a e) (value e).
Proof.
  unfold paint, translated, applyTranslation, paintedAttrs, paintedContent,
    takesPlaceholder.
  destruct e as [tag at' c v]. simpl.
  destruct (at' !! "data-i18n") as [key|];
    [destruct (_ || _)|]; by destruct a, b.
Qed.

Lemma takesPlaceholder_paint r langCode a b e :
  takesPlaceholder (paint r langCode a b e) = takesPlaceholder e.
Proof. unfold takesPlaceholder. by rewrite paint_tagName. Qed.

Lemma overwrite_two (m : gmap string string) k1 k2 x1 y1 x2 y2 :
  <[k1 := x2]> (<[k2 := y2]> (<[k1 := x1]> (<[k2 := y1]> m)))
  = <[k1 := x2]> (<[k2 := y2]> m).
Proof.
  apply map_eq. intros k.
  destruct (decide (k = k1)) as [->|?]; [by rewrite !lookup_insert_eq|].
  rewrite !(lookup_insert_ne _ k1) by done.
  destruct (decide (k = k2)) as [->|?]; [by rewrite !lookup_insert_eq|].
  by rewrite !lookup_insert_ne by done.
Qed.

(** Painting for one language what was painted for another leaves what
    painting for it alone leaves. *)
Lemma paint_paint r l1 l2 a b e :
  paint r l2 a b (paint r l1 a b e) = paint r l2 a b e.
Proof.
  rewrite (paint_eq r l2 a b (paint r l1 a b e)), (paint_eq r l2 a b e).
  rewrite paint_tagName, paint_value. f_equal.
  - unfold paintedAttrs.
    rewrite takesPlaceholder_paint, paint_attrs by done.
    rewrite (paint_eq r l1 a b e). cbn [attrs]. unfold paintedAttrs.
    destruct (attrs e !! "data-i18n") as [key|];
      [destruct (takesPlaceholder e)|]; destruct b;
      rewrite ?overwrite_two, ?insert_insert_eq; done.
  - unfold paintedContent.
    rewrite takesPlaceholder_paint, paint_attrs by done.
    rewrite (paint_eq r l1 a b e). cbn [content]. unfold paintedContent.
    destruct a; [done|].
    by destruct (attrs e !! "data-i18n") as [key|];
      [destruct (takesPlaceholder e)|].
Qed.

Lemma sweep_sweep r l1 l2 title meta l :
  sweep r l2 title meta (sweep r l1 title meta l) = sweep r l2 title meta l.
Proof.
  revert title meta. induction l as [|e l IH]; intros title meta; [done|].
  cbn [sweep].
  by rewrite isTitle_paint, isMetaDescription_paint, paint_paint, IH.
Qed.

(** X8: the text on the page depends on the last language applied only.
    For languages of the table, [updatePageTranslations] for one on a page
    translated for another leaves the elements as it leaves them on the
    untranslated page; in particular a second run for the same language
    changes nothing. *)
Theorem updatePageTranslations_last_wins l1 l2 p :
  l1 ∈ SUPPORTED_LANGUAGES → l2 ∈ SUPPORTED_LANGUAGES →
  elements (document
    (pageOf (updatePageTranslations l2
       (pageOf (updatePageTranslations l1 p)))))
  = elements (document (pageOf (updatePageTranslations l2 p)))
  ∧ elements (document
      (pageOf (updatePageTranslations l1
         (pageOf (updatePageTranslations l1 p)))))
    = elements (document (pageOf (updatePageTranslations l1 p))).
Proof.
  intros H1 H2.
  rewrite !updatePageTranslations_elements by done.
  rewrite (updatePageTranslations_realm l1 p).
  split; [apply sweep_sweep|].
  rewrite <- (sweep_sweep (realm p) l1 l1 true true (elements (document p)))
    at 2.
  by rewrite sweep_sweep.
Qed.

Lemma sweep_length r langCode title meta l :
  length (sweep r langCode title meta l) = length l.
Proof.
  revert title meta. induction l as [|e l IH]; intros title meta; [done|].
  cbn [sweep length]. by rewrite IH.
Qed.

(** Every element of a sweep is the painting of an element swept. *)
Lemma elem_of_sweep r langCode title meta l e' :
  e' ∈ sweep r langCode title meta l →
  ∃ e a b, e ∈ l ∧ e' = paint r langCode a b e
           ∧ (a = true → isTitle e = true).
Proof.
  revert title meta. induction l as [|e0 l IH]; intros title meta;
    [by intros ?%elem_of_nil|].
  cbn [sweep]. intros [->|Hin]%elem_of_cons.
  - eexists e0, _, _. split; [apply list_elem_of_here|]. split; [done|].
    by intros [_ H]%andb_true_iff.
  - destruct (IH _ _ Hin) as (e & a & b & He & -> & Ha).
    exists e, a, b. split; [by apply list_elem_of_further | done].
Qed.

Lemma sweep_find_title r langCode meta l e' :
  find isTitle (sweep r langCode true meta l) = Some e' →
  ∃ e b, e' = paint r langCode true b e.
Proof.
  revert meta. induction l as [|e0 l IH]; intros meta; [done|].
  cbn [find sweep]. rewrite isTitle_paint.
  destruct (isTitle e0) eqn:Ht.
  - intros [= <-]. by eexists _, _.
  - apply IH.
Qed.

Lemma sweep_find_meta r langCode title l e' :
  find isMetaDescription (sweep r langCode title true l) = Some e' →
  ∃ e a, e' = paint r langCode a true e.
Proof.
  revert title. induction l as [|e0 l IH]; intros title; [done|].
  cbn [find sweep]. rewrite isMetaDescription_paint.
  destruct (isMetaDescription e0) eqn:Hm.
  - intros [= <-]. by eexists _, _.
  - apply IH.
Qed.

(** X7: what [updatePageTranslations] leaves, for a language of the
    table. It completes without throwing; it touches neither the storage
    nor the root's classes, attributes and inline style, nor the timers and
    the listeners. On the page it leaves, every element tagged with a key
    carries what [getTranslation] returns for that key, as its placeholder
    when it is an INPUT or TEXTAREA and as its text otherwise, a title
    apart; the first title carries the translation of ['page-title'] as
    its text and the first description that of ['page-description'] as its
    [content]. *)
Theorem updatePageTranslations_shows langCode p :
  langCode ∈ SUPPORTED_LANGUAGES →
  let p' := pageOf (updatePageTranslations langCode p) in
  let after := elements (document p') in
  updatePageTranslations langCode p = Normal tt p'
  ∧ localStorage p' = localStorage p
  ∧ classList (document p') = classList (document p)
  ∧ attributes (document p') = attributes (document p)
  ∧ style (document p') = style (document p)
  ∧ timers p' = timers p
  ∧ listeners p' = listeners p
  ∧ (∀ e' key v,
       e' ∈ after → attrs e' !! "data-i18n" = Some key →
       getTranslation (realm p) langCode key = Ok v →
       if takesPlaceholder e'
       then attrs e' !! "placeholder" = Some (toText (realm p) v)
       else isTitle e' = false → content e' = toText (realm p) v)
  ∧ (∀ e' v,
       find isTitle after = Some e' →
       getTranslation (realm p) langCode "page-title" = Ok v →
       content e' = toText (realm p) v)
  ∧ (∀ e' v,
       find isMetaDescription after = Some e' →
       getTranslation (realm p) langCode "page-description" = Ok v →
       attrs e' !! "content" = Some (toText (realm p) v)).
Proof.
  intros Hin p' after. subst after p'.
  pose proof (updatePageTranslations_shellView langCode p) as Hshell.
  unfold unchanged, shellView in Hshell.
  injection Hshell as Hls Hcl Hat Hst Hts Hli _.
  rewrite updatePageTranslations_elements by done.
  split; [by apply updatePageTranslations_completes|].
  split; [done|]. split; [done|]. split; [done|]. split; [done|].
  split; [done|]. split; [done|].
  assert (∀ key v, getTranslation (realm p) langCode key = Ok v →
                   translationOf (realm p) langCode key = toText (realm p) v)
    as Htr by (intros key v Hv; unfold translationOf; by rewrite Hv).
  split; [|split].
  - intros e' key v He' Hkey Hv.
    destruct (elem_of_sweep _ _ _ _ _ _ He') as (e & a & b & _ & -> & Ha).
    rewrite takesPlaceholder_paint, isTitle_paint.
    rewrite paint_attrs in Hkey by done.
    rewrite paint_eq. cbn [attrs content].
    unfold paintedAttrs, paintedContent. rewrite Hkey, (Htr _ _ Hv).
    destruct (takesPlaceholder e).
    + destruct b; [rewrite lookup_insert_ne by done|]; apply lookup_insert_eq.
    + intros Ht. destruct a; [|done]. rewrite Ha in Ht by done.
      discriminate Ht.
  - intros e' v He' Hv.
    destruct (sweep_find_title _ _ _ _ _ He') as (e & b & ->).
    rewrite paint_eq. cbn [content]. unfold paintedContent.
    by apply Htr.
  - intros e' v He' Hv.
    destruct (sweep_find_meta _ _ _ _ _ He') as (e & a & ->).
    rewrite paint_eq. cbn [attrs]. unfold paintedAttrs.
    rewrite (Htr _ _ Hv). apply lookup_insert_eq.
Qed.

End PageTranslations.

(** ** The optional controls and the style element *)

Section Controls.

Lemma find_app_Some {A} (sel : A → bool) l1 l2 e :
  find sel l1 = Some e → find sel (l1 ++ l2) = Some e.
Proof.
  induction l1 as [|x l1 IH]; [done|]. simpl.
  destruct (sel x); [done | exact IH].
Qed.

Lemma find_app_None {A} (sel : A → bool) l1 l2 :
  find sel l1 = None → find sel (l1 ++ l2) = find sel l2.
Proof.
  induction l1 as [|x l1 IH]; [done|]. simpl.
  destruct (sel x); [done | exact IH].
Qed.

Lemma find_updateFirst_other sel1 sel2 f l :
  (∀ x, sel2 (f x) = sel2 x) →
  (∀ x, sel1 x = true → sel2 x = false) →
  find sel2 (updateFirst sel1 f l) = find sel2 l.
Proof.
  intros Hf Hdisj. induction l as [|x l IH]; [done|]. simpl.
  destruct (sel1 x) eqn:H1; simpl.
  - by rewrite Hf, (Hdisj _ H1).
  - by rewrite IH.
Qed.

Lemma hasId_disjoint id1 id2 e :
  id1 ≠ id2 → hasId id1 e = true → hasId id2 e = false.
Proof.
  intros Hne H1. unfold hasId in *.
  apply bool_decide_eq_true in H1. apply bool_decide_eq_false. congruence.
Qed.

Lemma updateThemeToggleButton_listeners p :
  listeners (pageOf (updateThemeToggleButton p)) = listeners p.
Proof.
  unfold updateThemeToggleButton, getElementById, read, mbind, JS_bind.
  destruct (find _ _); simpl; [|done].
  reflexivity.
Qed.

Lemma find_inserted_other {A} (sel : A → bool) n x l :
  sel x = false → find sel (take n l ++ x :: drop n l) = find sel l.
Proof.
  intros Hx. rewrite <- (take_drop n l) at 3.
  destruct (find sel (take n l)) as [y|] eqn:Hy.
  - by rewrite !(find_app_Some _ _ _ _ Hy).
  - rewrite !find_app_None by done. simpl. by rewrite Hx.
Qed.

Lemma find_inserted_new {A} (sel : A → bool) n x l :
  find sel l = None → sel x = true →
  find sel (take n l ++ x :: drop n l) = Some x.
Proof.
  intros Hl Hx. rewrite <- (take_drop n l) in Hl.
  destruct (find sel (take n l)) as [y|] eqn:Hy.
  - rewrite (find_app_Some _ _ _ _ Hy) in Hl. discriminate Hl.
  - rewrite find_app_None by done. simpl. by rewrite Hx.
Qed.

Lemma applyAnimationStyles_found p :
  is_Some (find (hasId "theme-animations") (elements (document p))) →
  applyAnimationStyles p = Normal tt p.
Proof.
  intros [e He].
  unfold applyAnimationStyles, getElementById, read, mbind, JS_bind.
  by rewrite He.
Qed.

Lemma applyAnimationStyles_fresh p :
  find (hasId "theme-animations") (elements (document p)) = None →
  applyAnimationStyles p =
    Normal tt
      (pageOf ((modify (updDocument (appendToHead
                  (mkElement "STYLE" {[ "id" := "theme-animations" ]}
                     animationStyles "")));;
                emit (AppendStyle "theme-animations")) p)).
Proof.
  intros Hfind. unfold applyAnimationStyles, getElementById, read.
  unfold mbind at 1, JS_bind at 1. cbv beta iota. by rewrite Hfind.
Qed.

(** X9: [applyAnimationStyles] installs the style element once. On a page
    without an element of id ['theme-animations'] the first call puts one
    STYLE element with that id at the end of the head, before the elements
    of the body; on a page that has such an element it does nothing;
    either way the element is found afterwards and a further call changes
    nothing. *)
Theorem applyAnimationStyles_once p :
  let p' := pageOf (applyAnimationStyles p) in
  let n := headLength (document p) in
  applyAnimationStyles p = Normal tt p'
  ∧ (is_Some (find (hasId "theme-animations") (elements (document p))) →
     p' = p)
  ∧ (find (hasId "theme-animations") (elements (document p)) = None →
     elements (document p') =
       take n (elements (document p))
       ++ mkElement "STYLE" {[ "id" := "theme-animations" ]}
            animationStyles ""
          :: drop n (elements (document p))
     ∧ headLength (document p') = S n)
  ∧ is_Some (find (hasId "theme-animations") (elements (document p')))
  ∧ applyAnimationStyles p' = Normal tt p'.
Proof.
  intros p' n. subst p' n.
  destruct (find (hasId "theme-animations") (elements (document p)))
    as [e|] eqn:Hfind.
  - assert (is_Some (find (hasId "theme-animations") (elements (document p))))
      as Hsome by (by rewrite Hfind).
    rewrite (applyAnimationStyles_found p Hsome). simpl.
    split; [done|]. split; [done|]. split; [done|].
    split; [done|]. by apply applyAnimationStyles_found.
  - rewrite (applyAnimationStyles_fresh p Hfind). simpl.
    assert (is_Some (find (hasId "theme-animations")
              (take (headLength (document p)) (elements (document p))
               ++ mkElement "STYLE" {[ "id" := "theme-animations" ]}
                    animationStyles ""
                  :: drop (headLength (document p)) (elements (document p)))))
      as Hnow.
    { rewrite find_inserted_new; [by eexists | done |].
      by apply bool_decide_eq_true_2, lookup_singleton_eq. }
    split; [done|]. split; [by intros [? ?]|]. split; [done|].
    split; [done|]. by apply applyAnimationStyles_found.
Qed.

(** X10: the bindings degrade silently. On a page with neither control
    [setupEventListeners] changes nothing; without the language selector it
    never throws, and it registers the click listener exactly when the
    toggle button is on the page. *)
Theorem setupEventListeners_without_controls p :
  find (hasId "language-select") (elements (document p)) = None →
  let p' := pageOf (setupEventListeners p) in
  setupEventListeners p = Normal tt p'
  ∧ (find (hasId "theme-toggle") (elements (document p)) = None → p' = p)
  ∧ (is_Some (find (hasId "theme-toggle") (elements (document p))) →
     listeners p' = listeners p ++ [ToggleClickListener])
  ∧ LanguageSelectListener ∉ drop (length (listeners p)) (listeners p').
Proof.
  intros Hsel p'. subst p'.
  destruct (find (hasId "theme-toggle") (elements (document p)))
    as [btn|] eqn:Hbtn.
  - set (q := pageOf (addEventListener ToggleClickListener p)).
    assert (find (hasId "language-select")
              (elements (document (pageOf (updateThemeToggleButton q))))
            = None) as Hsel'.
    { rewrite (updateThemeToggleButton_elements q btn) by done.
      rewrite !find_updateFirst_other; [done| | | |];
        first [ apply hasId_updContent
              | intros e; by apply hasId_updAttrs
              | intros e; by apply hasId_disjoint ]. }
    assert (setupEventListeners p =
              Normal tt (pageOf (updateThemeToggleButton q))) as ->.
    { unfold setupEventListeners, getElementById, read.
      unfold mbind at 1 2, JS_bind at 1 2. cbv beta iota. rewrite Hbtn.
      rewrite (bind_normal _ _ _ tt q) by reflexivity.
      rewrite (updateThemeToggleButton_completes q).
      unfold mbind at 1, JS_bind at 1. cbv beta iota. by rewrite Hsel'. }
    simpl pageOf.
    assert (listeners (pageOf (updateThemeToggleButton q)) =
              listeners p ++ [ToggleClickListener]) as Hls.
    { by rewrite updateThemeToggleButton_listeners. }
    split; [done|]. split; [done|]. split; [done|].
    rewrite Hls, drop_app_length. by intros ?%list_elem_of_singleton.
  - assert (setupEventListeners p = Normal tt p) as ->.
    { unfold setupEventListeners, getElementById, read, mbind, JS_bind.
      rewrite Hbtn. simpl. by rewrite Hsel. }
    simpl. split; [done|]. split; [done|]. split; [by intros [? ?]|].
    rewrite drop_all. apply not_elem_of_nil.
Qed.

End Controls.

(** ** [setLanguage] and its timers *)

Section DeferredTranslation.

Lemma updatePageTranslations_shell langCode p :
  style (document (pageOf (updatePageTranslations langCode p)))
    = style (document p)
  ∧ timers (pageOf (updatePageTranslations langCode p)) = timers p.
Proof.
  pose proof (updatePageTranslations_shellView langCode p) as H.
  unfold unchanged, shellView in H. by injection H as _ _ _ -> -> _ _.
Qed.

Lemma setLanguage_elements langCode animate p :
  elements (document (pageOf (setLanguage langCode animate p))) =
    elements (document p).
Proof. unfold setLanguage. by destruct (supported langCode), animate. Qed.

Lemma setLanguage_realm langCode animate p :
  realm (pageOf (setLanguage langCode animate p)) = realm p.
Proof. unfold setLanguage. by destruct (supported langCode), animate. Qed.

Lemma setLanguage_timers langCode animate p :
  timers (pageOf (setLanguage langCode animate p)) =
    timers p ++ [(SwapTranslations (resolvedCode langCode) animate, 150)].
Proof.
  unfold setLanguage, resolvedCode. by destruct (supported langCode), animate.
Qed.

Lemma setLanguage_style langCode animate p :
  style (document (pageOf (setLanguage langCode animate p))) =
    if animate
    then <["transition" := "opacity 0.3s ease-in-out"]>
           (<["opacity" := "0.7"]> (style (document p)))
    else style (document p).
Proof. unfold setLanguage. by destruct (supported langCode), animate. Qed.

Lemma runCallback_SwapTranslations code animate q :
  code ∈ SUPPORTED_LANGUAGES →
  runCallback (SwapTranslations code animate) q =
    (when animate
       (setStyle "opacity" "1";; setTimeout ClearTransitionStyle 300);;
     dispatchLanguageChangeEvent code)
      (pageOf (updatePageTranslations code q)).
Proof.
  intros Hin. unfold runCallback.
  by rewrite (bind_normal _ _ _ tt (pageOf (updatePageTranslations code q)))
    by (by apply updatePageTranslations_completes).
Qed.

(** What the firing of the [SwapTranslations] timer leaves. *)
Lemma swap_fires code animate q :
  code ∈ SUPPORTED_LANGUAGES →
  let q' := pageOf (attempt (runCallback (SwapTranslations code animate)) q) in
  elements (document q') =
    elements (document (pageOf (updatePageTranslations code q)))
  ∧ last (log q') = Some (DispatchEvent (LanguageChange code code))
  ∧ timers q' =
      timers q ++ (if animate then [(ClearTransitionStyle, 300)] else [])
  ∧ style (document q') =
      if animate then <["opacity" := "1"]> (style (document q))
      else style (document q).
Proof.
  intros Hin q'. subst q'. unfold attempt. cbn [pageOf].
  rewrite runCallback_SwapTranslations by done.
  destruct (updatePageTranslations_shell code q) as [Hst Hts].
  revert Hst Hts. generalize (pageOf (updatePageTranslations code q)).
  intros r Hst Hts. rewrite <- Hst, <- Hts.
  destruct animate; simpl; rewrite ?app_nil_r, ?last_snoc; done.
Qed.

(** X11: [setLanguage] translates nothing itself. It leaves every element
    as it is and schedules one timer of 150 ms; when that timer fires the
    elements become what [updatePageTranslations] makes of them for the
    supported code, and the [languageChange] event for that code is the
    last thing done. An animated change dims the root first, restores the
    opacity when the timer fires and leaves one more timer, whose firing
    removes the inline transition; a change that is not animated leaves the
    inline style alone. *)
Theorem setLanguage_translates_on_timer langCode animate p :
  let code := resolvedCode langCode in
  let p1 := pageOf (setLanguage langCode animate p) in
  let p2 := pageOf (fireTimer (length (timers p)) p1) in
  let p3 := pageOf (fireTimer (length (timers p)) p2) in
  elements (document p1) = elements (document p)
  ∧ timers p1 = timers p ++ [(SwapTranslations code animate, 150)]
  ∧ elements (document p2) =
      elements (document (pageOf (updatePageTranslations code p)))
  ∧ last (log p2) = Some (DispatchEvent (LanguageChange code code))
  ∧ (if animate
     then style (document p1) !! "opacity" = Some "0.7"
          ∧ style (document p2) !! "opacity" = Some "1"
          ∧ timers p2 = timers p ++ [(ClearTransitionStyle, 300)]
          ∧ style (document p3) !! "transition" = None
          ∧ style (document p3) !! "opacity" = Some "1"
          ∧ timers p3 = timers p
          ∧ elements (document p3) = elements (document p2)
     else style (document p2) = style (document p)
          ∧ timers p2 = timers p).
Proof.
  intros code p1 p2 p3.
  pose proof (setLanguage_timers langCode animate p) as Hts. fold code p1 in Hts.
  assert (elements (document p1) = elements (document p)) as Hels
    by apply setLanguage_elements.
  pose proof (setLanguage_style langCode animate p) as Hstyle. fold p1 in Hstyle.
  set (q := updTimers (λ _, timers p) p1).
  assert (p2 = pageOf (attempt (runCallback (SwapTranslations code animate)) q))
    as Hp2.
  { unfold p2. by rewrite (fireTimer_last _ _ _ _ Hts). }
  destruct (swap_fires code animate q (resolvedCode_in_supported langCode))
    as (He2 & Hl2 & Ht2 & Hs2).
  rewrite <- Hp2 in He2, Hl2, Ht2, Hs2.
  change (timers q) with (timers p) in Ht2.
  change (style (document q)) with (style (document p1)) in Hs2.
  split; [done|]. split; [done|].
  split.
  { rewrite He2,
      !updatePageTranslations_elements by apply resolvedCode_in_supported.
    change (elements (document q)) with (elements (document p1)).
    change (realm q) with (realm p1).
    pose proof (setLanguage_realm langCode animate p) as Hr. fold p1 in Hr.
    by rewrite Hels, Hr. }
  split; [done|].
  destruct animate.
  - split; [rewrite Hstyle, lookup_insert_ne by done; apply lookup_insert_eq|].
    split; [rewrite Hs2; apply lookup_insert_eq|].
    split; [done|].
    assert (timers p2 = timers p ++ [(ClearTransitionStyle, 300)]) as Ht2'
      by done.
    unfold p3. rewrite (fireTimer_last _ _ _ _ Ht2').
    unfold attempt, runCallback. cbn [pageOf]. simpl.
    rewrite lookup_delete_eq, lookup_delete_ne by done.
    rewrite Hs2, lookup_insert_eq. done.
  - rewrite app_nil_r in Ht2. split; [congruence | done].
Qed.

End DeferredTranslation.

(** ** The two preferences do not interfere *)

Section Independence.

Lemma setLanguage_document langCode animate p :
  document (pageOf (setLanguage langCode animate p)) =
    mkDocument (classList (document p))
      (<["lang" := resolvedCode langCode]> (attributes (document p)))
      (if animate
       then <["transition" := "opacity 0.3s ease-in-out"]>
              (<["opacity" := "0.7"]> (style (document p)))
       else style (document p))
      (elements (document p))
      (headLength (document p)).
Proof.
  unfold setLanguage, resolvedCode. by destruct (supported langCode), animate.
Qed.

Lemma themeVariables_fade isDark st :
  themeVariables isDark
    (<["transition" := "opacity 0.3s ease-in-out"]> (<["opacity" := "0.7"]> st))
  = <["transition" := "opacity 0.3s ease-in-out"]>
      (<["opacity" := "0.7"]> (themeVariables isDark st)).
Proof.
  unfold themeVariables.
  destruct isDark;
    do 7 rewrite (insert_insert_ne _ _ "transition") by done;
    by do 7 rewrite (insert_insert_ne _ _ "opacity") by done.
Qed.

(** X20: the theme and the language do not interfere. [setTheme] followed
    by [setLanguage] leaves the same document and the same storage as
    [setLanguage] followed by [setTheme], whatever the arguments and the
    animation flags; in either order the dark class is on the root exactly
    when [isDark], the [lang] attribute is the supported code, and both
    are stored. *)
Theorem theme_and_language_independent isDark animateTheme langCode animateLang p :
  let pTL :=
    pageOf (setLanguage langCode animateLang
              (pageOf (setTheme isDark animateTheme p))) in
  let pLT :=
    pageOf (setTheme isDark animateTheme
              (pageOf (setLanguage langCode animateLang p))) in
  document pTL = document pLT
  ∧ localStorage pTL = localStorage pLT
  ∧ appliedDark pTL = isDark
  ∧ attributes (document pTL) !! "lang" = Some (resolvedCode langCode)
  ∧ localStorage pTL !! THEME_STORAGE_KEY = Some (themeName isDark)
  ∧ localStorage pTL !! LANGUAGE_STORAGE_KEY = Some (resolvedCode langCode).
Proof.
  intros pTL pLT.
  assert (document pTL = document pLT) as Hdoc.
  { unfold pTL, pLT.
    rewrite setLanguage_document, !setTheme_document, setLanguage_document.
    cbn [classList attributes style elements headLength]. f_equal.
    destruct animateLang; [|done]. by rewrite themeVariables_fade. }
  assert (localStorage pTL = localStorage pLT) as Hst.
  { unfold pTL, pLT.
    rewrite setLanguage_localStorage, !setTheme_localStorage,
      setLanguage_localStorage.
    by apply insert_insert_ne. }
  split; [done|]. split; [done|].
  split.
  { unfold appliedDark. rewrite Hdoc. apply appliedDark_setTheme. }
  split; [unfold pTL; rewrite setLanguage_attributes; apply lookup_insert_eq|].
  split.
  { rewrite Hst. unfold pLT. rewrite setTheme_localStorage.
    apply lookup_insert_eq. }
  unfold pTL. rewrite setLanguage_localStorage. apply lookup_insert_eq.
Qed.

End Independence.

(** ** The load: what the constructor leaves *)

Section Load.

Lemma setupEventListeners_halves p :
  setupEventListeners p = (bindToggle;; bindSelect) p.
Proof. reflexivity. Qed.

Lemma present_true id l e : find (hasId id) l = Some e → present id l = true.
Proof. intros H. apply bool_decide_eq_true_2. by exists e. Qed.

Lemma present_false id l : find (hasId id) l = None → present id l = false.
Proof. intros H. apply bool_decide_eq_false_2. rewrite H. by intros [? ?]. Qed.

Lemma hasId_updValue id v e : hasId id (updValue v e) = hasId id e.
Proof. reflexivity. Qed.

Lemma updateThemeToggleButton_absent p :
  find (hasId "theme-toggle") (elements (document p)) = None →
  updateThemeToggleButton p = Normal tt p.
Proof.
  intros H. unfold updateThemeToggleButton, getElementById, read, mbind, JS_bind.
  by rewrite H.
Qed.

Lemma updateThemeToggleButton_find_other p id :
  id ≠ "theme-toggle" →
  find (hasId id) (elements (document (pageOf (updateThemeToggleButton p)))) =
    find (hasId id) (elements (document p)).
Proof.
  intros Hne.
  destruct (find (hasId "theme-toggle") (elements (document p)))
    as [btn|] eqn:Hbtn.
  - rewrite (updateThemeToggleButton_elements p btn) by done.
    rewrite !find_updateFirst_other; [done| | | |];
      first [ apply hasId_updContent
            | intros e; by apply hasId_updAttrs
            | intros e; by apply hasId_disjoint ].
  - by rewrite updateThemeToggleButton_absent.
Qed.

Lemma bindToggle_eq p :
  bindToggle p =
    if present "theme-toggle" (elements (document p))
    then updateThemeToggleButton
           (pageOf (addEventListener ToggleClickListener p))
    else Normal tt p.
Proof.
  unfold bindToggle, getElementById, read.
  unfold mbind at 1, JS_bind at 1. cbv beta iota.
  destruct (find (hasId "theme-toggle") (elements (document p)))
    as [btn|] eqn:Hbtn.
  - by rewrite (present_true _ _ _ Hbtn).
  - by rewrite (present_false _ _ Hbtn).
Qed.

Lemma bindToggle_completes : completes bindToggle.
Proof.
  intros p. rewrite bindToggle_eq.
  destruct (present _ _); [apply updateThemeToggleButton_completes | done].
Qed.

(** What the first binding leaves. *)
Lemma bindToggle_shape p :
  let p' := pageOf (bindToggle p) in
  listeners p' =
    listeners p
    ++ (if present "theme-toggle" (elements (document p))
        then [ToggleClickListener] else [])
  ∧ timers p' = timers p
  ∧ localStorage p' = localStorage p
  ∧ appliedDark p' = appliedDark p
  ∧ (∀ id, id ≠ "theme-toggle" →
       find (hasId id) (elements (document p')) =
         find (hasId id) (elements (document p)))
  ∧ (∀ btn,
       find (hasId "theme-toggle") (elements (document p)) = Some btn →
       ∃ btn',
         find (hasId "theme-toggle") (elements (document p')) = Some btn'
         ∧ attrs btn' !! "aria-label" = Some (toggleLabel (appliedDark p))
         ∧ content btn' = toggleIcon (appliedDark p)).
Proof.
  intros p'. subst p'. rewrite bindToggle_eq.
  destruct (find (hasId "theme-toggle") (elements (document p)))
    as [btn|] eqn:Hbtn.
  - rewrite (present_true _ _ _ Hbtn).
    set (q := pageOf (addEventListener ToggleClickListener p)).
    destruct (updateThemeToggleButton_root q) as (Hcl & _ & Hst).
    rewrite updateThemeToggleButton_listeners, updateThemeToggleButton_timers.
    unfold appliedDark. rewrite Hcl, Hst.
    split; [done|]. split; [done|]. split; [done|]. split; [done|].
    split; [intros id Hne; by rewrite updateThemeToggleButton_find_other|].
    intros btn0 [= <-].
    by apply (updateThemeToggleButton_shows q btn).
  - rewrite (present_false _ _ Hbtn). simpl. rewrite app_nil_r.
    by repeat split.
Qed.

(** What the second binding leaves, once a language is stored. *)
Lemma bindSelect_shape p code :
  localStorage p !! LANGUAGE_STORAGE_KEY = Some code → code ≠ "" →
  let p' := pageOf (bindSelect p) in
  bindSelect p = Normal tt p'
  ∧ listeners p' =
      listeners p
      ++ (if present "language-select" (elements (document p))
          then [LanguageSelectListener] else [])
  ∧ timers p' = timers p
  ∧ localStorage p' = localStorage p
  ∧ classList (document p') = classList (document p)
  ∧ (∀ id, id ≠ "language-select" →
       find (hasId id) (elements (document p')) =
         find (hasId id) (elements (document p)))
  ∧ present "language-select" (elements (document p')) =
      present "language-select" (elements (document p))
  ∧ log p' =
      log p
      ++ (if present "language-select" (elements (document p))
          then [AddEventListener LanguageSelectListener;
                SetSelectValue "language-select" code]
          else []).
Proof.
  intros Hst Hne p'. subst p'.
  assert (truthy (Some code) = true) as Ht by by apply truthy_Some.
  destruct (find (hasId "language-select") (elements (document p)))
    as [sel|] eqn:Hsel.
  - rewrite (present_true _ _ _ Hsel).
    assert (bindSelect p =
              Normal tt
                (pageOf ((updateById "language-select"
                            (updValue (selected code));;
                          emit (SetSelectValue "language-select" code))
                           (pageOf (addEventListener LanguageSelectListener p)))))
      as ->.
    { unfold bindSelect, getElementById, getItem, read.
      unfold mbind at 1, JS_bind at 1. cbv beta iota. rewrite Hsel.
      rewrite (bind_normal _ _ _ tt
                 (pageOf (addEventListener LanguageSelectListener p)))
        by reflexivity.
      rewrite (bind_normal _ _ _ (Some code)
                 (pageOf (addEventListener LanguageSelectListener p)))
        by (simpl; by rewrite Hst).
      rewrite Ht. reflexivity. }
    simpl. rewrite <- app_assoc.
    split; [done|]. split; [done|]. split; [done|]. split; [done|].
    split; [done|]. split; [|split; [|done]].
    + intros id Hid. apply find_updateFirst_other.
      * intros e. apply hasId_updValue.
      * intros e. apply hasId_disjoint. done.
    + apply (present_true _ _ (updValue (selected code) sel)).
      rewrite find_updateFirst by apply hasId_updValue. by rewrite Hsel.
  - rewrite (present_false _ _ Hsel).
    assert (bindSelect p = Normal tt p) as ->.
    { unfold bindSelect, getElementById, read, mbind, JS_bind.
      by rewrite Hsel. }
    simpl. rewrite !app_nil_r. repeat split; try done.
    by apply present_false.
Qed.

(** What [applyAnimationStyles] leaves. *)
Lemma applyAnimationStyles_shape p :
  let p' := pageOf (applyAnimationStyles p) in
  applyAnimationStyles p = Normal tt p'
  ∧ listeners p' = listeners p
  ∧ timers p' = timers p
  ∧ localStorage p' = localStorage p
  ∧ classList (document p') = classList (document p)
  ∧ (∀ id, id ≠ "theme-animations" →
       find (hasId id) (elements (document p')) =
         find (hasId id) (elements (document p)))
  ∧ (∃ es, log p' = log p ++ es)
  ∧ is_Some (find (hasId "theme-animations") (elements (document p'))).
Proof.
  intros p'. subst p'.
  destruct (find (hasId "theme-animations") (elements (document p)))
    as [e|] eqn:Hfind.
  - assert (is_Some (find (hasId "theme-animations") (elements (document p))))
      as Hsome by (by rewrite Hfind).
    rewrite (applyAnimationStyles_found p Hsome). simpl.
    repeat split; [by exists []; rewrite app_nil_r | done].
  - rewrite (applyAnimationStyles_fresh p Hfind). simpl.
    repeat split; [| by eexists |].
    + intros id Hid. apply find_inserted_other.
      apply (hasId_disjoint "theme-animations" id); [done|].
      by apply bool_decide_eq_true_2, lookup_singleton_eq.
    + rewrite find_inserted_new; [by eexists | done |].
      by apply bool_decide_eq_true_2, lookup_singleton_eq.
Qed.

Lemma initializeTheme_elements p :
  elements (document (pageOf (initializeTheme p))) = elements (document p).
Proof. rewrite initializeTheme_eq. destruct (resolvedDark p); simpl; reflexivity. Qed.

Lemma initializeTheme_language html p0 :
  let pT := pageOf (initializeTheme (freshPage html p0)) in
  localStorage pT !! LANGUAGE_STORAGE_KEY =
    localStorage p0 !! LANGUAGE_STORAGE_KEY
  ∧ browserLocale pT = browserLocale p0.
Proof.
  intros pT. subst pT. rewrite initializeTheme_localStorage.
  rewrite lookup_insert_ne by done. split; [done|].
  unfold browserLocale.
  by destruct (initializeTheme_environment (freshPage html p0)) as [-> ->].
Qed.

Lemma usableLanguage_cases p :
  usableLanguage p
  ∨ (∀ s, localStorage p !! LANGUAGE_STORAGE_KEY = Some s →
          s ∉ SUPPORTED_LANGUAGES).
Proof.
  unfold usableLanguage.
  destruct (localStorage p !! LANGUAGE_STORAGE_KEY) as [s|];
    [|right; intros s [=]].
  destruct (decide (s ∈ SUPPORTED_LANGUAGES)) as [Hin|Hout].
  - left. by exists s.
  - right. by intros s' [= <-].
Qed.

Lemma initializeLanguage_outcome p :
  (usableLanguage p ∨ is_Some (browserLocale p) →
   ∃ code, supported code = true
           ∧ initializeLanguage p = setLanguage code false p)
  ∧ (¬ usableLanguage p → browserLocale p = None →
     initializeLanguage p = Abrupt TypeError p).
Proof.
  split.
  - intros H.
    destruct (usableLanguage_cases p) as [(s & Hs & Hin)|Hno].
    + exists s. split; [by apply supported_iff|].
      by apply initializeLanguage_stored.
    + destruct H as [(s & Hs & Hin)|[locale Hloc]]; [by destruct (Hno s Hs)|].
      exists (detectedCode locale). split; [apply detectedCode_supported|].
      by apply initializeLanguage_detected.
  - intros Hno Hloc. apply initializeLanguage_no_locale; [|done].
    intros s Hs Hin. apply Hno. by exists s.
Qed.

Lemma setLanguage_listeners langCode animate p :
  listeners (pageOf (setLanguage langCode animate p)) = listeners p.
Proof. unfold setLanguage. by destruct (supported langCode), animate. Qed.

Lemma setLanguage_classList langCode animate p :
  classList (document (pageOf (setLanguage langCode animate p))) =
    classList (document p).
Proof. unfold setLanguage. by destruct (supported langCode), animate. Qed.

(** A load whose language resolves to [code], stage by stage. *)
Lemma boot_normal html p0 code :
  let pT := pageOf (initializeTheme (freshPage html p0)) in
  let pL := pageOf (setLanguage code false pT) in
  let pB := pageOf (bindToggle pL) in
  let pS := pageOf (bindSelect pB) in
  supported code = true →
  initializeLanguage pT = setLanguage code false pT →
  localStorage pB !! LANGUAGE_STORAGE_KEY = Some code
  ∧ boot html p0 = applyAnimationStyles pS.
Proof.
  intros pT pL pB pS Hsup Hinit.
  assert (localStorage pB !! LANGUAGE_STORAGE_KEY = Some code) as Hst.
  { unfold pB. destruct (bindToggle_shape pL) as (_ & _ & -> & _).
    unfold pL. rewrite setLanguage_localStorage, lookup_insert_eq.
    by rewrite resolvedCode_supported. }
  split; [done|].
  unfold boot. rewrite constructor_afterTheme. fold pT. unfold afterTheme.
  rewrite (bind_normal _ _ _ tt pL)
    by (rewrite Hinit; apply setLanguage_completes).
  cbv beta.
  apply (bind_normal setupEventListeners (λ _, applyAnimationStyles) pL tt pS).
  rewrite setupEventListeners_halves.
  rewrite (bind_completes _ _ _ bindToggle_completes). fold pB.
  apply (bindSelect_shape pB code Hst), supported_nonempty, Hsup.
Qed.

(** X12: a load completes exactly when a language can be resolved: a
    supported code is stored, or the browser reports a locale. *)
Theorem load_completes_iff html p0 :
  isNormal (boot html p0) = true
  ↔ usableLanguage p0 ∨ is_Some (browserLocale p0).
Proof.
  set (pT := pageOf (initializeTheme (freshPage html p0))).
  destruct (initializeTheme_language html p0) as [Hst Hloc]. fold pT in Hst, Hloc.
  assert (usableLanguage pT ↔ usableLanguage p0) as Huse
    by (unfold usableLanguage; by rewrite Hst).
  destruct (initializeLanguage_outcome pT) as [Hok Hno].
  split.
  - intros Hnormal.
    destruct (usableLanguage_cases p0) as [Hu|Hnu]; [by left|].
    destruct (browserLocale p0) as [locale|] eqn:Hl; [right; by eexists|].
    exfalso. revert Hnormal.
    unfold boot. rewrite constructor_afterTheme. fold pT. unfold afterTheme.
    unfold mbind at 1, JS_bind at 1.
    rewrite Hno; [done| |by rewrite Hloc].
    intros (s & Hs & Hin). rewrite Hst in Hs. by destruct (Hnu s Hs).
  - intros H.
    destruct Hok as (code & Hsup & Hinit).
    { rewrite Huse, Hloc. exact H. }
    destruct (boot_normal html p0 code Hsup Hinit) as [_ ->].
    by rewrite (proj1 (applyAnimationStyles_shape _)).
Qed.

(** X13: a load that cannot resolve a language stops half way. With no
    supported code stored and no locale reported, the constructor throws a
    [TypeError] out of [initializeLanguage]; the theme is applied and
    stored and the listener for the system preference registered, and that
    is all: no language is applied, no control is bound, no style element
    installed, no timer pending. On a document without a [lang] attribute
    [getCurrentLanguage] then answers ['en'], which was neither applied nor
    stored. *)
Theorem load_without_locale_aborts html p0 :
  ¬ usableLanguage p0 → browserLocale p0 = None →
  let p := pageOf (boot html p0) in
  boot html p0 = Abrupt TypeError p
  ∧ appliedDark p = resolvedDark p0
  ∧ localStorage p =
      <[THEME_STORAGE_KEY := themeName (resolvedDark p0)]> (localStorage p0)
  ∧ listeners p = [SystemThemeListener]
  ∧ timers p = []
  ∧ elements (document p) = elements html
  ∧ attributes (document p) = attributes html
  ∧ log p = themeEffects (resolvedDark p0)
  ∧ (attributes html !! "lang" = None →
     getCurrentLanguage p = Normal "en" p).
Proof.
  intros Hnu Hnl p.
  set (pT := pageOf (initializeTheme (freshPage html p0))).
  destruct (initializeTheme_language html p0) as [Hst Hloc]. fold pT in Hst, Hloc.
  assert (boot html p0 = Abrupt TypeError pT) as Hboot.
  { unfold boot. rewrite constructor_afterTheme. fold pT. unfold afterTheme.
    unfold mbind at 1, JS_bind at 1.
    rewrite (proj2 (initializeLanguage_outcome pT)); [done| |congruence].
    unfold usableLanguage. by rewrite Hst. }
  subst p. rewrite Hboot. cbn [pageOf]. unfold pT.
  split; [done|].
  split.
  { unfold appliedDark. rewrite initializeTheme_classList.
    apply (appliedDark_setTheme _ false (freshPage html p0)). }
  split; [exact (initializeTheme_localStorage (freshPage html p0))|].
  split; [exact (initializeTheme_listeners (freshPage html p0))|].
  split; [exact (initializeTheme_timers (freshPage html p0))|].
  split; [exact (initializeTheme_elements (freshPage html p0))|].
  split; [exact (initializeTheme_attributes (freshPage html p0))|].
  split; [exact (initializeTheme_log (freshPage html p0))|].
  intros Hlang.
  unfold getCurrentLanguage, getAttribute, read, mbind, JS_bind, mret, JS_ret.
  rewrite (initializeTheme_attributes (freshPage html p0)).
  change (attributes (document (freshPage html p0))) with (attributes html).
  by rewrite Hlang.
Qed.

(** What a load that resolves a language leaves. *)
Lemma boot_shape html p0 :
  usableLanguage p0 ∨ is_Some (browserLocale p0) →
  let p := pageOf (boot html p0) in
  ∃ code,
    code ∈ SUPPORTED_LANGUAGES
    ∧ boot html p0 = Normal tt p
    ∧ localStorage p !! LANGUAGE_STORAGE_KEY = Some code
    ∧ timers p = [(SwapTranslations code false, 150)]
    ∧ listeners p =
        SystemThemeListener
        :: (if present "theme-toggle" (elements html)
            then [ToggleClickListener] else [])
        ++ (if present "language-select" (elements html)
            then [LanguageSelectListener] else [])
    ∧ (present "language-select" (elements html) = true →
       SetSelectValue "language-select" code ∈ log p)
    ∧ (∀ btn,
         find (hasId "theme-toggle") (elements html) = Some btn →
         ∃ btn',
           find (hasId "theme-toggle") (elements (document p)) = Some btn'
           ∧ attrs btn' !! "aria-label" = Some (toggleLabel (appliedDark p))
           ∧ content btn' = toggleIcon (appliedDark p))
    ∧ is_Some (find (hasId "theme-animations") (elements (document p)))
    ∧ present "language-select" (elements (document p)) =
        present "language-select" (elements html).
Proof.
  intros H p.
  set (pT := pageOf (initializeTheme (freshPage html p0))).
  destruct (initializeTheme_language html p0) as [Hst Hloc]. fold pT in Hst, Hloc.
  destruct (proj1 (initializeLanguage_outcome pT)) as (code & Hsup & Hinit).
  { unfold usableLanguage. by rewrite Hst, Hloc. }
  exists code. split; [by apply supported_iff|].
  destruct (boot_normal html p0 code Hsup Hinit) as [HstB Hboot]. fold pT in HstB, Hboot.
  set (pL := pageOf (setLanguage code false pT)) in *.
  set (pB := pageOf (bindToggle pL)) in *.
  set (pS := pageOf (bindSelect pB)) in *.
  assert (elements (document pL) = elements html) as HelL.
  { unfold pL, pT. by rewrite setLanguage_elements, initializeTheme_elements. }
  destruct (bindToggle_shape pL)
    as (HlB & HtB & _ & HdB & HoB & HbB). fold pB in HlB, HtB, HdB, HoB, HbB.
  destruct (bindSelect_shape pB code HstB (supported_nonempty _ Hsup))
    as (_ & HlS & HtS & HsS & HcS & HoS & HpS & HgS).
  fold pS in HlS, HtS, HsS, HcS, HoS, HpS, HgS.
  destruct (applyAnimationStyles_shape pS)
    as (Hnorm & HlA & HtA & HsA & HcA & HoA & [es HgA] & Hstyle).
  assert (p = pageOf (applyAnimationStyles pS)) as Hp
    by (unfold p; by rewrite Hboot).
  rewrite <- Hp in Hnorm, HlA, HtA, HsA, HcA, HoA, HgA, Hstyle.
  assert (present "language-select" (elements (document pB)) =
            present "language-select" (elements html)) as HpresS
    by (unfold present; by rewrite HoB, HelL).
  rewrite HelL in HlB. rewrite HpresS in HlS, HgS, HpS.
  split; [by rewrite Hboot|].
  split; [by rewrite HsA, HsS|].
  split.
  { rewrite HtA, HtS, HtB. unfold pL, pT.
    rewrite setLanguage_timers, initializeTheme_timers.
    by rewrite resolvedCode_supported. }
  split.
  { rewrite HlA, HlS, HlB. unfold pL, pT.
    by rewrite setLanguage_listeners, initializeTheme_listeners. }
  split.
  { intros Hsel. rewrite HgA, HgS, Hsel.
    apply elem_of_app. left. apply elem_of_app. right.
    apply list_elem_of_further, list_elem_of_here. }
  split; [|split; [done|]].
  - intros btn Hbtn. rewrite <- HelL in Hbtn.
    destruct (HbB btn Hbtn) as (btn' & Hf & Ha & Hc).
    assert (appliedDark p = appliedDark pL) as ->
      by (unfold appliedDark in *; by rewrite HcA, HcS, HdB).
    exists btn'. split; [|done].
    by rewrite HoA, HoS.
  - rewrite <- HpS. unfold present. by rewrite HoA.
Qed.

(** X14: a load that resolves a language binds the controls the page has.
    It completes; the translation into the resolved code is the one timer
    pending; after the listener for the system preference come the click
    listener, when the page has the toggle button, and the change
    listener, when it has the language selector, and no other; the
    selector is assigned the resolved code; the button carries the label
    and the icon of the applied theme; and the style element is on the
    page. *)
Theorem load_wires_controls html p0 :
  usableLanguage p0 ∨ is_Some (browserLocale p0) →
  let p := pageOf (boot html p0) in
  ∃ code,
    code ∈ SUPPORTED_LANGUAGES
    ∧ boot html p0 = Normal tt p
    ∧ localStorage p !! LANGUAGE_STORAGE_KEY = Some code
    ∧ timers p = [(SwapTranslations code false, 150)]
    ∧ listeners p =
        SystemThemeListener
        :: (if present "theme-toggle" (elements html)
            then [ToggleClickListener] else [])
        ++ (if present "language-select" (elements html)
            then [LanguageSelectListener] else [])
    ∧ (present "language-select" (elements html) = true →
       SetSelectValue "language-select" code ∈ log p)
    ∧ (∀ btn,
         find (hasId "theme-toggle") (elements html) = Some btn →
         ∃ btn',
           find (hasId "theme-toggle") (elements (document p)) = Some btn'
           ∧ attrs btn' !! "aria-label" = Some (toggleLabel (appliedDark p))
           ∧ content btn' = toggleIcon (appliedDark p))
    ∧ is_Some (find (hasId "theme-animations") (elements (document p))).
Proof.
  intros H p.
  destruct (boot_shape html p0 H)
    as (code & H1 & H2 & H3 & H4 & H5 & H6 & H7 & H8 & _).
  exists code. by repeat split.
Qed.

Lemma notify_single l (h : JS unit) p :
  filter (λ x, x = l) (listeners p) = [l] →
  notify l h p = Normal tt (pageOf (h p)).
Proof.
  intros Hf. unfold notify, read. unfold mbind at 1, JS_bind at 1.
  rewrite Hf. reflexivity.
Qed.

Lemma notify_none l (h : JS unit) p :
  filter (λ x, x = l) (listeners p) = [] → notify l h p = Normal tt p.
Proof.
  intros Hf. unfold notify, read. unfold mbind at 1, JS_bind at 1.
  rewrite Hf. reflexivity.
Qed.

Lemma updateById_absent id f p :
  find (hasId id) (elements (document p)) = None →
  pageOf (updateById id f p) = p.
Proof.
  intros H. unfold updateById, modify. cbn [pageOf].
  unfold updDocument, updElements. rewrite updateFirst_None by done.
  destruct p as [? d ? ? ? ? ? ? ? ?]. by destruct d.
Qed.

(** X15: after a load each control reaches its handler once, and only a
    control the page had. A click on the toggle button is one call of
    [toggleTheme] when the page was loaded with the button, and changes
    nothing otherwise; a change of the selector to [v] is one animated
    call of [setLanguage] with [v] when the page was loaded with the
    selector, and changes nothing otherwise. *)
Theorem controls_respond_after_load html p0 v :
  usableLanguage p0 ∨ is_Some (browserLocale p0) →
  let p := pageOf (boot html p0) in
  handle html ClickThemeToggle p =
    (if present "theme-toggle" (elements html)
     then pageOf (toggleTheme p) else p)
  ∧ handle html (ChangeLanguageSelect v) p =
      (if present "language-select" (elements html)
       then pageOf (setLanguage v true
                      (pageOf (updateById "language-select" (updValue v) p)))
       else p).
Proof.
  intros H p.
  destruct (boot_shape html p0 H)
    as (code & _ & _ & _ & _ & Hls & _ & _ & _ & Hsel). fold p in Hls, Hsel.
  split.
  - unfold handle, dispatch.
    destruct (present "theme-toggle" (elements html)).
    + rewrite notify_single; [done|]. rewrite Hls.
      by destruct (present "language-select" (elements html)).
    + rewrite notify_none; [done|]. rewrite Hls.
      by destruct (present "language-select" (elements html)).
  - unfold handle, dispatch.
    rewrite (bind_normal _ _ _ tt
               (pageOf (updateById "language-select" (updValue v) p)))
      by reflexivity.
    assert (listeners (pageOf (updateById "language-select" (updValue v) p))
            = listeners p) as Hl by reflexivity.
    destruct (present "language-select" (elements html)) eqn:Hpres.
    + rewrite notify_single; [done|]. rewrite Hl, Hls.
      by destruct (present "theme-toggle" (elements html)).
    + rewrite notify_none.
      * cbn [pageOf]. apply updateById_absent.
        unfold present in Hsel.
        apply bool_decide_eq_false in Hsel.
        destruct (find (hasId "language-select") (elements (document p)));
          [|done].
        destruct Hsel. by eexists.
      * rewrite Hl, Hls.
        by destruct (present "theme-toggle" (elements html)).
Qed.

End Load.

(** ** What is scheduled and what is dispatched *)

Section Orderly.

#[local] Instance growing_preorder : PreOrder growing.
Proof.
  split.
  - intros p. split; exists []; by rewrite app_nil_r.
  - intros p1 p2 p3 [(ts1 & Ht1 & Hts1) (es1 & He1 & Hes1)]
      [(ts2 & Ht2 & Hts2) (es2 & He2 & Hes2)].
    split.
    + exists (ts1 ++ ts2). rewrite Ht2, Ht1, app_assoc.
      split; [done | by apply Forall_app].
    + exists (es1 ++ es2). rewrite He2, He1, app_assoc.
      split; [done | by apply Forall_app].
Qed.

Ltac growing_item :=
  first
    [ exists []; split; [by rewrite app_nil_r | by apply Forall_nil]
    | eexists; split;
      [ reflexivity
      | apply Forall_singleton; simpl;
        solve [ repeat split; first [done | assumption] ] ] ].

Ltac growing_leaf :=
  cbv [respects growing]; intros ?; simpl; split; growing_item.

Lemma growing_orderly p p' : growing p p' → keeps orderly p p'.
Proof.
  intros [(ts & Ht & Hts) (es & He & Hes)] [Hp1 Hp2].
  split; [rewrite Ht | rewrite He]; by apply Forall_app.
Qed.

Lemma setTheme_growing isDark animate :
  respects growing (setTheme isDark animate).
Proof.
  unfold setTheme, updateThemeVariables, dispatchThemeChangeEvent,
    dispatchEvent.
  destruct isDark, animate; respects_walk ltac:(growing_leaf).
Qed.

Lemma setLanguage_growing langCode animate :
  respects growing (setLanguage langCode animate).
Proof.
  intros p. split.
  - exists [(SwapTranslations (resolvedCode langCode) animate, 150%nat)].
    split; [apply setLanguage_timers|].
    apply Forall_singleton. split; [apply resolvedCode_in_supported | done].
  - revert p. change (respects (appending effectOk) (setLanguage langCode animate)).
    unfold setLanguage.
    destruct (supported langCode), animate;
      respects_walk ltac:(cbv [respects appending]; intros ?; simpl;
                          growing_item).
Qed.

Lemma updatePageTranslations_growing code :
  code ∈ SUPPORTED_LANGUAGES →
  respects growing (updatePageTranslations code).
Proof.
  intros Hcode. unfold updatePageTranslations.
  respects_walk ltac:(growing_leaf).
Qed.

Lemma runCallback_growing cb ms :
  timerOk (cb, ms) → respects growing (runCallback cb).
Proof.
  intros Hok. destruct cb as [|code animate|]; unfold runCallback.
  - growing_leaf.
  - destruct Hok as [Hcode _].
    pose proof (updatePageTranslations_growing code Hcode) as Hupd.
    unfold dispatchLanguageChangeEvent, dispatchEvent.
    destruct animate;
      respects_walk ltac:(first [apply Hupd | growing_leaf]).
  - growing_leaf.
Qed.

Lemma updateThemeToggleButton_growing :
  respects growing updateThemeToggleButton.
Proof.
  unfold updateThemeToggleButton, updateById, classListContains,
    getElementById.
  respects_walk ltac:(growing_leaf).
Qed.

Lemma constructor_growing : respects growing constructor.
Proof.
  pose proof setTheme_growing as Htheme.
  pose proof setLanguage_growing as Hlang.
  pose proof updateThemeToggleButton_growing as Hbtn.
  unfold constructor, initializeTheme, initializeLanguage,
    setupEventListeners, applyAnimationStyles, detectBrowserLanguage,
    updateById, getItem, getElementById.
  respects_walk ltac:(first
    [apply Htheme | apply Hlang | apply Hbtn | growing_leaf]).
Qed.

Lemma boot_orderly html p0 : orderly (pageOf (boot html p0)).
Proof.
  apply (growing_orderly (freshPage html p0)); [apply constructor_growing|].
  split; constructor.
Qed.

Lemma fireTimer_orderly n : respects (keeps orderly) (fireTimer n).
Proof.
  intros p [Hts Hlog]. unfold fireTimer, read.
  unfold mbind at 1, JS_bind at 1. cbv beta iota.
  destruct (timers p !! n) as [[cb ms]|] eqn:Hn; [|by split].
  rewrite (bind_normal _ _ _ tt (updTimers (delete n) p)) by reflexivity.
  unfold attempt. cbn [pageOf].
  apply (growing_orderly (updTimers (delete n) p)).
  - apply (runCallback_growing cb ms).
    exact (proj1 (Forall_lookup _ _) Hts n _ Hn).
  - split; [by apply Forall_delete | done].
Qed.

Lemma dispatch_orderly i : respects (keeps orderly) (dispatch i).
Proof.
  destruct i; try apply fireTimer_orderly;
    apply (respects_mono growing); try exact growing_orderly;
    pose proof setTheme_growing as Htheme;
    pose proof setLanguage_growing as Hlang;
    pose proof updateThemeToggleButton_growing as Hbtn;
    unfold dispatch, toggleTheme, onSystemThemeChange,
      resetToSystemPreferences, locationReload, removeItem, updateById,
      getItem, classListContains;
    respects_walk ltac:(first
      [apply Htheme | apply Hlang | apply Hbtn | growing_leaf]).
Qed.

(** X16: nothing is scheduled or dispatched out of kind. On every page of
    a visit, a pending translation is for a code of the supported set and
    due after 150 ms, every other pending timer is due after 300 ms; every
    translation that was carried out and every [languageChange] event that
    was dispatched is for a supported code, with [language] equal to
    [langCode]; and every [themeChange] event names the theme of its
    [isDark]. *)
Theorem only_supported_translations html p :
  reachable html p →
  (∀ cb ms, (cb, ms) ∈ timers p →
     match cb with
     | SwapTranslations code _ => code ∈ SUPPORTED_LANGUAGES ∧ ms = 150%nat
     | _ => ms = 300%nat
     end)
  ∧ (∀ code, SetTranslations code ∈ log p → code ∈ SUPPORTED_LANGUAGES)
  ∧ (∀ code language,
       DispatchEvent (LanguageChange code language) ∈ log p →
       code ∈ SUPPORTED_LANGUAGES ∧ language = code)
  ∧ (∀ isDark theme,
       DispatchEvent (ThemeChange isDark theme) ∈ log p →
       theme = themeName isDark).
Proof.
  intros Hreach.
  assert (orderly p) as [Hts Hlog].
  { revert p Hreach. apply reachable_invariant.
    - apply boot_orderly.
    - apply dispatch_orderly. }
  rewrite Forall_forall in Hts. rewrite Forall_forall in Hlog.
  split; [intros cb ms Hin; exact (Hts _ Hin)|].
  split; [intros code Hin; exact (Hlog _ Hin)|].
  split; [intros code language Hin; exact (Hlog _ Hin)|].
  intros isDark theme Hin. exact (Hlog _ Hin).
Qed.

End Orderly.

(** ** The hero-image toggler without its elements, and its period *)

Section HeroEdges.

Import HeroToggle.

Lemma clicks_not_listening k s : listening s = false → clicks k s = s.
Proof.
  intros Hl. induction k as [|k IH]; [done|].
  simpl. rewrite IH. unfold click. by rewrite Hl.
Qed.

(** X17: without the button the script stops at line 7. The call of
    [addEventListener] on the missing button throws a [TypeError], no
    handler is registered, and no number of clicks changes the page. *)
Theorem hero_without_button p k :
  find (hasId "themeToggle") (elements (document p)) = None →
  (load p).2 = Some TypeError
  ∧ listening (load p).1 = false
  ∧ clicks k (load p).1 = (load p).1
  ∧ page (clicks k (load p).1) = p.
Proof.
  intros Hbtn.
  assert (load p =
            (mkScript false
               (bool_decide (is_Some (find (hasId "heroImage")
                                        (elements (document p)))))
               0 false p, Some TypeError)) as Hload.
  { unfold load. rewrite Hbtn.
    rewrite (bool_decide_eq_false_2 (is_Some None)) by (by intros [? ?]).
    done. }
  rewrite Hload. cbn [fst snd]. split; [done|]. split; [done|].
  by rewrite clicks_not_listening.
Qed.

Lemma onClick_fields s :
  toggleBtn (onClick s).1 = toggleBtn s
  ∧ heroImage (onClick s).1 = heroImage s
  ∧ listening (onClick s).1 = listening s.
Proof. unfold onClick. by destruct (heroImage s). Qed.

Lemma click_fields s :
  heroImage (click s) = heroImage s ∧ listening (click s) = listening s.
Proof.
  unfold click. destruct (listening s) eqn:Hl; [|done].
  destruct (onClick_fields s) as (_ & -> & ->). done.
Qed.

Lemma clicks_fields k s :
  heroImage (clicks k s) = heroImage s ∧ listening (clicks k s) = listening s.
Proof.
  induction k as [|k [IH1 IH2]]; [done|]. simpl.
  destruct (click_fields (clicks k s)) as [-> ->]. done.
Qed.

Lemma onClick_no_image s :
  heroImage s = false →
  (onClick s).2 = Some TypeError
  ∧ elements (document (page (onClick s).1)) = elements (document (page s)).
Proof. intros Hi. unfold onClick. by rewrite Hi. Qed.

(** X18: without the image every click fails half way. With the button on
    the page and the image missing, the handler of each click throws a
    [TypeError] at the assignment of [src], after it has advanced the
    index and set [data-theme]; the elements of the page stay as they
    were. *)
Theorem hero_without_image p k :
  is_Some (find (hasId "themeToggle") (elements (document p))) →
  find (hasId "heroImage") (elements (document p)) = None →
  let s := clicks k (load p).1 in
  (onClick s).2 = Some TypeError
  ∧ currentThemeIndex (onClick s).1 = (if Nat.odd k then 0 else 1)%nat
  ∧ dataTheme (onClick s).1 = Some (themeAfter (S k))
  ∧ elements (document (page (onClick s).1)) = elements (document p)
  ∧ heroSrc (onClick s).1 = None.
Proof.
  intros Hbtn Himg s.
  destruct (load_ticking p Hbtn) as [_ H0].
  pose proof (clicks_ticking k _ H0) as Hk. fold s in Hk.
  assert (heroImage (load p).1 = false ∧ page (load p).1 = p) as [Hi0 Hp0].
  { unfold load. rewrite (bool_decide_eq_true_2 _ Hbtn), Himg.
    rewrite (bool_decide_eq_false_2 (is_Some None)) by (by intros [? ?]).
    done. }
  assert (heroImage s = false) as Hi
    by (unfold s; by rewrite (proj1 (clicks_fields k _))).
  assert (elements (document (page s)) = elements (document p)) as Hels.
  { unfold s. clear Hk Hi s.
    induction k as [|k IH]; cbn [clicks]; [by rewrite Hp0|].
    unfold click.
    rewrite (proj2 (clicks_fields k _)), (proj1 H0).
    assert (heroImage (clicks k (load p).1) = false) as Hik
      by (by rewrite (proj1 (clicks_fields k _))).
    by rewrite (proj2 (onClick_no_image _ Hik)). }
  destruct (onClick_no_image s Hi) as [Hthrow Hsame].
  destruct (onClick_ticking k s Hk) as [[_ Hidx] Hdata].
  split; [done|].
  split; [rewrite Hidx, Nat.odd_succ, <- Nat.negb_odd; by destruct (Nat.odd k)|].
  split; [done|]. split; [congruence|].
  unfold heroSrc. by rewrite Hsame, Hels, Himg.
Qed.

Lemma updateFirst_twice sel f g l :
  (∀ e, sel (g e) = sel e) →
  (∀ e, f (g e) = f e) →
  updateFirst sel f (updateFirst sel g l) = updateFirst sel f l.
Proof.
  intros Hsel Hfg. induction l as [|e l IH]; [done|]. simpl.
  destruct (sel e) eqn:He; simpl.
  - by rewrite Hsel, He, Hfg.
  - by rewrite He, IH.
Qed.

Lemma onClick_index s :
  (currentThemeIndex (onClick s).1 < 2)%nat
  ∧ currentThemeIndex (onClick s).1 =
      ((currentThemeIndex s + 1) mod 2)%nat.
Proof.
  unfold onClick. destruct (heroImage s); cbn [fst currentThemeIndex];
    change (length themes) with 2%nat;
    (split; [apply Nat.mod_upper_bound; lia | done]).
Qed.

Lemma onClick_page s :
  page (onClick s).1 =
    (if heroImage s
     then updDocument (updElements
            (updateFirst (hasId "heroImage")
               (updAttrs (insert "src"
                  ("assets/hero-"
                   +:+ toString (themes !! ((currentThemeIndex s + 1) mod 2)%nat)
                   +:+ ".svg")))))
     else λ q : Page, q)
      (updDocument
         (updAttributes
            (insert "data-theme"
               (toString (themes !! ((currentThemeIndex s + 1) mod 2)%nat))))
         (page s)).
Proof. unfold onClick. by destruct (heroImage s). Qed.

Lemma script_eq s1 s2 :
  toggleBtn s1 = toggleBtn s2 → heroImage s1 = heroImage s2 →
  currentThemeIndex s1 = currentThemeIndex s2 →
  listening s1 = listening s2 → page s1 = page s2 → s1 = s2.
Proof. destruct s1, s2. simpl. by intros -> -> -> -> ->. Qed.

Lemma updDocument_updDocument f g p :
  updDocument f (updDocument g p) = updDocument (λ d, f (g d)) p.
Proof. reflexivity. Qed.

Lemma updDocument_ext f g p :
  f (document p) = g (document p) → updDocument f p = updDocument g p.
Proof. unfold updDocument. by intros ->. Qed.

Lemma retheme a b c (pg : Page) :
  updDocument (updAttributes (insert "data-theme" a))
    (updDocument (updAttributes (insert "data-theme" b))
       (updDocument (updAttributes (insert "data-theme" c)) pg)) =
  updDocument (updAttributes (insert "data-theme" a)) pg.
Proof.
  rewrite !updDocument_updDocument. apply updDocument_ext.
  destruct (document pg) as [cl at' st els hl].
  unfold updAttributes. cbn [classList attributes style elements headLength].
  by rewrite !insert_insert_eq.
Qed.

Lemma restyle a b c sa sb sc (pg : Page) :
  updDocument (updElements
    (updateFirst (hasId "heroImage") (updAttrs (insert "src" sa))))
    (updDocument (updAttributes (insert "data-theme" a))
       (updDocument (updElements
          (updateFirst (hasId "heroImage") (updAttrs (insert "src" sb))))
          (updDocument (updAttributes (insert "data-theme" b))
             (updDocument (updElements
                (updateFirst (hasId "heroImage") (updAttrs (insert "src" sc))))
                (updDocument (updAttributes (insert "data-theme" c)) pg))))) =
  updDocument (updElements
    (updateFirst (hasId "heroImage") (updAttrs (insert "src" sa))))
    (updDocument (updAttributes (insert "data-theme" a)) pg).
Proof.
  rewrite !updDocument_updDocument. apply updDocument_ext.
  destruct (document pg) as [cl at' st els hl].
  unfold updAttributes, updElements. cbn [classList attributes style elements headLength].
  rewrite !insert_insert_eq.
  rewrite !updateFirst_twice; [done| | | |];
    first [ intros e; by apply hasId_updAttrs
          | intros e; unfold updAttrs; simpl; by rewrite insert_insert_eq ].
Qed.

Lemma onClick_onClick s :
  (currentThemeIndex s < 2)%nat →
  (onClick (onClick (onClick s).1).1).1 = (onClick s).1.
Proof.
  intros Hidx.
  destruct (onClick_fields s) as (Hb1 & Hi1 & Hl1).
  destruct (onClick_fields (onClick s).1) as (Hb2 & Hi2 & Hl2).
  destruct (onClick_fields (onClick (onClick s).1).1) as (Hb3 & Hi3 & Hl3).
  destruct (onClick_index s) as [_ Hx1].
  destruct (onClick_index (onClick s).1) as [_ Hx2].
  destruct (onClick_index (onClick (onClick s).1).1) as [_ Hx3].
  apply script_eq; [congruence | congruence | | congruence |].
  - rewrite Hx3, Hx2, Hx1.
    assert (currentThemeIndex s = 0 ∨ currentThemeIndex s = 1)%nat
      as [-> | ->] by lia; reflexivity.
  - rewrite !onClick_page, Hi2, Hi1, Hx2, Hx1.
    assert (currentThemeIndex s = 0 ∨ currentThemeIndex s = 1)%nat
      as [-> | ->] by lia.
    all: destruct (heroImage s).
    all: first [rewrite restyle | rewrite retheme].
    all: reflexivity.
Qed.

Lemma click_click s :
  (currentThemeIndex s < 2)%nat → click (click (click s)) = click s.
Proof.
  intros Hidx. destruct (listening s) eqn:Hl.
  - destruct (onClick_fields s) as (_ & _ & Hl1).
    destruct (onClick_fields (onClick s).1) as (_ & _ & Hl2).
    rewrite Hl in Hl1. rewrite Hl1 in Hl2.
    assert (click s = (onClick s).1) as ->
      by (unfold click; by rewrite Hl).
    assert (click (onClick s).1 = (onClick (onClick s).1).1) as ->
      by (unfold click; by rewrite Hl1).
    assert (click (onClick (onClick s).1).1 =
              (onClick (onClick (onClick s).1).1).1) as ->
      by (unfold click; by rewrite Hl2).
    by apply onClick_onClick.
  - assert (click s = s) as Hc by (unfold click; by rewrite Hl).
    by rewrite !Hc.
Qed.

Lemma clicks_index k s :
  (currentThemeIndex s < 2)%nat → (currentThemeIndex (clicks k s) < 2)%nat.
Proof.
  intros Hidx. induction k as [|k IH]; [done|]. simpl.
  unfold click. destruct (listening _); [apply onClick_index | done].
Qed.

(** X19: the toggler has period two. From the first click on, two more
    clicks bring the script's variables and the whole page back: the
    state after [k + 2] clicks is the state after [k] clicks, for every
    [k ≥ 1]. *)
Theorem hero_clicks_period p k :
  (1 ≤ k)%nat →
  clicks (k + 2) (load p).1 = clicks k (load p).1.
Proof.
  intros Hk. destruct k as [|k]; [lia|].
  replace (S k + 2)%nat with (S (S (S k))) by lia. simpl.
  apply click_click, clicks_index.
  unfold load.
  destruct (bool_decide (is_Some (find (hasId "themeToggle") _)));
    cbn [fst currentThemeIndex]; lia.
Qed.

End HeroEdges.

(** ** Further samples *)

Section FurtherSamples.

Import HeroToggle.

Lemma detectBrowserLanguage_supported_witness :
  browserLocale firstVisit = Some "fr-CA"
  ∧ detectBrowserLanguage firstVisit = Normal "fr" firstVisit
  ∧ browserLocale noLocaleVisit = None
  ∧ detectBrowserLanguage noLocaleVisit = Abrupt TypeError noLocaleVisit.
Proof.
  destruct (detectBrowserLanguage_supported firstVisit) as (H1 & _ & _).
  destruct (detectBrowserLanguage_supported noLocaleVisit) as (_ & H2 & _).
  split; [reflexivity|].
  split; [exact (proj1 (H1 "fr-CA" eq_refl))|].
  split; [reflexivity|].
  apply H2. reflexivity.
Defined.

Lemma stored_theme_is_shown_witness :
  reachable sampleDocument toggledVisit
  ∧ reloading toggledVisit = false
  ∧ ∃ theme,
      getCurrentTheme toggledVisit = Normal theme toggledVisit
      ∧ localStorage toggledVisit !! THEME_STORAGE_KEY = Some theme.
Proof.
  assert (reachable sampleDocument toggledVisit) as Hreach
    by (apply reachable_step, reachable_boot).
  assert (reloading toggledVisit = false) as Hrl by (vm_compute; reflexivity).
  split; [exact Hreach|]. split; [exact Hrl|].
  destruct (stored_theme_is_shown sampleDocument toggledVisit Hreach Hrl)
    as (theme & H1 & H2 & _).
  exists theme. split; [exact H1 | exact H2].
Defined.

Lemma stored_language_is_shown_witness :
  reachable sampleDocument toggledVisit
  ∧ is_Some (browserLocale toggledVisit)
  ∧ reloading toggledVisit = false
  ∧ ∃ code,
      code ∈ SUPPORTED_LANGUAGES
      ∧ localStorage toggledVisit !! LANGUAGE_STORAGE_KEY = Some code
      ∧ attributes (document toggledVisit) !! "lang" = Some code.
Proof.
  assert (reachable sampleDocument toggledVisit) as Hreach
    by (apply reachable_step, reachable_boot).
  assert (is_Some (browserLocale toggledVisit)) as Hloc
    by (exists "fr-CA"; vm_compute; reflexivity).
  assert (reloading toggledVisit = false) as Hrl by (vm_compute; reflexivity).
  split; [exact Hreach|]. split; [exact Hloc|]. split; [exact Hrl|].
  destruct (stored_language_is_shown sampleDocument toggledVisit Hreach Hloc Hrl)
    as (code & H1 & H2 & H3 & _).
  exists code. split; [exact H1|]. split; [exact H2 | exact H3].
Defined.

Lemma animated_setTheme_settles_witness :
  (TRANSITION_CLASS ∉ classList (document firstVisit))
  ∧ document
      (pageOf (fireTimer 0 (pageOf (setTheme true true firstVisit))))
    = document (pageOf (setTheme true false firstVisit)).
Proof.
  assert (TRANSITION_CLASS ∉ classList (document firstVisit)) as Hno
    by (apply (bool_decide_unpack _); vm_compute; exact I).
  split; [exact Hno|].
  destruct (animated_setTheme_settles true firstVisit Hno) as (_ & H & _).
  exact H.
Defined.

Lemma toggleTheme_twice_witness :
  ∃ btn btn',
    find (hasId "theme-toggle") (elements (document firstVisit)) = Some btn
    ∧ find (hasId "theme-toggle")
        (elements (document
           (pageOf (toggleTheme (pageOf (toggleTheme firstVisit))))))
      = Some btn'
    ∧ attrs btn' !! "aria-label" = Some "Switch to dark theme".
Proof.
  destruct (toggleTheme_twice firstVisit) as (_ & _ & _ & _ & _ & H).
  destruct (H (mkElement "BUTTON" {[ "id" := "theme-toggle" ]} "" "") eq_refl)
    as (btn' & Hf & Ha & _).
  eexists _, btn'. split; [reflexivity|]. split; [exact Hf | exact Ha].
Defined.

Lemma updatePageTranslations_shows_witness :
  "fr" ∈ SUPPORTED_LANGUAGES
  ∧ ∃ e',
      find isTitle
        (elements (document (pageOf (updatePageTranslations "fr" firstVisit))))
        = Some e'
      ∧ content e' = "Portefeuille".
Proof.
  assert ("fr" ∈ SUPPORTED_LANGUAGES) as Hfr
    by (apply (bool_decide_unpack _); vm_compute; exact I).
  destruct (updatePageTranslations_shows "fr" firstVisit Hfr)
    as (_ & _ & _ & _ & _ & _ & _ & _ & Ht & _).
  assert (find isTitle
            (elements (document (pageOf (updatePageTranslations "fr" firstVisit))))
          = Some (mkElement "TITLE" ∅ "Portefeuille" "")) as Hf
    by (vm_compute; reflexivity).
  split; [exact Hfr|]. eexists. split; [exact Hf|].
  apply (Ht _ (VString "Portefeuille") Hf). vm_compute. reflexivity.
Defined.

Lemma updatePageTranslations_last_wins_witness :
  "fr" ∈ SUPPORTED_LANGUAGES
  ∧ "de" ∈ SUPPORTED_LANGUAGES
  ∧ elements (document
      (pageOf (updatePageTranslations "de"
         (pageOf (updatePageTranslations "fr" firstVisit)))))
    = elements (document (pageOf (updatePageTranslations "de" firstVisit))).
Proof.
  assert ("fr" ∈ SUPPORTED_LANGUAGES) as Hfr
    by (apply (bool_decide_unpack _); vm_compute; exact I).
  assert ("de" ∈ SUPPORTED_LANGUAGES) as Hde
    by (apply (bool_decide_unpack _); vm_compute; exact I).
  split; [exact Hfr|]. split; [exact Hde|].
  exact (proj1 (updatePageTranslations_last_wins "fr" "de" firstVisit Hfr Hde)).
Defined.

Lemma applyAnimationStyles_once_witness :
  find (hasId "theme-animations") (elements (document firstVisit)) = None
  ∧ headLength (document firstVisit) = 2%nat
  ∧ tagName <$>
      elements (document (pageOf (applyAnimationStyles firstVisit))) !! 2%nat
    = Some "STYLE"
  ∧ length (elements (document (pageOf (applyAnimationStyles firstVisit))))
    = 7%nat.
Proof.
  destruct (applyAnimationStyles_once firstVisit) as (_ & _ & H & _).
  destruct (H eq_refl) as [Hels _].
  split; [reflexivity|]. split; [reflexivity|].
  rewrite Hels. split; reflexivity.
Defined.

Lemma setupEventListeners_without_controls_witness :
  find (hasId "language-select") (elements (document heroPage)) = None
  ∧ find (hasId "theme-toggle") (elements (document heroPage)) = None
  ∧ pageOf (setupEventListeners heroPage) = heroPage.
Proof.
  destruct (setupEventListeners_without_controls heroPage eq_refl)
    as (_ & H & _).
  split; [reflexivity|]. split; [reflexivity|]. exact (H eq_refl).
Defined.

Lemma load_completes_iff_witness :
  is_Some (browserLocale firstVisit)
  ∧ isNormal (boot sampleDocument firstVisit) = true
  ∧ browserLocale noLocaleVisit = None
  ∧ isNormal (boot sampleDocument noLocaleVisit) = false.
Proof.
  assert (is_Some (browserLocale firstVisit)) as Hloc
    by (exists "fr-CA"; reflexivity).
  split; [exact Hloc|].
  split.
  { apply (proj2 (load_completes_iff sampleDocument firstVisit)).
    right. exact Hloc. }
  split; [reflexivity|].
  destruct (isNormal (boot sampleDocument noLocaleVisit)) eqn:E;
    [|reflexivity].
  apply (proj1 (load_completes_iff sampleDocument noLocaleVisit)) in E.
  destruct E as [(s & Hs & _) | [l Hl]]; vm_compute in *; discriminate.
Defined.

Lemma load_without_locale_aborts_witness :
  ¬ usableLanguage noLocaleVisit
  ∧ browserLocale noLocaleVisit = None
  ∧ listeners (pageOf (boot sampleDocument noLocaleVisit))
    = [SystemThemeListener]
  ∧ elements (document (pageOf (boot sampleDocument noLocaleVisit)))
    = elements sampleDocument
  ∧ getCurrentLanguage (pageOf (boot sampleDocument noLocaleVisit))
    = Normal "en" (pageOf (boot sampleDocument noLocaleVisit)).
Proof.
  assert (¬ usableLanguage noLocaleVisit) as Hnu.
  { intros (s & Hs & _). vm_compute in Hs. discriminate Hs. }
  split; [exact Hnu|]. split; [reflexivity|].
  destruct (load_without_locale_aborts sampleDocument noLocaleVisit Hnu eq_refl)
    as (_ & _ & _ & Hl & _ & He & _ & _ & Hg).
  split; [exact Hl|]. split; [exact He|]. exact (Hg eq_refl).
Defined.

Lemma load_wires_controls_witness :
  is_Some (browserLocale firstVisit)
  ∧ present "language-select" (elements sampleDocument) = true
  ∧ ∃ code,
      timers (pageOf (boot sampleDocument firstVisit))
        = [(SwapTranslations code false, 150%nat)]
      ∧ SetSelectValue "language-select" code
          ∈ log (pageOf (boot sampleDocument firstVisit)).
Proof.
  assert (is_Some (browserLocale firstVisit)) as Hloc
    by (exists "fr-CA"; reflexivity).
  assert (present "language-select" (elements sampleDocument) = true) as Hsel
    by (vm_compute; reflexivity).
  split; [exact Hloc|]. split; [exact Hsel|].
  destruct (load_wires_controls sampleDocument firstVisit (or_intror Hloc))
    as (code & _ & _ & _ & Ht & _ & Hv & _).
  exists code. split; [exact Ht | exact (Hv Hsel)].
Defined.

Lemma controls_respond_after_load_witness :
  is_Some (browserLocale firstVisit)
  ∧ handle sampleDocument ClickThemeToggle
      (pageOf (boot sampleDocument firstVisit))
    = pageOf (toggleTheme (pageOf (boot sampleDocument firstVisit))).
Proof.
  assert (is_Some (browserLocale firstVisit)) as Hloc
    by (exists "fr-CA"; reflexivity).
  split; [exact Hloc|].
  destruct (controls_respond_after_load sampleDocument firstVisit "de"
              (or_intror Hloc)) as [H _].
  assert (present "theme-toggle" (elements sampleDocument) = true) as Hbtn
    by (vm_compute; reflexivity).
  rewrite Hbtn in H. exact H.
Defined.

Lemma only_supported_translations_witness :
  reachable sampleDocument toggledVisit
  ∧ ((SwapTranslations "fr" false, 150%nat) ∈ timers toggledVisit)
  ∧ "fr" ∈ SUPPORTED_LANGUAGES.
Proof.
  assert (reachable sampleDocument toggledVisit) as Hreach
    by (apply reachable_step, reachable_boot).
  assert ((SwapTranslations "fr" false, 150%nat) ∈ timers toggledVisit) as Hin.
  { assert (timers toggledVisit =
              [(SwapTranslations "fr" false, 150%nat);
               (RemoveTransitionClass, 300%nat)]) as ->
      by (vm_compute; reflexivity).
    apply list_elem_of_here. }
  split; [exact Hreach|]. split; [exact Hin|].
  destruct (only_supported_translations sampleDocument toggledVisit Hreach)
    as (H & _).
  exact (proj1 (H _ _ Hin)).
Defined.

Lemma hero_without_button_witness :
  find (hasId "themeToggle") (elements (document barePage)) = None
  ∧ (load barePage).2 = Some TypeError
  ∧ page (clicks 3 (load barePage).1) = barePage.
Proof.
  destruct (hero_without_button barePage 3 eq_refl) as (H1 & _ & _ & H2).
  split; [reflexivity|]. split; [exact H1 | exact H2].
Defined.

Lemma hero_without_image_witness :
  is_Some (find (hasId "themeToggle") (elements (document buttonOnlyPage)))
  ∧ find (hasId "heroImage") (elements (document buttonOnlyPage)) = None
  ∧ (onClick (clicks 2 (load buttonOnlyPage).1)).2 = Some TypeError
  ∧ dataTheme (onClick (clicks 2 (load buttonOnlyPage).1)).1 = Some "dark".
Proof.
  assert (is_Some (find (hasId "themeToggle")
                     (elements (document buttonOnlyPage)))) as Hbtn
    by (eexists; reflexivity).
  split; [exact Hbtn|]. split; [reflexivity|].
  destruct (hero_without_image buttonOnlyPage 2 Hbtn eq_refl)
    as (H1 & _ & H2 & _).
  split; [exact H1 | exact H2].
Defined.

Lemma hero_clicks_period_witness :
  (1 ≤ 1)%nat
  ∧ clicks (1 + 2) (load heroPage).1 = clicks 1 (load heroPage).1.
Proof.
  assert (1 ≤ 1)%nat as Hk by lia.
  split; [exact Hk|]. exact (hero_clicks_period heroPage 1 Hk).
Defined.

End FurtherSamples.
